(** * gmaps-scraper: the listing discovery and extraction pipeline of [app.py]

    A shallow embedding of [app.py] and the properties of its specification.

    - Python [str] values are [string]s; the model covers ASCII text (code
      points up to 127), which is where [str.strip], [str.startswith],
      [str.split] and the character classes of the regular expressions are
      written out below.
    - [hash] of a tuple of strings is a parameter of the development: the
      interpreter's hash is seeded per process, and the set of the
      Deduplicator holds hash values, so every fact about the Deduplicator is
      stated for an arbitrary hash function.
    - The browser (Playwright) is an interface of operations over an abstract
      world. A call returns a value or raises an exception, which is an
      instance of [Exception], and changes the world; building a locator is
      lazy and does neither. [time.sleep] and [print] return normally.
    - The code is embedded in a state-and-exception monad over that world;
      the state also records what was printed and which output files were
      started.

    The development has two parts: the model ([app.py], a simulated browser
    to evaluate it on, the vocabulary of the specification and sample data),
    and the properties. *)

From Stdlib Require Import ZArith String Ascii Lia.
From stdpp Require Import gmap strings list pretty.

Set Warnings "-clear-no-such-hyp".

Local Open Scope Z_scope.

(** ** Strings *)

Module Str.

(** [s[:n]] and [s[n:]] *)
Fixpoint take (n : nat) (s : string) : string :=
  match n, s with
  | S n', String c s' => String c (take n' s')
  | _, _ => ""
  end.

Fixpoint drop (n : nat) (s : string) : string :=
  match n, s with
  | S n', String _ s' => drop n' s'
  | _, _ => s
  end.

(** [s.startswith(p)] *)
Fixpoint startswith (p s : string) : bool :=
  match p, s with
  | "", _ => true
  | String a p', String b s' => if Ascii.eqb a b then startswith p' s' else false
  | String _ _, "" => false
  end.

(** [str.isspace] on one ASCII character: TAB, LF, VT, FF, CR, the four
    information separators 0x1C to 0x1F, and the space. *)
Definition isspace (c : ascii) : bool :=
  let n := nat_of_ascii c in
  ((9 <=? n) && (n <=? 13) || (28 <=? n) && (n <=? 32))%nat.

Fixpoint lstrip (s : string) : string :=
  match s with
  | String c s' => if isspace c then lstrip s' else s
  | "" => ""
  end.

Fixpoint rstrip (s : string) : string :=
  match s with
  | String c s' =>
      match rstrip s' with
      | "" => if isspace c then "" else String c ""
      | r => String c r
      end
  | "" => ""
  end.

(** [s.strip()] *)
Definition strip (s : string) : string := rstrip (lstrip s).

(** [s.find(sep)], with [None] for -1 *)
Fixpoint find (sep s : string) : option nat :=
  if startswith sep s then Some 0%nat
  else match s with
       | "" => None
       | String _ s' => S <$> find sep s'
       end.

(** [s.split(sep)] for a non-empty [sep]: the text is cut at every
    occurrence of [sep], scanning from the left, and an occurrence that has
    been cut is skipped as a whole ([skip] counts what remains of it). The
    head of the result is the piece that is being collected. *)
Fixpoint split_go (sep : string) (skip : nat) (s : string) : list string :=
  match s with
  | "" => [""]
  | String c s' =>
      match skip with
      | S k => split_go sep k s'
      | O =>
          if startswith sep s
          then "" :: split_go sep (String.length sep - 1) s'
          else match split_go sep 0 s' with
               | h :: t => String c h :: t
               | [] => [String c ""]
               end
      end
  end.

Definition split (sep s : string) : list string := split_go sep 0 s.

(** [s.lower()] *)
Definition lower_char (c : ascii) : ascii :=
  let n := nat_of_ascii c in
  if ((65 <=? n) && (n <=? 90))%nat then ascii_of_nat (n + 32) else c.

Fixpoint lower (s : string) : string :=
  match s with
  | "" => ""
  | String c s' => String (lower_char c) (lower s')
  end.

End Str.

(** ** Query Parser ([scrape_businesses_core], first three statements) *)

Definition parse_query (query : string) : string * string :=
  let parts := Str.strip <$> Str.split " in " query in
  let category := match parts with p0 :: _ => p0 | [] => query end in
  let location := match parts with _ :: p1 :: _ => p1 | _ => "" end in
  (category, location).

(** ** Data model *)

Record Business := mkBusiness {
  name : option string;
  address : option string;
  domain : option string;
  website : option string;
  phone_number : option string;
  email : option string;
  category : option string;
  location : option string
}.

(** [Business()]: every field is [None]. *)
Definition Business_new : Business :=
  mkBusiness None None None None None None None None.

(** The entry [f"{tag}{value}"] appended under [if value:], which holds for
    a string that is neither [None] nor empty. *)
Definition tagged (tag : string) (value : option string) : list string :=
  match value with
  | Some (String c s) => [tag +:+ String c s]
  | _ => []
  end.

(** The list [hash_fields] of [Business.__hash__]; the first entry is
    [self.name or ""]. *)
Definition hash_fields (self : Business) : list string :=
  default "" (name self)
    :: tagged "domain:" (domain self)
    ++ tagged "website:" (website self)
    ++ tagged "phone:" (phone_number self).

Record BusinessList := mkBusinessList {
  business_list : list Business;
  _seen_businesses : gset Z
}.

Definition BusinessList_new : BusinessList := mkBusinessList [] ∅.

Section Deduplicator.

(** [hash] on a tuple of strings. *)
Variable py_hash : list string -> Z.

(** [Business.__hash__] *)
Definition Business_hash (self : Business) : Z := py_hash (hash_fields self).

(** [BusinessList.add_business] *)
Definition add_business (self : BusinessList) (business : Business) : BusinessList :=
  let business_hash := Business_hash business in
  if decide (business_hash ∈ _seen_businesses self) then self
  else mkBusinessList (business_list self ++ [business])
                      (_seen_businesses self ∪ {[business_hash]}).

(** A run of [add_business] calls, in order. *)
Definition add_all (self : BusinessList) (bs : list Business) : BusinessList :=
  foldl add_business self bs.

End Deduplicator.

(** A stand-in for [hash], used only where a lemma evaluates the
    Deduplicator on concrete records: a 64-bit FNV-1a fold over the
    characters of the fields, each field closed by an extra round. *)
Definition fnv_char (h : Z) (c : ascii) : Z :=
  (Z.lxor h (Z.of_nat (nat_of_ascii c)) * 1099511628211) mod 2 ^ 64.

Fixpoint fnv_string (h : Z) (s : string) : Z :=
  match s with
  | "" => (Z.lxor h 255 * 1099511628211) mod 2 ^ 64
  | String c s' => fnv_string (fnv_char h c) s'
  end.

Definition fnv_hash (fields : list string) : Z :=
  foldl fnv_string 14695981039346656037 fields.

(** ** The e-mail pattern *)

Module Re.

(** The fragment of [re] that [EMAIL_REGEX] is written in: a sequence of
    pieces, each one character of a class, or a greedy repetition
    [{n,}] of a class ([+] is [{1,}]). *)
Inductive quant := Once | AtLeast (n : nat).

Record piece := Piece { cls : ascii -> bool; qt : quant }.

Definition regex := list piece.

(** The length of the longest run of [p] characters [s] starts with. *)
Fixpoint span (p : ascii -> bool) (s : string) : nat :=
  match s with
  | String c s' => if p c then S (span p s') else 0%nat
  | "" => 0%nat
  end.

(** A greedy repetition gives characters back one at a time: with [j]
    characters taken, the rest of the pattern [k] is tried on what follows;
    when it fails and more than [lo] characters are held, one is given
    back. *)
Fixpoint backtrack (k : string -> option nat) (s : string) (lo j : nat) : option nat :=
  if (j <? lo)%nat then None
  else match k (Str.drop j s) with
       | Some m => Some (j + m)%nat
       | None => match j with
                 | O => None
                 | S j' => backtrack k s lo j'
                 end
       end.

(** The match of [r] at the start of [s] that the backtracking matcher
    finds first, as its length. *)
Fixpoint match_here (r : regex) (s : string) : option nat :=
  match r with
  | [] => Some 0%nat
  | p :: r' =>
      match qt p with
      | Once =>
          match s with
          | String c s' => if cls p c then S <$> match_here r' s' else None
          | "" => None
          end
      | AtLeast lo => backtrack (match_here r') s lo (span (cls p) s)
      end
  end.

(** [r.search(s)]: start and length of the first match, trying the start
    positions from the left. *)
Fixpoint search_from (r : regex) (i : nat) (s : string) : option (nat * nat) :=
  match match_here r s with
  | Some n => Some (i, n)
  | None => match s with
            | "" => None
            | String _ s' => search_from r (S i) s'
            end
  end.

Definition search (r : regex) (s : string) : option (nat * nat) := search_from r 0 s.

(** [r.findall(s)] for a pattern without groups: the matched texts, from
    the left, without overlap ([skip] counts what remains of the match that
    was just collected). No piece sequence used here matches the empty
    string. *)
Fixpoint findall_go (r : regex) (skip : nat) (s : string) : list string :=
  match skip with
  | S k => match s with
           | "" => []
           | String _ s' => findall_go r k s'
           end
  | O =>
      match match_here r s with
      | Some n =>
          Str.take n s :: match s with
                          | "" => []
                          | String _ s' => findall_go r (n - 1) s'
                          end
      | None => match s with
                | "" => []
                | String _ s' => findall_go r 0 s'
                end
      end
  end.

Definition findall (r : regex) (s : string) : list string := findall_go r 0 s.

Definition in_range (lo hi c : ascii) : bool :=
  ((nat_of_ascii lo <=? nat_of_ascii c) && (nat_of_ascii c <=? nat_of_ascii hi))%nat.

Fixpoint one_of (chars : string) (c : ascii) : bool :=
  match chars with
  | "" => false
  | String a chars' => Ascii.eqb a c || one_of chars' c
  end.

(** [[a-zA-Z]] *)
Definition alpha (c : ascii) : bool := in_range "a" "z" c || in_range "A" "Z" c.

(** [[a-zA-Z0-9.\-]] *)
Definition domain_char (c : ascii) : bool :=
  alpha c || in_range "0" "9" c || one_of ".-" c.

(** [[a-zA-Z0-9._%+\-]] *)
Definition local_char (c : ascii) : bool :=
  alpha c || in_range "0" "9" c || one_of "._%+-" c.

End Re.

(** [EMAIL_REGEX = re.compile(r"[a-zA-Z0-9._%+\-]+@[a-zA-Z0-9.\-]+\.[a-zA-Z]{2,}")] *)
Definition EMAIL_REGEX : Re.regex :=
  [ Re.Piece Re.local_char (Re.AtLeast 1);
    Re.Piece (Ascii.eqb "@") Re.Once;
    Re.Piece Re.domain_char (Re.AtLeast 1);
    Re.Piece (Ascii.eqb ".") Re.Once;
    Re.Piece Re.alpha (Re.AtLeast 2) ].

(** [matches = EMAIL_REGEX.findall(html or ""); email = matches[0]] when
    [matches] is not empty, and [""] otherwise. *)
Definition first_email (html : option string) : string :=
  match Re.findall EMAIL_REGEX (default "" html) with
  | m :: _ => m
  | [] => ""
  end.

(** ** Exceptions, results and the monad of the pipeline *)

(** The subclasses of [Exception] that the code tells apart or raises, with
    the text that [str(e)] gives. *)
Inductive exn :=
| PWTimeoutError (msg : string)
| PWError (msg : string)
| RuntimeError (msg : string)
| OtherException (msg : string).

Definition exn_str (e : exn) : string :=
  match e with
  | PWTimeoutError msg | PWError msg | RuntimeError msg | OtherException msg => msg
  end.

Definition is_PWTimeoutError (e : exn) : bool :=
  match e with PWTimeoutError _ => true | _ => false end.

Inductive result (A : Type) :=
| Ok (a : A)
| Raise (e : exn).
Arguments Ok {A} a.
Arguments Raise {A} e.

(** Why the scroll loop was left, and after how many iterations. *)
Inductive loop_exit := ReachedTotal | Stalled | CapReached.

(** The double quote, for the XPath selectors. *)
Definition dq : string := String "034" "".

Definition anchor_xpath : string :=
  "//a[contains(@href, " +:+ dq +:+ "https://www.google.com/maps/place" +:+ dq +:+ ")]".
Definition searchbox_xpath : string :=
  "//input[@id=" +:+ dq +:+ "searchboxinput" +:+ dq +:+ "]".
Definition name_sel_primary : string := "h1.DUwDvf".
Definition name_sel_fallback : string := "h1.fontHeadlineLarge".
Definition address_xpath : string :=
  "//button[@data-item-id=" +:+ dq +:+ "address" +:+ dq +:+ "]//div[contains(@class, "
    +:+ dq +:+ "fontBodyMedium" +:+ dq +:+ ")]".
Definition website_xpath : string :=
  "//a[@data-item-id=" +:+ dq +:+ "authority" +:+ dq +:+ "]//div[contains(@class, "
    +:+ dq +:+ "fontBodyMedium" +:+ dq +:+ ")]".
Definition phone_xpath : string :=
  "//button[starts-with(@data-item-id, " +:+ dq +:+ "phone:tel:" +:+ dq
    +:+ ")]//div[contains(@class, " +:+ dq +:+ "fontBodyMedium" +:+ dq +:+ ")]".

(** [f"[{idx}] Error: {e}"] *)
Definition error_line (idx : nat) (e : exn) : string :=
  "[" +:+ pretty idx +:+ "] Error: " +:+ exn_str e.

Definition no_listings_msg : string :=
  "No listings found. Try a different query or increase wait time.".

(** The texts of the two [gr.Error]s of [run_scraper]. *)
Definition missing_query_msg : string :=
  "Please enter a search query, e.g. `ecommerce stores in united kingdom`.".

Definition results_range_msg : string := "Number of results must be between 10 and 200.".

(** [website_text if website_text.startswith("http") else f"https://www.{website_text}"] *)
Definition website_of_text (website_text : string) : string :=
  if Str.startswith "http" website_text then website_text
  else "https://www." +:+ website_text.

(** [a or b] on strings *)
Definition str_or (a b : string) : string :=
  match a with "" => b | _ => a end.

(** [lst[:total]] *)
Definition slice_to {A} (total : Z) (lst : list A) : list A :=
  if 0 <=? total then take (Z.to_nat total) lst
  else take (length lst - Z.to_nat (- total)) lst.

(** [re.sub(r"[^\w\-]+", "_", query).strip("_")] on ASCII text *)
Definition word_or_dash (c : ascii) : bool :=
  Re.alpha c || Re.in_range "0" "9" c || Re.one_of "_-" c.

Fixpoint sub_nonword (in_run : bool) (s : string) : string :=
  match s with
  | "" => ""
  | String c s' =>
      if word_or_dash c then String c (sub_nonword false s')
      else if in_run then sub_nonword true s'
      else String "_" (sub_nonword true s')
  end.

Fixpoint lstrip_underscore (s : string) : string :=
  match s with
  | String "_" s' => lstrip_underscore s'
  | _ => s
  end.

Fixpoint rstrip_underscore (s : string) : string :=
  match s with
  | String c s' =>
      match rstrip_underscore s' with
      | "" => if Ascii.eqb c "_" then "" else String c ""
      | r => String c r
      end
  | "" => ""
  end.

Definition safe_name_of (query : string) : string :=
  rstrip_underscore (lstrip_underscore (sub_nonword false query)).

Section Pipeline.

(** The world outside the program (browser, network, clock, file system)
    and the handles of the browser library. *)
Context {World Browser BrowserContext Page Locator : Type}.

(** A call into the world returns or raises, and changes the world. *)
Definition prim (A : Type) : Type := World -> result A * World.

(** The operations of [playwright.sync_api], [time] and [pandas] that the
    code calls. Building a locator is lazy and touches nothing; delays are
    in milliseconds. *)
Record Playwright := mkPlaywright {
  sync_playwright_enter : prim unit;
  sync_playwright_exit : prim unit;
  chromium_launch : bool -> prim Browser;
  browser_new_context : Browser -> string -> prim BrowserContext;
  context_new_page : BrowserContext -> prim Page;
  page_set_default_timeout : Page -> Z -> prim unit;
  page_goto : Page -> string -> Z -> prim unit;
  page_locator : Page -> string -> Locator;
  locator_locator : Locator -> string -> Locator;
  locator_first : Locator -> Locator;
  locator_fill : Locator -> string -> prim unit;
  keyboard_press : Page -> string -> prim unit;
  page_hover : Page -> string -> prim unit;
  mouse_wheel : Page -> Z -> Z -> prim unit;
  locator_count : Locator -> prim nat;
  locator_all : Locator -> prim (list Locator);
  locator_click : Locator -> prim unit;
  locator_inner_text : Locator -> prim string;
  page_wait_for_load_state : Page -> string -> Z -> prim unit;
  page_content : Page -> prim (option string);
  page_close : Page -> prim unit;
  browser_close : Browser -> prim unit;
  sleep_uniform : Z -> Z -> World -> World;
  to_excel : string -> list Business -> prim unit;
  to_csv : string -> list Business -> prim unit
}.

(** The state the program runs in: the world, what was printed, and the
    files whose writing was started, with the rows handed to the writer. *)
Record State := mkState {
  world : World;
  stdout : list string;
  files : list (string * list Business)
}.

Definition M (A : Type) : Type := State -> result A * State.

Definition ret {A} (a : A) : M A := fun st => (Ok a, st).

Definition bind {A B} (m : M A) (k : A -> M B) : M B :=
  fun st => match m st with
            | (Ok a, st') => k a st'
            | (Raise e, st') => (Raise e, st')
            end.

Definition raise {A} (e : exn) : M A := fun st => (Raise e, st).

(** [try: m except Exception as e: handler(e)] *)
Definition try_except {A} (m : M A) (handler : exn -> M A) : M A :=
  fun st => match m st with
            | (Ok a, st') => (Ok a, st')
            | (Raise e, st') => handler e st'
            end.

(** [try: m finally: cleanup] *)
Definition try_finally {A} (m : M A) (cleanup : M unit) : M A :=
  fun st => match m st with
            | (r, st') =>
                match cleanup st' with
                | (Ok _, st'') => (r, st'')
                | (Raise e, st'') => (Raise e, st'')
                end
            end.

Definition set_world (st : State) (w : World) : State :=
  mkState w (stdout st) (files st).

Definition call {A} (op : prim A) : M A :=
  fun st => match op (world st) with
            | (r, w) => (r, set_world st w)
            end.

Definition print (line : string) : M unit :=
  fun st => (Ok tt, mkState (world st) (stdout st ++ [line]) (files st)).

Definition started_file (path : string) (rows : list Business) : M unit :=
  fun st => (Ok tt, mkState (world st) (stdout st) (files st ++ [(path, rows)])).

End Pipeline.

Arguments Playwright : clear implicits.
Arguments State : clear implicits.
Arguments M : clear implicits.

Notation "x <- m ;; k" := (bind m (fun x => k))
  (at level 100, m at next level, right associativity).
Notation "m ;; k" := (bind m (fun _ => k))
  (at level 100, right associativity).

(** ** The code of [app.py] *)

Section Scraper.

Context {World Browser BrowserContext Page Locator : Type}.
Variable pw : Playwright World Browser BrowserContext Page Locator.

(** [hash] on tuples of strings, and the date [BusinessList.today] that was
    fixed when the class was defined. *)
Variable py_hash : list string -> Z.
Variable today : string.

Abbreviation M := (M World).

Definition sleep (lo hi : Z) : M unit :=
  fun st => (Ok tt, set_world st (sleep_uniform pw lo hi (world st))).

(** [page.locator(x) if isinstance(x, str) else x] *)
Definition resolve (page : Page) (selector_or_locator : string + Locator) : Locator :=
  match selector_or_locator with
  | inl selector => page_locator pw page selector
  | inr locator => locator
  end.

(** *** [_safe_text]

    The [try] block either executes its [return] (here [Some text]) or
    falls through; [except Exception: pass] falls through as well, to
    [return ""]. *)
Definition _safe_text (page : Page) (selector_or_locator : string + Locator) : M string :=
  returned <-
    try_except
      (let loc := resolve page selector_or_locator in
       n <- call (locator_count pw loc) ;;
       if (n =? 0)%nat then ret None
       else text <- call (locator_inner_text pw (locator_first pw loc)) ;;
            ret (Some (Str.strip text)))
      (fun _ => ret None) ;;
  ret (default "" returned).

(** *** [scrape_email_from_website]

    [read_email] is the body of the [try]; it returns the value that
    [email] has when the body ends. *)
Definition read_email (page : Page) (url : string) : M string :=
  call (page_set_default_timeout pw page 15000) ;;
  call (page_goto pw page url 20000) ;;
  try_except
    (call (page_wait_for_load_state pw page "domcontentloaded" 10000))
    (fun e => if is_PWTimeoutError e then ret tt else raise e) ;;
  sleep 1500 2500 ;;
  html <- call (page_content pw page) ;;
  ret (first_email html).

Definition scrape_email_from_website (browser_context : BrowserContext) (url : string)
  : M string :=
  page <- call (context_new_page pw browser_context) ;;
  try_finally
    (try_except (read_email page url) (fun _ => ret ""))
    (call (page_close pw page)).

(** *** [BusinessList.save_to_excel] and [BusinessList.save_to_csv] *)
Definition save_at : string := "GMaps_Data/" +:+ today.

Definition save_to_excel (self : BusinessList) (filename : string) : M string :=
  let file_path := save_at +:+ "/" +:+ filename +:+ ".xlsx" in
  started_file file_path (business_list self) ;;
  match business_list self with
  | _ :: _ => call (to_excel pw file_path (business_list self))
  | [] => call (to_excel pw file_path [])
  end ;;
  ret file_path.

Definition save_to_csv (self : BusinessList) (filename : string) : M string :=
  let file_path := save_at +:+ "/" +:+ filename +:+ ".csv" in
  started_file file_path (business_list self) ;;
  call (to_csv pw file_path (business_list self)) ;;
  ret file_path.

(** *** [scrape_businesses_core] *)

(** The first three statements of the body of the scroll loop: scroll,
    wait, and count the anchors. *)
Definition scroll_and_count (gmaps_page : Page) : M nat :=
  call (mouse_wheel pw gmaps_page 0 8000) ;;
  sleep 1600 2400 ;;
  call (locator_count pw (page_locator pw gmaps_page anchor_xpath)).

(** The scroll loop, [for _ in range(max_scroll_loops)], with [remaining]
    iterations to go after [done] have been made. It returns why it ended
    and how many iterations it made. *)
Fixpoint scroll_loop (gmaps_page : Page) (total : Z) (remaining done : nat)
    (previously_counted : nat) : M (loop_exit * nat) :=
  match remaining with
  | O => ret (CapReached, done)
  | S remaining' =>
      count_now <- scroll_and_count gmaps_page ;;
      if total <=? Z.of_nat count_now then ret (ReachedTotal, S done)
      else if (count_now =? previously_counted)%nat then ret (Stalled, S done)
      else scroll_loop gmaps_page total remaining' (S done) count_now
  end.

Definition max_scroll_loops : nat := 50.

(** The body of the [try] of the listing loop up to the record that is
    handed to [add_business]. *)
Definition extract_business (gmaps_page : Page) (context : BrowserContext)
    (category location : string) (listing : Locator) : M Business :=
  call (locator_click pw listing) ;;
  sleep 1700 2700 ;;
  name_primary <- _safe_text gmaps_page (inl name_sel_primary) ;;
  name_txt <-
    match name_primary with
    | String _ _ => ret name_primary
    | "" =>
        name_fallback <- _safe_text gmaps_page (inl name_sel_fallback) ;;
        match name_fallback with
        | String _ _ => ret name_fallback
        | "" => _safe_text gmaps_page (inl "h1")
        end
    end ;;
  address_txt <- _safe_text gmaps_page (inl address_xpath) ;;
  website_text <- _safe_text gmaps_page (inl website_xpath) ;;
  let domain_field :=
    match website_text with String _ _ => Some website_text | "" => None end in
  let website_field :=
    match website_text with String _ _ => website_of_text website_text | "" => "" end in
  phone_txt <- _safe_text gmaps_page (inl phone_xpath) ;;
  email_txt <-
    match website_field with
    | String _ _ =>
        found <- scrape_email_from_website context website_field ;;
        ret (str_or found "")
    | "" => ret ""
    end ;;
  ret (mkBusiness (Some name_txt) (Some address_txt) domain_field (Some website_field)
         (Some phone_txt) (Some email_txt) (Some category) (Some location)).

(** One listing: the [try] body and its [except Exception as e]. The
    business list is a local object that only [add_business] changes, and
    nothing after that call can raise, so the handler finds it as it was
    before the listing. *)
Definition process_listing (gmaps_page : Page) (context : BrowserContext)
    (category location : string) (idx : nat) (listing : Locator)
    (business_list : BusinessList) : M BusinessList :=
  try_except
    (business <- extract_business gmaps_page context category location listing ;;
     let business_list' := add_business py_hash business_list business in
     sleep 600 1200 ;;
     ret business_list')
    (fun e =>
       print (error_line idx e) ;;
       ret business_list).

(** [for idx, listing in enumerate(listings, start=idx)] *)
Fixpoint process_listings (gmaps_page : Page) (context : BrowserContext)
    (category location : string) (idx : nat) (listings : list Locator)
    (business_list : BusinessList) : M BusinessList :=
  match listings with
  | [] => ret business_list
  | listing :: listings' =>
      business_list' <-
        process_listing gmaps_page context category location idx listing business_list ;;
      process_listings gmaps_page context category location (S idx) listings' business_list'
  end.

(** From the launch of the browser to the hover that nudges the results
    pane. *)
Definition open_and_search (query : string) (headless : bool)
  : M (Browser * BrowserContext * Page) :=
  browser <- call (chromium_launch pw headless) ;;
  context <- call (browser_new_context pw browser "en-GB") ;;
  gmaps_page <- call (context_new_page pw context) ;;
  call (page_set_default_timeout pw gmaps_page 45000) ;;
  call (page_goto pw gmaps_page "https://www.google.com/maps" 60000) ;;
  let search_input := page_locator pw gmaps_page searchbox_xpath in
  call (locator_fill pw search_input query) ;;
  sleep 800 1200 ;;
  call (keyboard_press pw gmaps_page "Enter") ;;
  sleep 4000 4000 ;;
  try_except (call (page_hover pw gmaps_page anchor_xpath)) (fun _ => ret tt) ;;
  ret (browser, context, gmaps_page).

(** From the scroll loop to the end of the [with] block. *)
Definition collect_and_export (query : string) (total : Z) (filetype : string)
    (category location : string) (browser : Browser) (context : BrowserContext)
    (gmaps_page : Page) : M string :=
  scroll_loop gmaps_page total max_scroll_loops 0 0 ;;
  anchors <- call (locator_all pw (page_locator pw gmaps_page anchor_xpath)) ;;
  match anchors with
  | [] =>
      call (browser_close pw browser) ;;
      raise (RuntimeError no_listings_msg)
  | _ :: _ =>
      let listings := slice_to total ((fun a => locator_locator pw a "xpath=..") <$> anchors) in
      business_list <-
        process_listings gmaps_page context category location 1 listings BusinessList_new ;;
      let safe_name := safe_name_of query in
      file_path <-
        (if String.eqb (Str.lower filetype) "csv"
         then save_to_csv business_list safe_name
         else save_to_excel business_list safe_name) ;;
      call (browser_close pw browser) ;;
      ret file_path
  end.

Definition scrape_businesses_core (query : string) (total : Z) (headless : bool)
    (filetype : string) : M string :=
  let parts := parse_query query in
  call (sync_playwright_enter pw) ;;
  try_finally
    (opened <- open_and_search query headless ;;
     match opened with
     | (browser, context, gmaps_page) =>
         collect_and_export query total filetype parts.1 parts.2 browser context gmaps_page
     end)
    (call (sync_playwright_exit pw)).

(** *** [run_scraper]

    [gr.Error] is a subclass of [Exception]. [num_results] is an [int], as
    annotated, so [int(num_results)] is the number itself; [not query] holds
    for the empty string. *)
Definition run_scraper (query : string) (num_results : Z) (filetype : string)
    (headless : bool) : M string :=
  if String.eqb query "" || String.eqb (Str.strip query) ""
  then raise (OtherException missing_query_msg)
  else if (num_results <? 10) || (200 <? num_results)
  then raise (OtherException results_range_msg)
  else scrape_businesses_core (Str.strip query) num_results headless filetype.

End Scraper.

(** ** A simulated browser

    A small scripted world on which the pipeline can be evaluated: the anchor
    counter answers from a list, every listing has a detail view (or a click
    that raises), and every website serves the same markup. *)

Module Sim.

Inductive locator :=
| Css (selector : string)
| Anchor (k : nat)
| Sub (l : locator) (selector : string)
| First (l : locator).

(** The detail view of a listing: name, website text and phone. *)
Record detail := mkDetail { d_name : string; d_website : string; d_phone : string }.

Record sim := mkSim {
  counts : list nat;              (* the next answers of the anchor counter *)
  listings : list (option detail);(* per anchor; [None]: its click raises *)
  shown : option detail;          (* the detail view on the page *)
  html : string;                  (* the markup of every website *)
  maps_up : bool;                 (* the map site can be reached *)
  pages_up : bool;                (* a page for a website can be opened *)
  detached : bool;                (* elements vanish before their text is read *)
  stuck : bool                    (* the browser does not close *)
}.

Definition set_counts (w : sim) (cs : list nat) : sim :=
  mkSim cs (listings w) (shown w) (html w) (maps_up w) (pages_up w) (detached w) (stuck w).

Definition set_shown (w : sim) (d : option detail) : sim :=
  mkSim (counts w) (listings w) d (html w) (maps_up w) (pages_up w) (detached w) (stuck w).

(** The text that a selector finds in the detail view. *)
Definition field (w : sim) (selector : string) : string :=
  match shown w with
  | None => ""
  | Some d =>
      if String.eqb selector name_sel_primary then d_name d
      else if String.eqb selector website_xpath then d_website d
      else if String.eqb selector phone_xpath then d_phone d
      else ""
  end.

Definition ok {A} (a : A) : sim -> result A * sim := fun w => (Ok a, w).

Definition count (l : locator) : sim -> result nat * sim :=
  fun w =>
    match l with
    | Css selector =>
        if String.eqb selector anchor_xpath then
          match counts w with
          | c :: cs => (Ok c, set_counts w cs)
          | [] => (Ok (length (listings w)), w)
          end
        else (Ok (match field w selector with "" => 0 | _ => 1 end)%nat, w)
    | _ => (Raise (PWError "strict mode violation"), w)
    end.

Definition all (l : locator) : sim -> result (list locator) * sim :=
  fun w =>
    match l with
    | Css _ => (Ok (Anchor <$> seq 1 (length (listings w))), w)
    | _ => (Ok [], w)
    end.

Definition click (l : locator) : sim -> result unit * sim :=
  fun w =>
    match l with
    | Sub (Anchor k) _ =>
        match listings w !! (k - 1)%nat with
        | Some (Some d) => (Ok tt, set_shown w (Some d))
        | _ => (Raise (PWError "element is not attached to the DOM"), w)
        end
    | _ => (Raise (PWError "no such element"), w)
    end.

Definition inner_text (l : locator) : sim -> result string * sim :=
  fun w =>
    match l with
    | First (Css selector) =>
        if detached w
        then (Raise (PWError "element is not attached to the DOM"), w)
        else match field w selector with
             | "" => (Raise (PWTimeoutError "Timeout 45000ms exceeded."), w)
             | text => (Ok text, w)
             end
    | _ => (Raise (PWError "no such element"), w)
    end.

(** Page 0 is the map page; the pages of websites have number 1. *)
Definition goto (page : nat) (url : string) (_ : Z) : sim -> result unit * sim :=
  fun w => if maps_up w then (Ok tt, w)
           else (Raise (PWTimeoutError "Timeout 60000ms exceeded."), w).

Definition playwright : Playwright sim unit unit nat locator :=
  {| sync_playwright_enter := ok tt;
     sync_playwright_exit := ok tt;
     chromium_launch := fun _ => ok tt;
     browser_new_context := fun _ _ => ok tt;
     context_new_page := fun _ w =>
       match shown w, pages_up w with
       | Some _, false =>
           (Raise (PWError "Target page, context or browser has been closed"), w)
       | _, _ => (Ok (match shown w with Some _ => 1 | None => 0 end)%nat, w)
       end;
     page_set_default_timeout := fun _ _ => ok tt;
     page_goto := goto;
     page_locator := fun _ selector => Css selector;
     locator_locator := Sub;
     locator_first := First;
     locator_fill := fun _ _ => ok tt;
     keyboard_press := fun _ _ => ok tt;
     page_hover := fun _ _ => ok tt;
     mouse_wheel := fun _ _ _ => ok tt;
     locator_count := count;
     locator_all := all;
     locator_click := click;
     locator_inner_text := inner_text;
     page_wait_for_load_state := fun _ _ _ => ok tt;
     page_content := fun _ w => (Ok (Some (html w)), w);
     page_close := fun _ => ok tt;
     browser_close := fun _ w =>
       if stuck w then (Raise (PWError "Browser.close: Connection closed"), w)
       else (Ok tt, w);
     sleep_uniform := fun _ _ w => w;
     to_excel := fun _ _ => ok tt;
     to_csv := fun _ _ => ok tt |}.

Definition start (w : sim) : State sim := mkState w [] [].

End Sim.

(** ** A page of elements

    A second small browser, for what a locator with several matches does: a
    locator is the list of the texts of the elements it matches, in document
    order. No selector of the page matches anything, [first] keeps the first
    match, and reading the text of a locator that matches several elements
    is a strict mode violation. *)

Module Dom.

Definition ok {A} (a : A) : unit -> result A * unit := fun w => (Ok a, w).

Definition inner_text (l : list string) : unit -> result string * unit :=
  fun w =>
    match l with
    | [text] => (Ok text, w)
    | [] => (Raise (PWTimeoutError "Timeout 45000ms exceeded."), w)
    | _ => (Raise (PWError "strict mode violation"), w)
    end.

Definition playwright : Playwright unit unit unit unit (list string) :=
  {| sync_playwright_enter := ok tt;
     sync_playwright_exit := ok tt;
     chromium_launch := fun _ => ok tt;
     browser_new_context := fun _ _ => ok tt;
     context_new_page := fun _ => ok tt;
     page_set_default_timeout := fun _ _ => ok tt;
     page_goto := fun _ _ _ => ok tt;
     page_locator := fun _ _ => [];
     locator_locator := fun l _ => l;
     locator_first := take 1;
     locator_fill := fun _ _ => ok tt;
     keyboard_press := fun _ _ => ok tt;
     page_hover := fun _ _ => ok tt;
     mouse_wheel := fun _ _ _ => ok tt;
     locator_count := fun l => ok (length l);
     locator_all := fun l => ok ((fun text => [text]) <$> l);
     locator_click := fun _ => ok tt;
     locator_inner_text := inner_text;
     page_wait_for_load_state := fun _ _ _ => ok tt;
     page_content := fun _ => ok None;
     page_close := fun _ => ok tt;
     browser_close := fun _ => ok tt;
     sleep_uniform := fun _ _ w => w;
     to_excel := fun _ _ => ok tt;
     to_csv := fun _ _ => ok tt |}.

Definition start : State unit := mkState tt [] [].

End Dom.

(** ** The vocabulary of the specification *)

(** The Field Extractor as the specification words it, on the texts of the
    elements that a locator matches: the trimmed text of the first element
    whose trimmed text is not empty, and the empty string when there is
    none. *)
Fixpoint first_nonempty_text (texts : list string) : string :=
  match texts with
  | [] => ""
  | text :: texts' =>
      match Str.strip text with
      | "" => first_nonempty_text texts'
      | trimmed_text => trimmed_text
      end
  end.

(** The parser as the specification words it: the first occurrence of the
    separator is the boundary, and the two fields are the text on either
    side of it. *)
Definition parse_query_spec (query : string) : string * string :=
  match Str.find " in " query with
  | None => (query, "")
  | Some i => (Str.take i query, Str.drop (i + 4) query)
  end.

(** The invariant of a [BusinessList]: the set holds exactly the hashes of
    the records of the list, and no hash occurs twice in the list. *)
Definition consistent (py_hash : list string -> Z) (self : BusinessList) : Prop :=
  (forall h, h ∈ _seen_businesses self <-> h ∈ Business_hash py_hash <$> business_list self) /\
  NoDup (Business_hash py_hash <$> business_list self).

Section Quiet.

Context {World : Type}.

(** A computation is [silent] when it prints nothing and starts no file,
    and [fileless] when it starts no file. *)
Definition silent {A} (m : M World A) : Prop :=
  forall st, stdout (m st).2 = stdout st /\ files (m st).2 = files st.

Definition fileless {A} (m : M World A) : Prop :=
  forall st, files (m st).2 = files st.

(** A computation is [on_world] when what it returns or raises and the world
    it leaves depend on the world it starts in only, not on what has been
    printed or on the files started before. *)
Definition on_world {A} (m : M World A) : Prop :=
  forall st st', world st = world st' ->
    (m st).1 = (m st').1 /\ world (m st).2 = world (m st').2.

End Quiet.

(** The rows of an output file have pairwise distinct Identity Keys, and a
    computation [exports_distinct] rows when it keeps the output files so. *)
Definition rows_distinct (file : string * list Business) : Prop :=
  NoDup (hash_fields <$> file.2).

Definition exports_distinct {World A} (m : M World A) : Prop :=
  forall st, Forall rows_distinct (files st) -> Forall rows_distinct (files (m st).2).

(** An absolute URL, as in RFC 3986: it starts with a scheme, a letter
    followed by letters, digits, [+], [-] and [.], and a colon. *)
Definition scheme_char (c : ascii) : bool :=
  Re.alpha c || Re.in_range "0" "9" c || Re.one_of "+-." c.

Fixpoint scheme_ends (s : string) : bool :=
  match s with
  | "" => false
  | String c s' => Ascii.eqb c ":" || (scheme_char c && scheme_ends s')
  end.

Definition is_absolute_url (s : string) : bool :=
  match s with
  | "" => false
  | String c s' => Re.alpha c && scheme_ends s'
  end.

(** Every character of [s] is in the class [p]. *)
Fixpoint all_in (p : ascii -> bool) (s : string) : bool :=
  match s with
  | "" => true
  | String c s' => p c && all_in p s'
  end.

(** The strings that a sequence of pieces denotes. *)
Inductive Matches : Re.regex -> string -> Prop :=
| Matches_nil : Matches [] ""
| Matches_once p r c s :
    Re.qt p = Re.Once -> Re.cls p c = true -> Matches r s ->
    Matches (p :: r) (String c s)
| Matches_rep p r lo w s :
    Re.qt p = Re.AtLeast lo -> all_in (Re.cls p) w = true ->
    (lo <= String.length w)%nat -> Matches r s ->
    Matches (p :: r) (w +:+ s).

(** The e-mail pattern in the words of the specification: a local part of
    letters, digits and [._%+-], an [@], domain labels separated by dots
    (the characters of [[a-zA-Z0-9.\-]], one at least), a dot, and a top-level
    domain of two or more letters. *)
Definition is_email (s : string) : Prop :=
  exists local labels tld,
    s = local +:+ "@" +:+ labels +:+ "." +:+ tld /\
    local <> "" /\ all_in Re.local_char local = true /\
    labels <> "" /\ all_in Re.domain_char labels = true /\
    (2 <= String.length tld)%nat /\ all_in Re.alpha tld = true.

(** The value that a field contributes to the Identity Key: [None] and the
    empty string count alike. *)
Definition key_field (value : option string) : string := default "" value.

(** A text without white space at its two ends. *)
Definition trimmed (s : string) : Prop :=
  (forall c t, s = String c t -> Str.isspace c = false) /\
  (forall t c, s = t +:+ String c "" -> Str.isspace c = false).

(** Any character but [@]. *)
Definition not_at (c : ascii) : bool := negb (Ascii.eqb "@" c).

(** A letter, a digit or a dash: the characters that [re.sub] and
    [strip("_")] both leave in a file name. *)
Definition alnum_or_dash (c : ascii) : bool :=
  Re.alpha c || Re.in_range "0" "9" c || Ascii.eqb "-" c.

Section ScrollRuns.

Context {World Browser BrowserContext Page Locator : Type}.
Variable pw : Playwright World Browser BrowserContext Page Locator.

(** Iterations of the scroll loop that scroll on: the count of each could be
    taken, is below the requested total, and differs from the count before
    it ([previous] before the first). The list holds the counts. *)
Inductive scrolls_on (page : Page) (total : Z)
  : nat -> State World -> list nat -> State World -> Prop :=
| scrolls_on_nil previous st : scrolls_on page total previous st [] st
| scrolls_on_cons previous st count_now st1 counts st' :
    scroll_and_count pw page st = (Ok count_now, st1) ->
    Z.of_nat count_now < total ->
    count_now <> previous ->
    scrolls_on page total count_now st1 counts st' ->
    scrolls_on page total previous st (count_now :: counts) st'.

End ScrollRuns.

(** The record that the listing loop builds for a listing, for the category
    and location of the query: every field but the domain is set, the texts
    read from the page are trimmed, domain and website come from one website
    text, and the e-mail is an address or empty, and empty without a
    website. *)
Definition extracted_row (cat loc : string) (b : Business) : Prop :=
  exists name_txt address_txt website_text phone_txt email_txt,
    b = mkBusiness (Some name_txt) (Some address_txt)
          (match website_text with "" => None | _ => Some website_text end)
          (Some (match website_text with "" => "" | _ => website_of_text website_text end))
          (Some phone_txt) (Some email_txt) (Some cat) (Some loc) /\
    trimmed name_txt /\ trimmed address_txt /\ trimmed website_text /\ trimmed phone_txt /\
    (email_txt = "" \/ is_email email_txt) /\
    (website_text = "" -> email_txt = "").

Section ListingOutcomes.

Context {World Browser BrowserContext Page Locator : Type}.
Variable pw : Playwright World Browser BrowserContext Page Locator.

(** The outcomes of the listings of a run, in the order of the listings and
    each with the position of its listing, counted from [idx]: the outcome of
    a listing is what [extract_business] returns or raises on it, in the
    state in which the run reaches it; the next listing is reached in the
    world that the extraction has left, after the wait that follows an
    extracted listing. *)
Inductive extractions (page : Page) (context : BrowserContext) (cat loc : string)
  : nat -> State World -> list Locator -> list (nat * result Business) -> State World -> Prop :=
| extractions_nil idx st : extractions page context cat loc idx st [] [] st
| extractions_cons idx st listing r st1 st2 listings outcomes st' :
    extract_business pw page context cat loc listing st = (r, st1) ->
    world st2 = match r with
                | Ok _ => sleep_uniform pw 600 1200 (world st1)
                | Raise _ => world st1
                end ->
    extractions page context cat loc (S idx) st2 listings outcomes st' ->
    extractions page context cat loc idx st (listing :: listings) ((idx, r) :: outcomes) st'.

End ListingOutcomes.

(** The records of the outcomes that are records, and the lines
    "[position] Error: message" of the outcomes that are exceptions, both in
    the order of the outcomes. *)
Definition records_of (outcomes : list (nat * result Business)) : list Business :=
  omap (fun o => match o.2 with Ok b => Some b | Raise _ => None end) outcomes.

Definition lines_of (outcomes : list (nat * result Business)) : list string :=
  omap (fun o => match o.2 with
                 | Ok _ => None
                 | Raise e => Some ("[" +:+ pretty o.1 +:+ "] Error: " +:+ exn_str e)
                 end) outcomes.

(** A line that the listing loop prints for a listing that raised. *)
Definition is_error_line (line : string) : Prop := exists k e, line = error_line k e.

(** A computation [prints_errors] when all it prints is error lines of
    listings, and it [starts_at_most] the file at [path] when it leaves the
    output files as they were or starts one file, at [path]; both whether it
    returns or raises. *)
Definition prints_errors {World A} (m : M World A) : Prop :=
  forall st, exists errors,
    stdout (m st).2 = stdout st ++ errors /\ Forall is_error_line errors.

Definition starts_at_most {World A} (path : string) (m : M World A) : Prop :=
  forall st,
    files (m st).2 = files st \/ exists rows, files (m st).2 = files st ++ [(path, rows)].

(** The extension of the output file for a [filetype]. *)
Definition extension_of (filetype : string) : string :=
  if String.eqb (Str.lower filetype) "csv" then ".csv" else ".xlsx".

(** ** Sample records and simulated pages *)

Definition acme_first : Business :=
  mkBusiness (Some "Acme") (Some "1 Main St") (Some "acme.com")
    (Some "https://www.acme.com") (Some "0113 496 0001") (Some "sales@acme.com")
    (Some "shops") (Some "york").

Definition acme_second : Business :=
  mkBusiness (Some "Acme") (Some "2 High St") (Some "acme.com")
    (Some "http://acme.com") (Some "0113 496 0002") (Some "info@acme.com")
    (Some "cafes") (Some "leeds").

Definition acme_uk : Business :=
  mkBusiness (Some "Acme") (Some "1 Main St") (Some "acme.co.uk")
    (Some "https://www.acme.co.uk") (Some "0113 496 0001") (Some "")
    (Some "shops") (Some "york").

(** A record of the name Acme with the domain [d] and nothing else. *)
Definition acme_at (d : string) : Business :=
  mkBusiness (Some "Acme") None (Some d) None None None None None.

Definition acme_extracted : Business :=
  mkBusiness (Some "Acme") (Some "") (Some "acme.com") (Some "https://www.acme.com")
    (Some "0113 496 0001") (Some "sales@acme.com") (Some "shops") (Some "york").

Definition acme_detail : Sim.detail := Sim.mkDetail "  Acme Co " "acme.com" "0113 496 0001".

Definition acme_page : Sim.sim :=
  Sim.mkSim [] [Some acme_detail] (Some acme_detail)
    "Contact us at sales@acme.com or support@acme.com" true true false false.

Definition Sim_with_detached (w : Sim.sim) : Sim.sim :=
  Sim.mkSim (Sim.counts w) (Sim.listings w) (Sim.shown w) (Sim.html w) (Sim.maps_up w)
    (Sim.pages_up w) true (Sim.stuck w).

Definition httpbin_page : Sim.sim :=
  Sim.mkSim [] [Some (Sim.mkDetail "HTTP Bin" "httpbin.org" "")] None "" true true false false.

Definition shop (k : string) : Sim.detail := Sim.mkDetail ("Shop " +:+ k) "" k.

(** Twenty listings behind an anchor counter that answers 5, 12, 20, 20. *)
Definition stalling_page : Sim.sim :=
  Sim.mkSim [5; 12; 20; 20]%nat (replicate 20 (Some (shop "1"))) None "" true true false false.

(** No listing at all. *)
Definition empty_page : Sim.sim := Sim.mkSim [] [] None "" true true false false.

(** No listing, and a browser that does not close. *)
Definition stuck_empty_page : Sim.sim := Sim.mkSim [] [] None "" true true false true.

(** Listings, but the map site cannot be reached. *)
Definition offline_page : Sim.sim :=
  Sim.mkSim [] [Some (shop "1"); Some (shop "2")] None "" false true false false.

(** Three listings; the click on the second one raises. *)
Definition mixed_page : Sim.sim :=
  Sim.mkSim [] [Some (shop "1"); None; Some (shop "3")] None "" true true false false.

Definition contact_sentence : string := "Contact us at sales@acme.com or support@acme.com".

(** A detail view is shown, and no page can be opened for the website. *)
Definition no_pages : Sim.sim :=
  Sim.mkSim [] [Some acme_detail] (Some acme_detail) contact_sentence true false false false.

(** A detail view is shown, and the website cannot be reached. *)
Definition unreachable_site : Sim.sim :=
  Sim.mkSim [] [Some acme_detail] (Some acme_detail) contact_sentence false true false false.




(** The anchor counter answers 1, 2, 3 and so on, sixty times. *)
Definition growing_page : Sim.sim :=
  Sim.mkSim (seq 1 60) (replicate 60 (Some (shop "1"))) None "" true true false false.

(** The simulated browser with a hover that times out. *)
Definition no_hover_playwright : Playwright Sim.sim unit unit nat Sim.locator :=
  {| sync_playwright_enter := sync_playwright_enter Sim.playwright;
     sync_playwright_exit := sync_playwright_exit Sim.playwright;
     chromium_launch := chromium_launch Sim.playwright;
     browser_new_context := browser_new_context Sim.playwright;
     context_new_page := context_new_page Sim.playwright;
     page_set_default_timeout := page_set_default_timeout Sim.playwright;
     page_goto := page_goto Sim.playwright;
     page_locator := page_locator Sim.playwright;
     locator_locator := locator_locator Sim.playwright;
     locator_first := locator_first Sim.playwright;
     locator_fill := locator_fill Sim.playwright;
     keyboard_press := keyboard_press Sim.playwright;
     page_hover := fun _ _ w => (Raise (PWTimeoutError "Timeout 45000ms exceeded."), w);
     mouse_wheel := mouse_wheel Sim.playwright;
     locator_count := locator_count Sim.playwright;
     locator_all := locator_all Sim.playwright;
     locator_click := locator_click Sim.playwright;
     locator_inner_text := locator_inner_text Sim.playwright;
     page_wait_for_load_state := page_wait_for_load_state Sim.playwright;
     page_content := page_content Sim.playwright;
     page_close := page_close Sim.playwright;
     browser_close := browser_close Sim.playwright;
     sleep_uniform := sleep_uniform Sim.playwright;
     to_excel := to_excel Sim.playwright;
     to_csv := to_csv Sim.playwright |}.


(** A run on three listings of which the second cannot be clicked, directly
    and through the front end. *)
Definition mixed_run : result string * State Sim.sim :=
  scrape_businesses_core Sim.playwright fnv_hash "2026-11-03" "shops in york" 10 true "CSV"
    (Sim.start mixed_page).

Definition mixed_request : result string * State Sim.sim :=
  run_scraper Sim.playwright fnv_hash "2026-11-03" "  shops in york " 10 "CSV" true
    (Sim.start mixed_page).

(** * Properties *)

(** ** Strings *)

Module StrFacts.

Lemma app_cons c s t : String c s +:+ t = String c (s +:+ t).
Proof. reflexivity. Qed.

Lemma app_nil_r s : s +:+ "" = s.
Proof. induction s as [|c s IH]; [done|]. by rewrite app_cons, IH. Qed.

Lemma app_assoc s t u : (s +:+ t) +:+ u = s +:+ (t +:+ u).
Proof. induction s as [|c s IH]; [done|]. by rewrite !app_cons, IH. Qed.

Lemma length_app s t :
  String.length (s +:+ t) = (String.length s + String.length t)%nat.
Proof. induction s as [|c s IH]; [done|]. rewrite app_cons. simpl. by rewrite IH. Qed.

Lemma drop_0 s : Str.drop 0 s = s.
Proof. by destruct s. Qed.

Lemma take_0 s : Str.take 0 s = "".
Proof. by destruct s. Qed.

Lemma drop_nil n : Str.drop n "" = "".
Proof. by destruct n. Qed.

Lemma take_drop n s : Str.take n s +:+ Str.drop n s = s.
Proof.
  revert s. induction n as [|n IH]; intros [|c s]; try done.
  simpl. by rewrite app_cons, IH.
Qed.

Lemma drop_app_length s t : Str.drop (String.length s) (s +:+ t) = t.
Proof. induction s as [|c s IH]; [apply drop_0|]. by rewrite app_cons. Qed.

Lemma length_take n s : (n <= String.length s)%nat -> String.length (Str.take n s) = n.
Proof.
  revert s. induction n as [|n IH]; intros [|c s] H; simpl in *; try done; try lia.
  rewrite IH; lia.
Qed.

Lemma drop_drop n m s : Str.drop n (Str.drop m s) = Str.drop (m + n) s.
Proof.
  revert s. induction m as [|m IH]; intros s.
  - by rewrite drop_0.
  - destruct s as [|c s]; simpl; [by destruct n|]. apply IH.
Qed.

Lemma startswith_inv p s :
  Str.startswith p s = true -> s = p +:+ Str.drop (String.length p) s.
Proof.
  revert s. induction p as [|a p IH]; intros s H.
  - by rewrite drop_0.
  - destruct s as [|b s]; [done|]. simpl in H.
    destruct (Ascii.eqb_spec a b) as [->|]; [|done].
    rewrite app_cons. simpl. f_equal. by apply IH.
Qed.

(** Skipping [k] characters is dropping them. *)
Lemma split_go_skip sep k s : Str.split_go sep k s = Str.split_go sep 0 (Str.drop k s).
Proof.
  revert k. induction s as [|c s IH]; intros k.
  - by rewrite drop_nil.
  - destruct k as [|k]; [done|]. simpl Str.drop. rewrite <- IH. done.
Qed.

(** [split] written with [find], the way the interpreter does it: cut at the
    first occurrence and split what follows it. *)
Lemma split_find sep s :
  sep <> "" ->
  Str.split sep s =
    match Str.find sep s with
    | None => [s]
    | Some i => Str.take i s :: Str.split sep (Str.drop (i + String.length sep) s)
    end.
Proof.
  intros Hsep. unfold Str.split. induction s as [|c s IH].
  - destruct sep; done.
  - cbn [Str.split_go Str.find].
    destruct (Str.startswith sep (String c s)) eqn:Hp.
    + rewrite split_go_skip. destruct sep as [|a sep]; [done|].
      simpl. by rewrite Nat.sub_0_r.
    + rewrite IH. destruct (Str.find sep s) as [i|]; simpl; done.
Qed.

(** [strip] removes the white space at both ends, and nothing else. *)
Lemma lstrip_spec s :
  exists l, s = l +:+ Str.lstrip s /\ all_in Str.isspace l = true /\
            forall c r, Str.lstrip s = String c r -> Str.isspace c = false.
Proof.
  induction s as [|c s (l & Hs & Hl & Hhead)].
  { exists "". split; [done|]. split; done. }
  simpl.
  destruct (Str.isspace c) eqn:Hc.
  - exists (String c l). rewrite app_cons, <- Hs. simpl. by rewrite Hc.
  - exists "". split; [done|]. split; [done|]. by intros c' r [= <- _].
Qed.

Lemma rstrip_spec s :
  exists r, s = Str.rstrip s +:+ r /\ all_in Str.isspace r = true /\
            (forall t c, Str.rstrip s = t +:+ String c "" -> Str.isspace c = false) /\
            (forall c t, s = String c t -> Str.isspace c = false ->
                         exists t', Str.rstrip s = String c t').
Proof.
  induction s as [|c s (r & Hs & Hr & Hlast & _)].
  - exists "". split; [done|]. split; [done|]. split; [by intros [|a t] c|done].
  - cbn [Str.rstrip]. destruct (Str.rstrip s) as [|c' s'] eqn:Hrs.
    + change ("" +:+ r) with r in Hs. subst r.
      destruct (Str.isspace c) eqn:Hc.
      * exists (String c s). split; [done|]. split; [by simpl; rewrite Hc|].
        split; [by intros [|a t] c0|]. intros c0 t [= <- <-] Hc0. congruence.
      * exists s. split; [done|]. split; [done|]. split.
        -- intros [|a t] c0; rewrite ?app_cons.
           ++ by intros [= <-].
           ++ intros [= _ Ht]. by destruct t.
        -- intros c0 t [= <- <-] _. eauto.
    + exists r. split; [by rewrite app_cons, <- Hs|]. split; [done|]. split.
      * intros [|a t] c0; rewrite ?app_cons; [done|].
        intros [= _ Ht]. by apply (Hlast t).
      * intros c0 t [= <- <-] _. eauto.
Qed.

Lemma strip_spec s :
  exists l r,
    s = l +:+ Str.strip s +:+ r /\
    all_in Str.isspace l = true /\ all_in Str.isspace r = true /\
    (forall c t, Str.strip s = String c t -> Str.isspace c = false) /\
    (forall t c, Str.strip s = t +:+ String c "" -> Str.isspace c = false).
Proof.
  unfold Str.strip. destruct (lstrip_spec s) as (l & Hs & Hl & Hhead).
  destruct (rstrip_spec (Str.lstrip s)) as (r & Hs' & Hr & Hlast & Hkeep).
  exists l, r. split; [by rewrite <- Hs'|]. split; [done|]. split; [done|]. split; [|done].
  intros c t Hstrip. destruct (Str.lstrip s) as [|c0 t0] eqn:Hls; [done|].
  destruct (Hkeep c0 t0 eq_refl (Hhead c0 t0 eq_refl)) as [t' Ht'].
  rewrite Ht' in Hstrip. injection Hstrip as <- _. by apply (Hhead c0 t0).
Qed.

End StrFacts.

(** A text of white space only is trimmed to nothing. *)
Lemma lstrip_blank s : all_in Str.isspace s = true -> Str.lstrip s = "".
Proof.
  induction s as [|c s IH]; [done|]. simpl. destruct (Str.isspace c); [exact IH|done].
Qed.

Lemma strip_blank s : all_in Str.isspace s = true -> Str.strip s = "".
Proof. intros H. unfold Str.strip. by rewrite lstrip_blank. Qed.

(** ** Query Parser *)

(** C2, as stated, fails: every occurrence of the separator cuts the query,
    so the location ends at the second occurrence, and both fields are
    trimmed. *)
Lemma parse_query_differs_from_spec :
  parse_query "stores in york in uk" = ("stores", "york") /\
  parse_query_spec "stores in york in uk" = ("stores", "york in uk") /\
  parse_query "shops  in york" = ("shops", "york") /\
  parse_query_spec "shops  in york" = ("shops ", "york") /\
  ~ (forall query, parse_query query = parse_query_spec query).
Proof.
  repeat split; try reflexivity.
  intros H. specialize (H "stores in york in uk"). vm_compute in H. discriminate H.
Qed.

(** C2, amended: the category is the trimmed text before the first
    occurrence of the separator (the trimmed query when there is none); the
    location is empty when the separator is absent, and the trimmed text
    after the separator when it occurs once. *)
Theorem parse_query_trimmed (query : string) :
  (Str.find " in " query = None -> parse_query query = (Str.strip query, "")) /\
  (forall i, Str.find " in " query = Some i ->
     (parse_query query).1 = Str.strip (Str.take i query) /\
     (Str.find " in " (Str.drop (i + 4) query) = None ->
      (parse_query query).2 = Str.strip (Str.drop (i + 4) query))).
Proof.
  unfold parse_query. rewrite (StrFacts.split_find " in " query) by done. split.
  - intros ->. reflexivity.
  - intros i ->. cbn [fmap list_fmap fst snd]. split; [reflexivity|].
    intros Hrest. change (String.length " in ") with 4%nat.
    rewrite (StrFacts.split_find " in " (Str.drop (i + 4) query)) by done.
    rewrite Hrest. reflexivity.
Qed.

Lemma parse_query_trimmed_witness :
  parse_query "bookstores" = ("bookstores", "") /\
  (parse_query "restaurants in Paris").1 = "restaurants" /\
  (parse_query "restaurants in Paris").2 = "Paris".
Proof.
  split; [|split].
  - exact (proj1 (parse_query_trimmed "bookstores") eq_refl).
  - exact (proj1 (proj2 (parse_query_trimmed "restaurants in Paris") 11%nat eq_refl)).
  - exact (proj2 (proj2 (parse_query_trimmed "restaurants in Paris") 11%nat eq_refl) eq_refl).
Defined.

(** What the code does with a further separator: the location ends
    there, and the text after it is dropped. *)
Lemma parse_query_second_separator (query : string) (i j : nat) :
  Str.find " in " query = Some i ->
  Str.find " in " (Str.drop (i + 4) query) = Some j ->
  (parse_query query).2 = Str.strip (Str.take j (Str.drop (i + 4) query)).
Proof.
  intros Hi Hj. unfold parse_query. rewrite (StrFacts.split_find " in " query) by done.
  rewrite Hi. change (String.length " in ") with 4%nat.
  rewrite (StrFacts.split_find " in " (Str.drop (i + 4) query)) by done.
  by rewrite Hj.
Qed.

(** ** Identity and Deduplicator *)

Section DeduplicatorFacts.

Variable py_hash : list string -> Z.

Abbreviation hash_of := (Business_hash py_hash).
Abbreviation add := (add_business py_hash).
Abbreviation consistent := (consistent py_hash).

Lemma add_business_fresh self b :
  hash_of b ∉ _seen_businesses self ->
  add self b = mkBusinessList (business_list self ++ [b])
                              (_seen_businesses self ∪ {[hash_of b]}).
Proof. intros H. unfold add_business. by rewrite decide_False. Qed.

Lemma add_business_seen self b :
  hash_of b ∈ _seen_businesses self -> add self b = self.
Proof. intros H. unfold add_business. by rewrite decide_True. Qed.

Lemma consistent_new : consistent BusinessList_new.
Proof. split; [set_solver | constructor]. Qed.

Lemma consistent_add self b : consistent self -> consistent (add self b).
Proof.
  intros [Hseen Hnodup].
  destruct (decide (hash_of b ∈ _seen_businesses self)) as [Hin|Hin].
  - by rewrite add_business_seen.
  - rewrite add_business_fresh by done. split; simpl.
    + intros h. rewrite fmap_app, elem_of_app, elem_of_union, Hseen. set_solver.
    + rewrite fmap_app. apply NoDup_app. split; [done|]. split.
      * intros h Hh. rewrite <- Hseen in Hh. set_solver.
      * apply NoDup_singleton.
Qed.

Lemma consistent_add_all self bs : consistent self -> consistent (add_all py_hash self bs).
Proof.
  revert self. induction bs as [|b bs IH]; intros self H; [done|].
  apply IH, consistent_add, H.
Qed.

(** Records with distinct hashes have distinct keys, so a list without a
    repeated hash is a list without a repeated Identity Key. *)
Lemma consistent_keys self : consistent self -> NoDup (hash_fields <$> business_list self).
Proof.
  intros [_ H]. unfold Business_hash in H.
  rewrite (list_fmap_compose hash_fields py_hash) in H.
  by apply NoDup_fmap_1 in H.
Qed.

(** The list only grows at its end, and the set only grows. *)
Lemma add_business_prefix self b : business_list self `prefix_of` business_list (add self b).
Proof.
  unfold add_business. case_decide; [done|]. simpl. by apply prefix_app_r.
Qed.

Lemma add_business_seen_mono self b : _seen_businesses self ⊆ _seen_businesses (add self b).
Proof. unfold add_business. case_decide; simpl; set_solver. Qed.

Lemma add_business_marks self b : hash_of b ∈ _seen_businesses (add self b).
Proof. unfold add_business. case_decide; simpl; set_solver. Qed.

(** Two records in a row, from the empty list. *)
Lemma add_two_same_hash b1 b2 :
  hash_of b1 = hash_of b2 ->
  business_list (add_all py_hash BusinessList_new [b1; b2]) = [b1].
Proof.
  intros Heq. simpl. rewrite (add_business_fresh BusinessList_new b1) by set_solver.
  rewrite add_business_seen; [done|]. simpl. rewrite Heq. set_solver.
Qed.

Lemma add_two_distinct_hash b1 b2 :
  hash_of b1 <> hash_of b2 ->
  business_list (add_all py_hash BusinessList_new [b1; b2]) = [b1; b2].
Proof.
  intros Hne. simpl. rewrite (add_business_fresh BusinessList_new b1) by set_solver.
  rewrite add_business_fresh; [done|]. simpl. set_solver.
Qed.

End DeduplicatorFacts.

Lemma tagged_cons tag s : s <> "" -> tagged tag (Some s) = [tag +:+ s].
Proof. by destruct s. Qed.

(** C1, as stated, fails: two records with the same name and domain that
    differ in every other field differ in website and phone number, which are
    part of the Identity Key, and both are retained. *)
Lemma same_name_domain_both_kept :
  name acme_first = name acme_second /\
  domain acme_first = domain acme_second /\
  address acme_first <> address acme_second /\
  website acme_first <> website acme_second /\
  phone_number acme_first <> phone_number acme_second /\
  email acme_first <> email acme_second /\
  category acme_first <> category acme_second /\
  location acme_first <> location acme_second /\
  hash_fields acme_first <> hash_fields acme_second /\
  (forall py_hash : list string -> Z,
     py_hash (hash_fields acme_first) <> py_hash (hash_fields acme_second) ->
     business_list (add_all py_hash BusinessList_new [acme_first; acme_second])
       = [acme_first; acme_second]) /\
  length (business_list (add_all fnv_hash BusinessList_new [acme_first; acme_second])) = 2%nat.
Proof.
  do 9 (split; [done|]). split.
  - intros py_hash H. by apply add_two_distinct_hash.
  - vm_compute. reflexivity.
Qed.

(** C1, amended: two records with identical name, domain, website and phone
    number, whatever their other fields, leave a result sequence of length 1
    when added in sequence, and the record retained is the first one. *)
Theorem same_identity_first_kept (py_hash : list string -> Z) (b1 b2 : Business) :
  name b1 = name b2 -> domain b1 = domain b2 ->
  website b1 = website b2 -> phone_number b1 = phone_number b2 ->
  business_list (add_all py_hash BusinessList_new [b1; b2]) = [b1] /\
  length (business_list (add_all py_hash BusinessList_new [b1; b2])) = 1%nat.
Proof.
  intros Hn Hd Hw Hp.
  assert (business_list (add_all py_hash BusinessList_new [b1; b2]) = [b1]) as ->; [|done].
  apply add_two_same_hash. unfold Business_hash, hash_fields.
  by rewrite Hn, Hd, Hw, Hp.
Qed.

Lemma same_identity_first_kept_witness :
  business_list
    (add_all fnv_hash BusinessList_new
       [acme_first;
        mkBusiness (name acme_first) (Some "2 High St") (domain acme_first)
          (website acme_first) (phone_number acme_first) (Some "info@acme.com")
          (Some "cafes") (Some "leeds")])
  = [acme_first].
Proof.
  exact (proj1 (same_identity_first_kept fnv_hash acme_first _ eq_refl eq_refl eq_refl eq_refl)).
Defined.

(** ** The monad *)

Section MonadFacts.

Context {World : Type}.
Abbreviation M := (M World).

Lemma bind_ok {A B} (m : M A) (k : A -> M B) st a st1 :
  m st = (Ok a, st1) -> bind m k st = k a st1.
Proof. intros H. unfold bind. by rewrite H. Qed.

Lemma bind_raise {A B} (m : M A) (k : A -> M B) st e st1 :
  m st = (Raise e, st1) -> bind m k st = (Raise e, st1).
Proof. intros H. unfold bind. by rewrite H. Qed.

Lemma bind_ok_inv {A B} (m : M A) (k : A -> M B) st b st' :
  bind m k st = (Ok b, st') ->
  exists a st1, m st = (Ok a, st1) /\ k a st1 = (Ok b, st').
Proof.
  unfold bind. destruct (m st) as [[a|e] st1]; [|done]. intros H. by exists a, st1.
Qed.

Lemma silent_fileless {A} (m : M A) : silent m -> fileless m.
Proof. intros H st. apply H. Qed.

Lemma silent_ret {A} (a : A) : silent (ret a : M A).
Proof. done. Qed.

Lemma silent_raise {A} e : silent (raise e : M A).
Proof. done. Qed.

Lemma silent_call {A} (op : prim A) : silent (call op : M A).
Proof. intros st. unfold call. by destruct (op (world st)). Qed.

Lemma silent_bind {A B} (m : M A) (k : A -> M B) :
  silent m -> (forall a, silent (k a)) -> silent (bind m k).
Proof.
  intros Hm Hk st. unfold bind. specialize (Hm st).
  destruct (m st) as [[a|e] st1]; simpl in *; [|done].
  destruct (Hk a st1) as [-> ->]. done.
Qed.

Lemma silent_try_except {A} (m : M A) (h : exn -> M A) :
  silent m -> (forall e, silent (h e)) -> silent (try_except m h).
Proof.
  intros Hm Hh st. unfold try_except. specialize (Hm st).
  destruct (m st) as [[a|e] st1]; simpl in *; [done|].
  destruct (Hh e st1) as [-> ->]. done.
Qed.

Lemma silent_try_finally {A} (m : M A) (c : M unit) :
  silent m -> silent c -> silent (try_finally m c).
Proof.
  intros Hm Hc st. unfold try_finally. specialize (Hm st).
  destruct (m st) as [r st1]. specialize (Hc st1).
  destruct (c st1) as [[[]|e] st2]; simpl in *; destruct Hc as [-> ->]; done.
Qed.

End MonadFacts.

(** ** Field Extractor *)

Section FieldExtractorFacts.

Context {World Browser BrowserContext Page Locator : Type}.
Variable pw : Playwright World Browser BrowserContext Page Locator.

Lemma silent_sleep lo hi : silent (sleep pw lo hi).
Proof. done. Qed.

(** [_safe_text], case by case on what the two calls into the page do. *)
Lemma safe_text_cases page sl st :
  _safe_text pw page sl st =
    match locator_count pw (resolve pw page sl) (world st) with
    | (Raise _, w1) => (Ok "", set_world st w1)
    | (Ok O, w1) => (Ok "", set_world st w1)
    | (Ok (S _), w1) =>
        match locator_inner_text pw (locator_first pw (resolve pw page sl)) w1 with
        | (Ok text, w2) => (Ok (Str.strip text), set_world st w2)
        | (Raise _, w2) => (Ok "", set_world st w2)
        end
    end.
Proof.
  unfold _safe_text, bind, try_except, call, ret. cbn [world].
  destruct (locator_count pw _ (world st)) as [[[|n]|e] w1]; cbn; try done.
  destruct (locator_inner_text pw _ w1) as [[text|e] w2]; done.
Qed.

Lemma silent_safe_text page sl : silent (_safe_text pw page sl).
Proof.
  intros st. rewrite safe_text_cases.
  destruct (locator_count pw _ (world st)) as [[[|n]|e] w1]; try done.
  destruct (locator_inner_text pw _ w1) as [[text|e] w2]; done.
Qed.

(** C4, amended: the Field Extractor never raises. It returns the trimmed
    text of the first matching element when the locator matches and the text
    can be read, whatever that text is and whatever the later matches hold:
    for a first match of white space only it returns the empty string. It
    returns the empty string when no element matches, when counting the
    matches fails and when reading the text fails. The trimmed text is the
    text without the white space at its two ends. *)
Theorem safe_text_never_raises (page : Page) (sl : string + Locator) (st : State World) :
  (exists text st', _safe_text pw page sl st = (Ok text, st')) /\
  (forall n w1 text w2,
     locator_count pw (resolve pw page sl) (world st) = (Ok (S n), w1) ->
     locator_inner_text pw (locator_first pw (resolve pw page sl)) w1 = (Ok text, w2) ->
     _safe_text pw page sl st = (Ok (Str.strip text), set_world st w2)) /\
  (forall w1,
     locator_count pw (resolve pw page sl) (world st) = (Ok 0%nat, w1) ->
     _safe_text pw page sl st = (Ok "", set_world st w1)) /\
  (forall e w1,
     locator_count pw (resolve pw page sl) (world st) = (Raise e, w1) ->
     _safe_text pw page sl st = (Ok "", set_world st w1)) /\
  (forall n w1 e w2,
     locator_count pw (resolve pw page sl) (world st) = (Ok (S n), w1) ->
     locator_inner_text pw (locator_first pw (resolve pw page sl)) w1 = (Raise e, w2) ->
     _safe_text pw page sl st = (Ok "", set_world st w2)) /\
  (forall text,
     exists l r,
       text = l +:+ Str.strip text +:+ r /\
       all_in Str.isspace l = true /\ all_in Str.isspace r = true /\
       (forall c t, Str.strip text = String c t -> Str.isspace c = false) /\
       (forall t c, Str.strip text = t +:+ String c "" -> Str.isspace c = false)) /\
  (forall n w1 text w2,
     locator_count pw (resolve pw page sl) (world st) = (Ok (S n), w1) ->
     locator_inner_text pw (locator_first pw (resolve pw page sl)) w1 = (Ok text, w2) ->
     all_in Str.isspace text = true ->
     _safe_text pw page sl st = (Ok "", set_world st w2)).
Proof.
  rewrite safe_text_cases. split; [|split; [|split; [|split; [|split; [|split]]]]].
  - destruct (locator_count pw _ (world st)) as [[[|n]|e] w1]; eauto.
    destruct (locator_inner_text pw _ w1) as [[text|e] w2]; eauto.
  - intros n w1 text w2 -> ->. done.
  - intros w1 ->. done.
  - intros e w1 ->. done.
  - intros n w1 e w2 -> ->. done.
  - exact StrFacts.strip_spec.
  - intros n w1 text w2 -> -> Hblank. by rewrite strip_blank.
Qed.

End FieldExtractorFacts.

Lemma safe_text_never_raises_witness :
  _safe_text Sim.playwright 0%nat (inl name_sel_primary) (Sim.start acme_page)
    = (Ok "Acme Co", Sim.start acme_page) /\
  _safe_text Sim.playwright 0%nat (inl address_xpath) (Sim.start acme_page)
    = (Ok "", Sim.start acme_page) /\
  _safe_text Sim.playwright 0%nat (inr (Sim.Anchor 1)) (Sim.start acme_page)
    = (Ok "", Sim.start acme_page) /\
  _safe_text Sim.playwright 0%nat (inl name_sel_primary) (Sim.start (Sim_with_detached acme_page))
    = (Ok "", Sim.start (Sim_with_detached acme_page)) /\
  _safe_text Dom.playwright tt (inr ["   "; " Acme Co "]) Dom.start = (Ok "", Dom.start).
Proof.
  split; [|split; [|split; [|split]]].
  - exact (proj1 (proj2 (safe_text_never_raises Sim.playwright 0%nat (inl name_sel_primary)
                           (Sim.start acme_page)))
             0%nat acme_page "  Acme Co " acme_page eq_refl eq_refl).
  - exact (proj1 (proj2 (proj2 (safe_text_never_raises Sim.playwright 0%nat (inl address_xpath)
                           (Sim.start acme_page))))
             acme_page eq_refl).
  - exact (proj1 (proj2 (proj2 (proj2 (safe_text_never_raises Sim.playwright 0%nat
                           (inr (Sim.Anchor 1)) (Sim.start acme_page)))))
             (PWError "strict mode violation") acme_page eq_refl).
  - exact (proj1 (proj2 (proj2 (proj2 (proj2 (safe_text_never_raises Sim.playwright 0%nat
                           (inl name_sel_primary) (Sim.start (Sim_with_detached acme_page)))))))
             0%nat (Sim_with_detached acme_page) (PWError "element is not attached to the DOM")
             (Sim_with_detached acme_page) eq_refl eq_refl).
  - exact (proj2 (proj2 (proj2 (proj2 (proj2 (proj2 (safe_text_never_raises Dom.playwright tt
                           (inr ["   "; " Acme Co "]) Dom.start))))))
             1%nat tt "   " tt eq_refl eq_refl eq_refl).
Defined.

(** C4, as stated, fails: the Field Extractor reads the first matching
    element whatever its text. On a locator that matches an element of white
    space only and then an element with the text " Acme Co ", the first
    matching, non-empty element has the trimmed text "Acme Co", and the Field
    Extractor returns the empty string. *)
Lemma blank_first_match_gives_empty :
  _safe_text Dom.playwright tt (inr ["   "; " Acme Co "]) Dom.start = (Ok "", Dom.start) /\
  locator_count Dom.playwright ["   "; " Acme Co "] tt = (Ok 2%nat, tt) /\
  first_nonempty_text ["   "; " Acme Co "] = "Acme Co" /\
  "" <> "Acme Co".
Proof. split; [|split; [|split]]; [vm_compute; reflexivity..|discriminate]. Qed.

(** Goals [silent m] are solved along the structure of [m]. *)
Create HintDb quiet.
#[export] Hint Resolve silent_ret silent_raise silent_call silent_sleep silent_safe_text : quiet.

Ltac quiet :=
  repeat first
    [ progress cbv zeta
    | apply silent_bind; [|intros ?]
    | apply silent_try_except; [|intros ?]
    | apply silent_try_finally
    | match goal with
      | |- silent (match ?x with _ => _ end) => destruct x
      end
    | solve [auto with quiet] ].

(** ** Record Extractor: the website field *)

Ltac bind_inv H :=
  let a := fresh "a" in
  let st := fresh "st" in
  let Ha := fresh "Ha" in
  apply bind_ok_inv in H; destruct H as (a & st & Ha & H).

Section RecordExtractorFacts.

Context {World Browser BrowserContext Page Locator : Type}.
Variable pw : Playwright World Browser BrowserContext Page Locator.

(** The domain and website fields of an extracted record are computed from
    one reading of the website locator, and category and location are the
    ones of the query. *)
Lemma extract_business_fields page context cat loc listing st b st' :
  extract_business pw page context cat loc listing st = (Ok b, st') ->
  exists website_text st1 st2,
    _safe_text pw page (inl website_xpath) st1 = (Ok website_text, st2) /\
    domain b = match website_text with "" => None | _ => Some website_text end /\
    website b = Some (match website_text with
                      | "" => ""
                      | _ => website_of_text website_text
                      end) /\
    category b = Some cat /\ location b = Some loc.
Proof.
  intros H. unfold extract_business in H.
  do 5 bind_inv H. bind_inv H. rename a4 into website_text. do 2 bind_inv H.
  injection H as <- <-. exists website_text. do 2 eexists. split; [eassumption|].
  simpl. by destruct website_text.
Qed.

End RecordExtractorFacts.

Lemma website_of_text_http text :
  Str.startswith "http" text = true -> website_of_text text = text.
Proof. intros H. unfold website_of_text. by rewrite H. Qed.

Lemma website_of_text_bare text :
  Str.startswith "http" text = false -> website_of_text text = "https://www." +:+ text.
Proof. intros H. unfold website_of_text. by rewrite H. Qed.

Lemma website_of_text_starts_http text :
  Str.startswith "http" (website_of_text text) = true.
Proof. unfold website_of_text. by destruct (Str.startswith "http" text) eqn:H. Qed.

Lemma website_of_text_nonempty text : text <> "" -> website_of_text text <> "".
Proof. unfold website_of_text. by destruct (Str.startswith "http" text), text. Qed.

(** C6, as stated, fails: a website text that starts with the letters
    [http] without being a URL, such as the host name [httpbin.org], is
    stored unchanged, and the website field is then not an absolute URL. *)
Lemma bare_http_host_stored_unchanged :
  (exists b st',
     extract_business Sim.playwright 0%nat tt "tools" "web"
       (Sim.Sub (Sim.Anchor 1) "xpath=..") (Sim.start httpbin_page) = (Ok b, st') /\
     website b = Some "httpbin.org") /\
  website_of_text "httpbin.org" = "httpbin.org" /\
  "httpbin.org" <> "" /\
  is_absolute_url "httpbin.org" = false.
Proof.
  split; [|done]. do 2 eexists. split; [vm_compute; reflexivity|]. reflexivity.
Qed.

(** C6, amended: for every non-empty website text that the Record Extractor
    reads, the website field is the text unchanged when it starts with
    [http], and the text prefixed with [https://www.] otherwise; the website
    field is empty when the text is. A non-empty website field starts with
    [http], and it is an absolute URL when the text did not start with
    [http] or was an absolute URL itself. *)
Theorem website_field_normalized
    {World Browser BrowserContext Page Locator : Type}
    (pw : Playwright World Browser BrowserContext Page Locator)
    (page : Page) (context : BrowserContext) (cat loc : string) (listing : Locator)
    (st st' : State World) (b : Business) :
  extract_business pw page context cat loc listing st = (Ok b, st') ->
  exists website_text w,
    (exists st1 st2, _safe_text pw page (inl website_xpath) st1 = (Ok website_text, st2)) /\
    website b = Some w /\
    (website_text = "" -> w = "") /\
    (website_text <> "" ->
       (Str.startswith "http" website_text = true -> w = website_text) /\
       (Str.startswith "http" website_text = false -> w = "https://www." +:+ website_text) /\
       w <> "" /\
       Str.startswith "http" w = true /\
       (Str.startswith "http" website_text = false \/ is_absolute_url website_text = true ->
        is_absolute_url w = true)).
Proof.
  intros H. apply extract_business_fields in H as (text & st1 & st2 & Htext & _ & Hw & _).
  exists text. eexists. split; [eauto|]. split; [exact Hw|]. split.
  - by intros ->.
  - intros Hne. destruct text as [|c text]; [done|].
    split; [apply website_of_text_http|]. split; [apply website_of_text_bare|].
    split; [by apply website_of_text_nonempty|]. split; [apply website_of_text_starts_http|].
    unfold website_of_text. destruct (Str.startswith "http" (String c text)); [|done].
    by intros [|].
Qed.

Lemma website_field_normalized_witness :
  exists website_text w,
    (exists st1 st2,
       _safe_text Sim.playwright 0%nat (inl website_xpath) st1 = (Ok website_text, st2)) /\
    website acme_extracted = Some w /\
    (website_text = "" -> w = "") /\
    (website_text <> "" ->
       (Str.startswith "http" website_text = true -> w = website_text) /\
       (Str.startswith "http" website_text = false -> w = "https://www." +:+ website_text) /\
       w <> "" /\
       Str.startswith "http" w = true /\
       (Str.startswith "http" website_text = false \/ is_absolute_url website_text = true ->
        is_absolute_url w = true)).
Proof.
  apply (website_field_normalized Sim.playwright 0%nat tt "shops" "york"
           (Sim.Sub (Sim.Anchor 1) "xpath=..")
           (Sim.start (Sim.mkSim [] [Some (Sim.mkDetail "Acme" "acme.com" "0113 496 0001")]
                         None "Contact us at sales@acme.com" true true false false))
           (Sim.start (Sim.mkSim [] [Some (Sim.mkDetail "Acme" "acme.com" "0113 496 0001")]
                         (Some (Sim.mkDetail "Acme" "acme.com" "0113 496 0001"))
                         "Contact us at sales@acme.com" true true false false))).
  vm_compute. reflexivity.
Defined.

(** ** Listing Discovery Loop and Pipeline Orchestrator *)

Section OrchestratorFacts.

Context {World Browser BrowserContext Page Locator : Type}.
Variable pw : Playwright World Browser BrowserContext Page Locator.
Variable py_hash : list string -> Z.
Variable today : string.

Lemma silent_scrape_email context url : silent (scrape_email_from_website pw context url).
Proof. unfold scrape_email_from_website, read_email. quiet. Qed.

Lemma silent_extract_business page context cat loc listing :
  silent (extract_business pw page context cat loc listing).
Proof. unfold extract_business. quiet; apply silent_scrape_email. Qed.

Lemma silent_scroll_and_count page : silent (scroll_and_count pw page).
Proof. unfold scroll_and_count. quiet. Qed.

Lemma silent_scroll_loop page total remaining done prev :
  silent (scroll_loop pw page total remaining done prev).
Proof.
  revert done prev. induction remaining as [|remaining IH]; intros done prev; cbn [scroll_loop].
  - quiet.
  - apply silent_bind; [apply silent_scroll_and_count|]. intros n.
    destruct (total <=? Z.of_nat n); [quiet|]. destruct (n =? prev)%nat; [quiet|]. apply IH.
Qed.

Lemma silent_open_and_search query headless : silent (open_and_search pw query headless).
Proof. unfold open_and_search. quiet. Qed.

(** One iteration of the scroll loop whose count could be taken. *)
Lemma scroll_loop_step page total remaining done prev st n st1 :
  scroll_and_count pw page st = (Ok n, st1) ->
  scroll_loop pw page total (S remaining) done prev st =
    if total <=? Z.of_nat n then (Ok (ReachedTotal, S done), st1)
    else if (n =? prev)%nat then (Ok (Stalled, S done), st1)
    else scroll_loop pw page total remaining (S done) n st1.
Proof.
  intros H. cbn [scroll_loop]. rewrite (bind_ok _ _ _ _ _ H).
  destruct (total <=? Z.of_nat n); [done|]. by destruct (n =? prev)%nat.
Qed.

(** What happens after the scroll loop when the snapshot is empty. *)
Lemma collect_nothing query total filetype cat loc browser context page st how st1 w2 :
  scroll_loop pw page total max_scroll_loops 0 0 st = (Ok how, st1) ->
  locator_all pw (page_locator pw page anchor_xpath) (world st1) = (Ok [], w2) ->
  collect_and_export pw py_hash today query total filetype cat loc browser context page st =
    match browser_close pw browser w2 with
    | (Ok _, w3) => (Raise (RuntimeError no_listings_msg), set_world st1 w3)
    | (Raise e, w3) => (Raise e, set_world st1 w3)
    end.
Proof.
  intros Hloop Hall. unfold collect_and_export.
  rewrite (bind_ok _ _ _ _ _ Hloop).
  unfold bind at 1. unfold call at 1. rewrite Hall.
  unfold bind, call, raise. cbn [world set_world].
  by destruct (browser_close pw browser w2) as [[[]|e] w3].
Qed.

(** The listing loop, one listing at a time. *)
Lemma process_listing_cases page context cat loc idx listing bl st :
  process_listing pw py_hash page context cat loc idx listing bl st =
    match extract_business pw page context cat loc listing st with
    | (Ok b, st1) =>
        (Ok (add_business py_hash bl b),
         set_world st1 (sleep_uniform pw 600 1200 (world st1)))
    | (Raise e, st1) =>
        (Ok bl, mkState (world st1) (stdout st1 ++ [error_line idx e]) (files st1))
    end.
Proof.
  unfold process_listing, try_except, bind.
  by destruct (extract_business pw page context cat loc listing st) as [[b|e] st1].
Qed.

Lemma process_listings_cons page context cat loc idx listing listings bl st :
  process_listings pw py_hash page context cat loc idx (listing :: listings) bl st =
    match process_listing pw py_hash page context cat loc idx listing bl st with
    | (Ok bl1, st1) => process_listings pw py_hash page context cat loc (S idx) listings bl1 st1
    | (Raise e, st1) => (Raise e, st1)
    end.
Proof. reflexivity. Qed.

Lemma process_listing_ok page context cat loc idx listing bl st :
  exists bl1 st1,
    process_listing pw py_hash page context cat loc idx listing bl st = (Ok bl1, st1) /\
    business_list bl `prefix_of` business_list bl1 /\
    _seen_businesses bl ⊆ _seen_businesses bl1 /\
    (consistent py_hash bl -> consistent py_hash bl1) /\
    stdout st `prefix_of` stdout st1 /\
    files st1 = files st.
Proof.
  rewrite process_listing_cases.
  pose proof (silent_extract_business page context cat loc listing st) as [Hout Hfiles].
  destruct (extract_business pw page context cat loc listing st) as [[b|e] st1];
    simpl in Hout, Hfiles; do 2 eexists; (split; [reflexivity|]); simpl.
  - split; [apply add_business_prefix|]. split; [apply add_business_seen_mono|].
    split; [apply consistent_add|]. by rewrite Hout, Hfiles.
  - rewrite Hout, Hfiles. do 3 (split; [done|]). split; [by apply prefix_app_r|done].
Qed.

Lemma process_listings_ok page context cat loc idx listings bl st :
  exists bl' st',
    process_listings pw py_hash page context cat loc idx listings bl st = (Ok bl', st') /\
    business_list bl `prefix_of` business_list bl' /\
    _seen_businesses bl ⊆ _seen_businesses bl' /\
    (consistent py_hash bl -> consistent py_hash bl') /\
    stdout st `prefix_of` stdout st' /\
    files st' = files st.
Proof.
  revert idx bl st. induction listings as [|listing listings IH]; intros idx bl st.
  - exists bl, st. done.
  - rewrite process_listings_cons.
    destruct (process_listing_ok page context cat loc idx listing bl st)
      as (bl1 & st1 & -> & Hl1 & Hs1 & Hc1 & Ho1 & Hf1).
    destruct (IH (S idx) bl1 st1) as (bl' & st' & -> & Hl & Hs & Hc & Ho & Hf).
    exists bl', st'. split; [done|]. split; [by etrans|]. split; [by etrans|].
    split; [auto|]. split; [by etrans|]. congruence.
Qed.

Lemma process_listings_app page context cat loc idx pre post bl st :
  process_listings pw py_hash page context cat loc idx (pre ++ post) bl st =
    match process_listings pw py_hash page context cat loc idx pre bl st with
    | (Ok bl1, st1) =>
        process_listings pw py_hash page context cat loc (idx + length pre) post bl1 st1
    | (Raise e, st1) => (Raise e, st1)
    end.
Proof.
  revert idx bl st. induction pre as [|listing pre IH]; intros idx bl st.
  - simpl. by rewrite Nat.add_0_r.
  - rewrite <- app_comm_cons, !process_listings_cons.
    destruct (process_listing pw py_hash page context cat loc idx listing bl st)
      as [[bl1|e] st1]; [|done].
    rewrite IH. simpl. by rewrite Nat.add_succ_r.
Qed.

End OrchestratorFacts.

Section OrchestratorProperties.

Context {World Browser BrowserContext Page Locator : Type}.
Variable pw : Playwright World Browser BrowserContext Page Locator.
Variable py_hash : list string -> Z.
Variable today : string.

(** C3, amended: when the anchor counter returns 5, 12, 20 and 20 on the
    successive iterations and the requested total exceeds 20, the scroll
    loop halts at the fourth iteration, by the stall check, far from the cap
    of 50 iterations; the 20 anchors of the snapshot give 20 listings. *)
Theorem scroll_loop_stalls_at_fourth_iteration
    (page : Page) (total : Z) (st0 st1 st2 st3 st4 : State World) :
  20 < total ->
  scroll_and_count pw page st0 = (Ok 5%nat, st1) ->
  scroll_and_count pw page st1 = (Ok 12%nat, st2) ->
  scroll_and_count pw page st2 = (Ok 20%nat, st3) ->
  scroll_and_count pw page st3 = (Ok 20%nat, st4) ->
  scroll_loop pw page total max_scroll_loops 0 0 st0 = (Ok (Stalled, 4%nat), st4) /\
  (4 < max_scroll_loops)%nat /\
  (forall anchors,
     length anchors = 20%nat ->
     length (slice_to total ((fun a => locator_locator pw a "xpath=..") <$> anchors)) = 20%nat).
Proof.
  intros Htotal H1 H2 H3 H4. split; [|split].
  - unfold max_scroll_loops.
    rewrite (scroll_loop_step _ _ _ _ _ _ _ _ _ H1).
    destruct (Z.leb_spec total (Z.of_nat 5)); [lia|]. cbn [Nat.eqb].
    rewrite (scroll_loop_step _ _ _ _ _ _ _ _ _ H2).
    destruct (Z.leb_spec total (Z.of_nat 12)); [lia|]. cbn [Nat.eqb].
    rewrite (scroll_loop_step _ _ _ _ _ _ _ _ _ H3).
    destruct (Z.leb_spec total (Z.of_nat 20)); [lia|]. cbn [Nat.eqb].
    rewrite (scroll_loop_step _ _ _ _ _ _ _ _ _ H4).
    destruct (Z.leb_spec total (Z.of_nat 20)); [lia|]. rewrite Nat.eqb_refl. done.
  - unfold max_scroll_loops. lia.
  - intros anchors Hlen. unfold slice_to.
    destruct (Z.leb_spec 0 total); [|lia].
    rewrite length_take, length_fmap. lia.
Qed.

(** C8, amended: when the snapshot taken after the scroll loop has no
    anchor, the pipeline ends with an error that reaches the caller, and it
    has printed nothing and started no output file; the error is the fatal
    "no listings found" error when closing the browser and leaving the
    browser session succeed. It is not the only error that reaches the
    caller: an error raised while the browser is opened and the search is
    submitted does so too. *)
Theorem no_listings_is_fatal
    (query : string) (total : Z) (headless : bool) (filetype : string) (st : State World) :
  (forall st_in browser context page st_open how st_loop w_all,
     call (sync_playwright_enter pw) st = (Ok tt, st_in) ->
     open_and_search pw query headless st_in = (Ok (browser, context, page), st_open) ->
     scroll_loop pw page total max_scroll_loops 0 0 st_open = (Ok how, st_loop) ->
     locator_all pw (page_locator pw page anchor_xpath) (world st_loop) = (Ok [], w_all) ->
     exists e st',
       scrape_businesses_core pw py_hash today query total headless filetype st
         = (Raise e, st') /\
       files st' = files st /\
       stdout st' = stdout st /\
       (forall w_closed w_exit,
          browser_close pw browser w_all = (Ok tt, w_closed) ->
          sync_playwright_exit pw w_closed = (Ok tt, w_exit) ->
          e = RuntimeError no_listings_msg)) /\
  (forall st_in e st_fail w_exit,
     call (sync_playwright_enter pw) st = (Ok tt, st_in) ->
     open_and_search pw query headless st_in = (Raise e, st_fail) ->
     sync_playwright_exit pw (world st_fail) = (Ok tt, w_exit) ->
     scrape_businesses_core pw py_hash today query total headless filetype st
       = (Raise e, set_world st_fail w_exit)).
Proof.
  split.
  - intros st_in browser context page st_open how st_loop w_all Henter Hopen Hloop Hall.
    pose proof (silent_call (sync_playwright_enter pw) st) as [Ho1 Hf1].
    pose proof (silent_open_and_search pw query headless st_in) as [Ho2 Hf2].
    pose proof (silent_scroll_loop pw page total max_scroll_loops 0 0 st_open) as [Ho3 Hf3].
    rewrite Henter in Ho1, Hf1. rewrite Hopen in Ho2, Hf2. rewrite Hloop in Ho3, Hf3.
    simpl in *.
    unfold scrape_businesses_core. rewrite (bind_ok _ _ _ _ _ Henter).
    unfold try_finally. rewrite (bind_ok _ _ _ _ _ Hopen).
    rewrite (collect_nothing _ _ _ _ _ _ _ _ _ _ _ _ _ _ _ Hloop Hall).
    unfold call.
    destruct (browser_close pw browser w_all) as [[[]|e1] w3] eqn:Hclose;
      cbn [world set_world];
      destruct (sync_playwright_exit pw w3) as [[[]|e2] w4] eqn:Hexit;
      do 2 eexists; (split; [reflexivity|]); cbn [stdout files set_world];
      (split; [congruence|]); (split; [congruence|]);
      intros w_closed w_exit [= <-]; congruence.
  - intros st_in e st_fail w_exit Henter Hopen Hexit.
    unfold scrape_businesses_core. rewrite (bind_ok _ _ _ _ _ Henter).
    unfold try_finally. rewrite (bind_raise _ _ _ _ _ Hopen).
    unfold call. by rewrite Hexit.
Qed.

(** C9: the listing loop never raises. Whatever happened on the listings
    before it, an exception raised while a listing is activated or
    extracted is printed with the ordinal index of the listing, as the line
    "[", the index in decimal digits, "] Error: " and the text of the
    exception, and the loop goes on with the next listing exactly as it does
    after a listing that was extracted; the record of every listing that is
    extracted is handed to the Deduplicator, so a record with its hash is in
    the result. *)
Theorem listing_failures_are_isolated
    (page : Page) (context : BrowserContext) (cat loc : string)
    (pre post : list Locator) (listing : Locator) (st : State World) :
  exists bl1 st1 bl' st',
    process_listings pw py_hash page context cat loc 1 pre BusinessList_new st
      = (Ok bl1, st1) /\
    process_listings pw py_hash page context cat loc 1 (pre ++ listing :: post)
      BusinessList_new st = (Ok bl', st') /\
    match extract_business pw page context cat loc listing st1 with
    | (Raise e, st2) =>
        process_listings pw py_hash page context cat loc 1 (pre ++ listing :: post)
          BusinessList_new st
        = process_listings pw py_hash page context cat loc (length pre + 2) post bl1
            (mkState (world st2)
               (stdout st2 ++ ["[" +:+ pretty (length pre + 1)%nat +:+ "] Error: " +:+ exn_str e])
               (files st2))
        /\ "[" +:+ pretty (length pre + 1)%nat +:+ "] Error: " +:+ exn_str e ∈ stdout st'
    | (Ok b, st2) =>
        process_listings pw py_hash page context cat loc 1 (pre ++ listing :: post)
          BusinessList_new st
        = process_listings pw py_hash page context cat loc (length pre + 2) post
            (add_business py_hash bl1 b)
            (set_world st2 (sleep_uniform pw 600 1200 (world st2)))
        /\ exists b', b' ∈ business_list bl' /\
                      Business_hash py_hash b' = Business_hash py_hash b
    end.
Proof.
  destruct (process_listings_ok pw py_hash page context cat loc 1 pre BusinessList_new st)
    as (bl1 & st1 & Hpre & _ & _ & Hc1 & _ & _).
  destruct (process_listings_ok pw py_hash page context cat loc 1 (pre ++ listing :: post)
              BusinessList_new st) as (bl' & st' & Hall & _ & _ & Hc' & _ & _).
  exists bl1, st1, bl', st'. split; [exact Hpre|]. split; [exact Hall|].
  specialize (Hc1 (consistent_new py_hash)). specialize (Hc' (consistent_new py_hash)).
  assert (process_listings pw py_hash page context cat loc 1 (pre ++ listing :: post)
            BusinessList_new st
          = match process_listing pw py_hash page context cat loc (length pre + 1) listing
                    bl1 st1 with
            | (Ok bl2, st2) =>
                process_listings pw py_hash page context cat loc (length pre + 2) post bl2 st2
            | (Raise e, st2) => (Raise e, st2)
            end) as Hsplit.
  { rewrite process_listings_app, Hpre, process_listings_cons.
    replace (1 + length pre)%nat with (length pre + 1)%nat by lia.
    replace (S (length pre + 1)) with (length pre + 2)%nat by lia. done. }
  rewrite process_listing_cases in Hsplit.
  destruct (extract_business pw page context cat loc listing st1) as [[b|e] st2].
  - split; [exact Hsplit|].
    rewrite Hall in Hsplit. symmetry in Hsplit.
    destruct (process_listings_ok pw py_hash page context cat loc (length pre + 2) post
                (add_business py_hash bl1 b)
                (set_world st2 (sleep_uniform pw 600 1200 (world st2))))
      as (bl2 & st3 & Hpost & _ & Hseen & _ & _ & _).
    rewrite Hpost in Hsplit. injection Hsplit as -> ->.
    assert (Business_hash py_hash b ∈ _seen_businesses bl') as Hin.
    { apply Hseen, add_business_marks. }
    apply Hc' in Hin. apply list_elem_of_fmap in Hin as (b' & Heq & Hb'). eauto.
  - split; [exact Hsplit|].
    rewrite Hall in Hsplit. symmetry in Hsplit.
    destruct (process_listings_ok pw py_hash page context cat loc (length pre + 2) post bl1
                (mkState (world st2) (stdout st2 ++ [error_line (length pre + 1) e])
                   (files st2)))
      as (bl2 & st3 & Hpost & _ & _ & _ & Hout & _).
    rewrite Hpost in Hsplit. injection Hsplit as -> ->.
    destruct Hout as [more ->]. simpl. set_solver.
Qed.

End OrchestratorProperties.

(** C3, as stated, fails: with the counts 5, 12, 20, 20 the third iteration
    sees a count that has grown from 12 to 20 and scrolls on; the stall is
    detected by the fourth iteration. *)
Lemma third_iteration_scrolls_on :
  scroll_loop Sim.playwright 0%nat 21 max_scroll_loops 0 0 (Sim.start stalling_page)
    = (Ok (Stalled, 4%nat), Sim.start (Sim.set_counts stalling_page [])) /\
  scroll_loop Sim.playwright 0%nat 21 3 0 0 (Sim.start stalling_page)
    = (Ok (CapReached, 3%nat), Sim.start (Sim.set_counts stalling_page [20%nat])) /\
  (Stalled, 4%nat) <> (Stalled, 3%nat).
Proof. split; [|split]; [vm_compute; reflexivity..|discriminate]. Qed.

Lemma scroll_loop_stalls_at_fourth_iteration_witness :
  scroll_loop Sim.playwright 0%nat 25 max_scroll_loops 0 0 (Sim.start stalling_page)
    = (Ok (Stalled, 4%nat), Sim.start (Sim.set_counts stalling_page [])) /\
  (4 < max_scroll_loops)%nat /\
  (forall anchors,
     length anchors = 20%nat ->
     length (slice_to 25 ((fun a => Sim.Sub a "xpath=..") <$> anchors)) = 20%nat).
Proof.
  apply (scroll_loop_stalls_at_fourth_iteration Sim.playwright 0%nat 25
           (Sim.start stalling_page)
           (Sim.start (Sim.set_counts stalling_page [12; 20; 20]%nat))
           (Sim.start (Sim.set_counts stalling_page [20; 20]%nat))
           (Sim.start (Sim.set_counts stalling_page [20]%nat))
           (Sim.start (Sim.set_counts stalling_page []))); [lia|reflexivity..].
Defined.

(** C8, as stated, fails: the error of a map site that cannot be reached
    crosses the pipeline boundary although listings exist, and so does the
    error of a browser that does not close, in the place of the "no listings
    found" error. *)
Lemma other_errors_reach_the_caller :
  scrape_businesses_core Sim.playwright fnv_hash "2026-11-03" "shops in york" 10 true "CSV"
    (Sim.start offline_page)
    = (Raise (PWTimeoutError "Timeout 60000ms exceeded."), Sim.start offline_page) /\
  Sim.listings offline_page <> [] /\
  scrape_businesses_core Sim.playwright fnv_hash "2026-11-03" "shops in york" 10 true "CSV"
    (Sim.start stuck_empty_page)
    = (Raise (PWError "Browser.close: Connection closed"), Sim.start stuck_empty_page) /\
  PWTimeoutError "Timeout 60000ms exceeded." <> RuntimeError no_listings_msg /\
  PWError "Browser.close: Connection closed" <> RuntimeError no_listings_msg.
Proof.
  split; [vm_compute; reflexivity|]. split; [discriminate|].
  split; [vm_compute; reflexivity|]. split; discriminate.
Qed.

Lemma no_listings_is_fatal_witness :
  (exists e st',
     scrape_businesses_core Sim.playwright fnv_hash "2026-11-03" "shops in york" 10 true "CSV"
       (Sim.start empty_page) = (Raise e, st') /\
     files st' = [] /\ stdout st' = [] /\ e = RuntimeError no_listings_msg) /\
  scrape_businesses_core Sim.playwright fnv_hash "2026-11-03" "shops in york" 10 true "CSV"
    (Sim.start offline_page)
    = (Raise (PWTimeoutError "Timeout 60000ms exceeded."), Sim.start offline_page).
Proof.
  split.
  - destruct (no_listings_is_fatal Sim.playwright fnv_hash "2026-11-03" "shops in york" 10
                true "CSV" (Sim.start empty_page)) as [HA _].
    destruct (HA (Sim.start empty_page) tt tt 0%nat (Sim.start empty_page) (Stalled, 1%nat)
                (Sim.start empty_page) empty_page eq_refl eq_refl eq_refl eq_refl)
      as (e & st' & H1 & H2 & H3 & H4).
    exists e, st'. split; [exact H1|]. split; [exact H2|]. split; [exact H3|].
    exact (H4 empty_page empty_page eq_refl eq_refl).
  - destruct (no_listings_is_fatal Sim.playwright fnv_hash "2026-11-03" "shops in york" 10
                true "CSV" (Sim.start offline_page)) as [_ HB].
    exact (HB (Sim.start offline_page) (PWTimeoutError "Timeout 60000ms exceeded.")
             (Sim.start offline_page) offline_page eq_refl eq_refl eq_refl).
Defined.

(** The listing loop on three listings of which the second cannot be
    clicked. *)
Example second_listing_fails :
  let run :=
    process_listings Sim.playwright fnv_hash 0%nat tt "shops" "york" 1
      [Sim.Sub (Sim.Anchor 1) "xpath=.."; Sim.Sub (Sim.Anchor 2) "xpath=..";
       Sim.Sub (Sim.Anchor 3) "xpath=.."]
      BusinessList_new (Sim.start mixed_page) in
  (exists bl, run.1 = Ok bl /\ (name <$> business_list bl) = [Some "Shop 1"; Some "Shop 3"]) /\
  stdout run.2 = ["[2] Error: element is not attached to the DOM"].
Proof. split; [eexists; split|]; vm_compute; reflexivity. Qed.

(** ** The Identity Key invariant over a run *)

Lemma different_domains_different_keys (b1 b2 : Business) (d1 d2 : string) :
  domain b1 = Some d1 -> domain b2 = Some d2 -> d1 <> "" -> d2 <> "" -> d1 <> d2 ->
  hash_fields b1 <> hash_fields b2.
Proof.
  intros Hd1 Hd2 Hne1 Hne2 Hne. unfold hash_fields.
  rewrite Hd1, Hd2, !tagged_cons by done.
  cbn [app]. intros [= _ Heq _]. apply Hne. exact Heq.
Qed.

Section ExportFacts.

Context {World Browser BrowserContext Page Locator : Type}.
Variable pw : Playwright World Browser BrowserContext Page Locator.
Variable py_hash : list string -> Z.
Variable today : string.

Lemma exports_distinct_fileless {A} (m : M World A) : fileless m -> exports_distinct m.
Proof. intros H st Hst. by rewrite H. Qed.

Lemma exports_distinct_bind {A B} (m : M World A) (k : A -> M World B) :
  exports_distinct m ->
  (forall st a st', m st = (Ok a, st') -> exports_distinct (k a)) ->
  exports_distinct (bind m k).
Proof.
  intros Hm Hk st Hst. unfold bind. specialize (Hm st Hst).
  destruct (m st) as [[a|e] st1] eqn:Hrun; [|done]. by apply (Hk st a st1).
Qed.

Lemma exports_distinct_try_finally {A} (m : M World A) (c : M World unit) :
  exports_distinct m -> exports_distinct c -> exports_distinct (try_finally m c).
Proof.
  intros Hm Hc st Hst. unfold try_finally. specialize (Hm st Hst).
  destruct (m st) as [r st1]. specialize (Hc st1 Hm).
  by destruct (c st1) as [[[]|e] st2].
Qed.

Lemma exports_distinct_started_file path rows :
  NoDup (hash_fields <$> rows) -> exports_distinct (started_file path rows : M World unit).
Proof.
  intros Hrows st Hst. simpl. apply Forall_app. split; [done|]. by apply Forall_singleton.
Qed.

Lemma exports_distinct_save_to_csv bl filename :
  NoDup (hash_fields <$> business_list bl) ->
  exports_distinct (save_to_csv pw today bl filename).
Proof.
  intros Hrows. unfold save_to_csv.
  apply exports_distinct_bind; [by apply exports_distinct_started_file|]. intros _ ? _ _; cbv beta.
  apply exports_distinct_fileless, silent_fileless, silent_bind; [apply silent_call|].
  intros ?. apply silent_ret.
Qed.

Lemma exports_distinct_save_to_excel bl filename :
  NoDup (hash_fields <$> business_list bl) ->
  exports_distinct (save_to_excel pw today bl filename).
Proof.
  intros Hrows. unfold save_to_excel.
  apply exports_distinct_bind; [by apply exports_distinct_started_file|]. intros _ ? _ _; cbv beta.
  apply exports_distinct_fileless, silent_fileless, silent_bind.
  - destruct (business_list bl); apply silent_call.
  - intros ?. apply silent_ret.
Qed.

Lemma fileless_process_listings page context cat loc idx listings bl :
  fileless (process_listings pw py_hash page context cat loc idx listings bl).
Proof.
  intros st.
  destruct (process_listings_ok pw py_hash page context cat loc idx listings bl st)
    as (bl' & st' & -> & _ & _ & _ & _ & Hfiles). done.
Qed.

Lemma exports_distinct_collect query total filetype cat loc browser context page :
  exports_distinct
    (collect_and_export pw py_hash today query total filetype cat loc browser context page).
Proof.
  unfold collect_and_export.
  apply exports_distinct_bind;
    [apply exports_distinct_fileless, silent_fileless, silent_scroll_loop|].
  intros _ ? _ _; cbv beta.
  apply exports_distinct_bind;
    [apply exports_distinct_fileless, silent_fileless, silent_call|]. intros _ anchors _ _.
  destruct anchors as [|anchor anchors].
  - apply exports_distinct_fileless, silent_fileless, silent_bind; [apply silent_call|].
    intros ?. apply silent_raise.
  - apply exports_distinct_bind;
      [apply exports_distinct_fileless, fileless_process_listings|]. intros st bl st' Hrun.
    assert (NoDup (hash_fields <$> business_list bl)) as Hrows.
    { destruct (process_listings_ok pw py_hash page context cat loc 1
                  (slice_to total ((fun a => locator_locator pw a "xpath=..")
                                     <$> anchor :: anchors)) BusinessList_new st)
        as (bl' & st'' & Hrun' & _ & _ & Hc & _ & _).
      rewrite Hrun in Hrun'. injection Hrun' as <- <-.
      apply (consistent_keys py_hash), Hc, consistent_new. }
    apply exports_distinct_bind.
    + destruct (String.eqb _ _);
        [by apply exports_distinct_save_to_csv | by apply exports_distinct_save_to_excel].
    + intros _ ? _ _; cbv beta.
      apply exports_distinct_fileless, silent_fileless, silent_bind; [apply silent_call|].
      intros ?. apply silent_ret.
Qed.

Lemma exports_distinct_scrape query total headless filetype :
  exports_distinct (scrape_businesses_core pw py_hash today query total headless filetype).
Proof.
  unfold scrape_businesses_core.
  apply exports_distinct_bind;
    [apply exports_distinct_fileless, silent_fileless, silent_call|]. intros _ ? _ _; cbv beta.
  apply exports_distinct_try_finally;
    [|apply exports_distinct_fileless, silent_fileless, silent_call].
  apply exports_distinct_bind;
    [apply exports_distinct_fileless, silent_fileless, silent_open_and_search|].
  intros _ [[browser context] page] _ _. apply exports_distinct_collect.
Qed.

(** C5, amended: whatever records are added to the Deduplicator, in whatever
    order, no two records of the result sequence share an Identity Key; so it
    is for the sequence that the listing loop has built after any number of
    listings, and for the rows of every output file of a run. Two records
    with the same name and different non-empty domains have different keys.
    Both are retained, as two entries, when [hash] tells the two keys apart;
    the Deduplicator remembers hash values, not keys, and when the two keys
    have one hash value only the first record is retained. *)
Theorem no_two_records_share_a_key :
  (forall bs : list Business,
     NoDup (hash_fields <$> business_list (add_all py_hash BusinessList_new bs))) /\
  (forall page context cat loc listings st,
     exists bl st',
       process_listings pw py_hash page context cat loc 1 listings BusinessList_new st
         = (Ok bl, st') /\
       NoDup (hash_fields <$> business_list bl)) /\
  (forall query total headless filetype st,
     Forall rows_distinct (files st) ->
     Forall rows_distinct
       (files (scrape_businesses_core pw py_hash today query total headless filetype st).2)) /\
  (forall (b1 b2 : Business) (d1 d2 : string),
     name b1 = name b2 ->
     domain b1 = Some d1 -> domain b2 = Some d2 -> d1 <> "" -> d2 <> "" -> d1 <> d2 ->
     hash_fields b1 <> hash_fields b2 /\
     (py_hash (hash_fields b1) <> py_hash (hash_fields b2) ->
      business_list (add_all py_hash BusinessList_new [b1; b2]) = [b1; b2]) /\
     (py_hash (hash_fields b1) = py_hash (hash_fields b2) ->
      business_list (add_all py_hash BusinessList_new [b1; b2]) = [b1])).
Proof.
  split; [|split; [|split]].
  - intros bs. apply (consistent_keys py_hash), consistent_add_all, consistent_new.
  - intros page context cat loc listings st.
    destruct (process_listings_ok pw py_hash page context cat loc 1 listings
                BusinessList_new st) as (bl & st' & Hrun & _ & _ & Hc & _ & _).
    exists bl, st'. split; [exact Hrun|].
    apply (consistent_keys py_hash), Hc, consistent_new.
  - intros query total headless filetype. apply exports_distinct_scrape.
  - intros b1 b2 d1 d2 Hn Hd1 Hd2 Hne1 Hne2 Hne. split; [|split].
    + by apply (different_domains_different_keys b1 b2 d1 d2).
    + intros Hh. by apply add_two_distinct_hash.
    + intros Hh. by apply add_two_same_hash.
Qed.

End ExportFacts.

Lemma no_two_records_share_a_key_witness :
  Forall rows_distinct
    (files (scrape_businesses_core Sim.playwright fnv_hash "2026-11-03" "shops in york" 10
              true "CSV" (Sim.start mixed_page)).2) /\
  hash_fields acme_first <> hash_fields acme_uk /\
  business_list (add_all fnv_hash BusinessList_new [acme_first; acme_uk]) = [acme_first; acme_uk] /\
  business_list (add_all (fun _ => 0) BusinessList_new [acme_first; acme_uk]) = [acme_first].
Proof.
  destruct (no_two_records_share_a_key Sim.playwright fnv_hash "2026-11-03")
    as (_ & _ & H3 & H4).
  split; [|split; [|split]].
  - apply H3. simpl. constructor.
  - exact (proj1 (H4 acme_first acme_uk "acme.com" "acme.co.uk" eq_refl eq_refl eq_refl
                    ltac:(discriminate) ltac:(discriminate) ltac:(discriminate))).
  - apply (proj1 (proj2 (H4 acme_first acme_uk "acme.com" "acme.co.uk" eq_refl eq_refl eq_refl
                           ltac:(discriminate) ltac:(discriminate) ltac:(discriminate)))).
    vm_compute. discriminate.
  - apply (proj2 (proj2 (proj2 (proj2 (no_two_records_share_a_key Sim.playwright (fun _ => 0)
                                         "2026-11-03")))
                    acme_first acme_uk "acme.com" "acme.co.uk" eq_refl eq_refl eq_refl
                    ltac:(discriminate) ltac:(discriminate) ltac:(discriminate))).
    reflexivity.
Defined.

(** Among the values of a function on a list without repetition, a value
    that occurs twice is the value of two different elements. *)
Lemma repeated_value {A B} `{EqDecision B} (f : A -> B) (l : list A) :
  NoDup l -> ~ NoDup (f <$> l) ->
  exists x y, x ∈ l /\ y ∈ l /\ x <> y /\ f x = f y.
Proof.
  induction l as [|x l IH]; intros Hl Hfl.
  - destruct Hfl. constructor.
  - apply NoDup_cons in Hl as [Hx Hl].
    destruct (decide (f x ∈ f <$> l)) as [Hin|Hnin].
    + apply list_elem_of_fmap in Hin as (y & Heq & Hy).
      exists x, y. split; [by left|]. split; [by right|]. split; [by intros ->|done].
    + destruct IH as (a & b & Ha & Hb & Hab & Heq); [done| |].
      * intros Hnodup. apply Hfl. rewrite fmap_cons. by apply NoDup_cons.
      * exists a, b. split; [by right|]. split; [by right|]. done.
Qed.

(** A hash with values in a bounded range, as the 64-bit [hash] of the
    interpreter, gives one value to the keys of two records of one name and
    two different domains. *)
Lemma bounded_hash_collides (py_hash : list string -> Z) (lo hi : Z) :
  (forall key, lo <= py_hash key < hi) ->
  exists d1 d2,
    d1 <> "" /\ d2 <> "" /\ d1 <> d2 /\
    py_hash (hash_fields (acme_at d1)) = py_hash (hash_fields (acme_at d2)).
Proof.
  intros Hrange.
  set (domain_of := fun i : nat => "d" +:+ pretty i).
  set (hash_at := fun i : nat => py_hash (hash_fields (acme_at (domain_of i)))).
  destruct (repeated_value hash_at (seq 0 (S (Z.to_nat (hi - lo)))))
    as (i & j & _ & _ & Hij & Heq).
  - apply NoDup_seq.
  - intros Hnodup.
    assert (hash_at <$> seq 0 (S (Z.to_nat (hi - lo))) ⊆+ seqZ lo (hi - lo)) as Hsub.
    { apply NoDup_submseteq; [done|]. intros h (i & -> & _)%list_elem_of_fmap.
      apply elem_of_seqZ. specialize (Hrange (hash_fields (acme_at (domain_of i)))).
      unfold hash_at. lia. }
    apply submseteq_length in Hsub.
    rewrite length_fmap, length_seq, length_seqZ in Hsub. lia.
  - exists (domain_of i), (domain_of j). split; [done|]. split; [done|]. split; [|exact Heq].
    unfold domain_of. intros [= Hpretty]. change (pretty i = pretty j) in Hpretty.
    by apply (inj pretty) in Hpretty.
Qed.

(** C5, as stated, fails in its second half: the Deduplicator remembers the
    hash values of the keys, so two records with the same name and different
    non-empty domains, whose keys differ, are not both retained when the two
    keys have one hash value. So it is for a hash that gives every key the
    value 0, and every hash with values in a bounded range, as the 64-bit
    [hash] of the interpreter, has two such records. *)
Lemma colliding_hash_keeps_one_record :
  name acme_first = name acme_uk /\
  domain acme_first = Some "acme.com" /\ domain acme_uk = Some "acme.co.uk" /\
  hash_fields acme_first <> hash_fields acme_uk /\
  business_list (add_all (fun _ => 0) BusinessList_new [acme_first; acme_uk]) = [acme_first] /\
  (forall (py_hash : list string -> Z) (lo hi : Z),
     (forall key, lo <= py_hash key < hi) ->
     exists b1 b2 d1 d2,
       name b1 = name b2 /\ domain b1 = Some d1 /\ domain b2 = Some d2 /\
       d1 <> "" /\ d2 <> "" /\ d1 <> d2 /\
       hash_fields b1 <> hash_fields b2 /\
       business_list (add_all py_hash BusinessList_new [b1; b2]) = [b1]).
Proof.
  do 3 (split; [reflexivity|]). split; [discriminate|]. split; [reflexivity|].
  intros py_hash lo hi Hrange.
  destruct (bounded_hash_collides py_hash lo hi Hrange) as (d1 & d2 & Hd1 & Hd2 & Hne & Heq).
  exists (acme_at d1), (acme_at d2), d1, d2. do 3 (split; [reflexivity|]).
  do 3 (split; [done|]). split.
  - by apply (different_domains_different_keys _ _ d1 d2).
  - by apply add_two_same_hash.
Qed.

(** ** Email Discovery: the pattern *)

Module ReFacts.
Import StrFacts.

Lemma take_add j m s :
  Str.take (j + m) s = Str.take j s +:+ Str.take m (Str.drop j s).
Proof.
  revert s. induction j as [|j IH]; intros s.
  - by rewrite take_0, drop_0.
  - destruct s as [|c s]; simpl.
    + by destruct m.
    + by rewrite IH, app_cons.
Qed.

Lemma length_drop j s : String.length (Str.drop j s) = (String.length s - j)%nat.
Proof.
  revert s. induction j as [|j IH]; intros [|c s]; simpl; try done; lia.
Qed.

Lemma span_length p s : (Re.span p s <= String.length s)%nat.
Proof. induction s as [|c s IH]; simpl; [done|]. destruct (p c); simpl; lia. Qed.

Lemma span_take p s j : (j <= Re.span p s)%nat -> all_in p (Str.take j s) = true.
Proof.
  revert s. induction j as [|j IH]; intros s Hj.
  - by rewrite take_0.
  - destruct s as [|c s]; simpl in *; [lia|].
    destruct (p c); simpl in *; [|lia]. apply IH. lia.
Qed.

Lemma span_app p w s : all_in p w = true -> (String.length w <= Re.span p (w +:+ s))%nat.
Proof.
  induction w as [|c w IH]; [simpl; lia|].
  rewrite app_cons. simpl. destruct (p c); simpl; [|done]. intros H. specialize (IH H). lia.
Qed.

Lemma length_nonempty s : s <> "" <-> (1 <= String.length s)%nat.
Proof. destruct s; simpl; split; try done; lia. Qed.

Lemma backtrack_sound k s lo j n :
  Re.backtrack k s lo j = Some n ->
  exists j' m, (lo <= j' <= j)%nat /\ k (Str.drop j' s) = Some m /\ n = (j' + m)%nat.
Proof.
  induction j as [|j IH]; cbn [Re.backtrack].
  - destruct (Nat.ltb_spec 0 lo); [done|].
    destruct (k (Str.drop 0 s)) as [m|] eqn:Hk; [|done].
    intros [= <-]. exists 0%nat, m. split; [lia|]. done.
  - destruct (Nat.ltb_spec (S j) lo); [done|].
    destruct (k (Str.drop (S j) s)) as [m|] eqn:Hk.
    + intros [= <-]. exists (S j), m. split; [lia|]. done.
    + intros H'. destruct (IH H') as (j' & m & Hj' & Hm & ->).
      exists j', m. split; [lia|]. done.
Qed.

Lemma backtrack_complete k s lo j j' m :
  (lo <= j' <= j)%nat -> k (Str.drop j' s) = Some m ->
  exists n, Re.backtrack k s lo j = Some n.
Proof.
  intros Hj Hk. induction j as [|j IH]; cbn [Re.backtrack].
  - destruct (Nat.ltb_spec 0 lo); [lia|].
    assert (j' = 0%nat) as -> by lia. rewrite Hk. eauto.
  - destruct (Nat.ltb_spec (S j) lo); [lia|].
    destruct (k (Str.drop (S j) s)) as [m'|] eqn:Hk'; [eauto|].
    apply IH. destruct (decide (j' = S j)) as [->|]; [congruence|lia].
Qed.

(** What the matcher finds is a match. *)
Lemma match_here_sound r s n :
  Re.match_here r s = Some n ->
  (n <= String.length s)%nat /\ Matches r (Str.take n s).
Proof.
  revert s n. induction r as [|[c q] r IH]; intros s n; cbn [Re.match_here Re.qt Re.cls].
  - intros [= <-]. rewrite take_0. split; [lia|constructor].
  - destruct q as [|lo].
    + destruct s as [|a s]; [done|]. destruct (c a) eqn:Hc; [|done].
      destruct (Re.match_here r s) as [m|] eqn:Hm; [|done].
      intros [= <-]. destruct (IH _ _ Hm) as [Hlen HM].
      split; [simpl; lia|]. simpl. by apply Matches_once.
    + intros H. apply backtrack_sound in H as (j & m & Hj & Hm & ->).
      destruct (IH _ _ Hm) as [Hlen HM]. rewrite length_drop in Hlen.
      pose proof (span_length c s). split; [lia|].
      rewrite take_add. apply (Matches_rep _ _ lo); try done.
      * apply span_take. cbn [Re.cls]. lia.
      * rewrite length_take; lia.
Qed.

(** Where a match starts, the matcher finds one. *)
Lemma match_here_complete r m :
  Matches r m -> forall rest, exists n, Re.match_here r (m +:+ rest) = Some n.
Proof.
  induction 1 as [|p r c s Hq Hc _ IH|p r lo w s Hq Hw Hlo _ IH]; intros rest.
  - by exists 0%nat.
  - destruct (IH rest) as [n Hn]. exists (S n).
    rewrite app_cons. cbn [Re.match_here]. by rewrite Hq, Hc, Hn.
  - destruct (IH rest) as [n Hn]. cbn [Re.match_here]. rewrite Hq, app_assoc.
    apply (backtrack_complete _ _ _ _ (String.length w) n).
    + split; [done|]. by apply span_app.
    + by rewrite drop_app_length.
Qed.

(** [search_from] returns the leftmost position at which the matcher
    succeeds. *)
Lemma search_from_some r i s i' n :
  Re.search_from r i s = Some (i', n) ->
  (i <= i')%nat /\
  Re.match_here r (Str.drop (i' - i) s) = Some n /\
  forall d, (d < i' - i)%nat -> Re.match_here r (Str.drop d s) = None.
Proof.
  revert i. induction s as [|c s IH]; intros i; cbn [Re.search_from].
  - destruct (Re.match_here r "") as [n0|] eqn:Hm; [|done].
    intros [= <- <-]. rewrite Nat.sub_diag. split; [lia|]. split; [done|]. lia.
  - destruct (Re.match_here r (String c s)) as [n0|] eqn:Hm.
    + intros [= <- <-]. rewrite Nat.sub_diag. split; [lia|]. split; [done|]. lia.
    + intros H. destruct (IH _ H) as (Hle & Hn & Hnone).
      split; [lia|]. replace (i' - i)%nat with (S (i' - S i)) by lia.
      split; [done|]. intros [|d] Hd; [done|]. simpl. apply Hnone. lia.
Qed.

Lemma search_from_none r i s :
  Re.search_from r i s = None -> forall d, Re.match_here r (Str.drop d s) = None.
Proof.
  revert i. induction s as [|c s IH]; intros i; cbn [Re.search_from].
  - destruct (Re.match_here r "") eqn:Hm; [done|]. intros _ d. by rewrite drop_nil.
  - destruct (Re.match_here r (String c s)) eqn:Hm; [done|].
    intros H [|d]; [done|]. simpl. by apply (IH _ H).
Qed.

(** The first element of [findall] is the match of [search]. *)
Lemma findall_head r s i0 :
  head (Re.findall r s) =
    (fun p => Str.take p.2 (Str.drop (p.1 - i0) s)) <$> Re.search_from r i0 s.
Proof.
  unfold Re.findall. revert i0. induction s as [|c s IH]; intros i0;
    cbn [Re.findall_go Re.search_from].
  - destruct (Re.match_here r "") as [n|]; [|done]. simpl. by rewrite Nat.sub_diag.
  - destruct (Re.match_here r (String c s)) as [n|] eqn:Hm.
    + simpl. by rewrite Nat.sub_diag.
    + rewrite (IH (S i0)).
      destruct (Re.search_from r (S i0) s) as [[i' n]|] eqn:Hs; [|done].
      apply search_from_some in Hs as (Hle & _). simpl.
      by replace (i' - i0)%nat with (S (i' - S i0)) by lia.
Qed.

(** The two readings of the pattern agree. *)
Lemma is_email_Matches s : is_email s <-> Matches EMAIL_REGEX s.
Proof.
  split.
  - intros (local & labels & tld & -> & Hl & Hla & Hd & Hda & Ht & Hta).
    apply (Matches_rep _ _ 1); [done|done|by apply length_nonempty|].
    apply (Matches_once (Re.Piece _ _)); [done|done|].
    apply (Matches_rep _ _ 1); [done|done|by apply length_nonempty|].
    apply (Matches_once (Re.Piece _ _)); [done|done|].
    rewrite <- (app_nil_r tld).
    apply (Matches_rep _ _ 2); [done|done|done|constructor].
  - unfold EMAIL_REGEX. intros H.
    inversion H as [| |p1 r1 lo1 local s1 Hq1 Hla Hl H1]; subst;
      cbn [Re.qt Re.cls] in *; simplify_eq.
    inversion H1 as [|p2 r2 c2 s2 Hq2 Hc2 H2|]; subst;
      cbn [Re.qt Re.cls] in *; simplify_eq.
    inversion H2 as [| |p3 r3 lo3 labels s3 Hq3 Hda Hd H3]; subst;
      cbn [Re.qt Re.cls] in *; simplify_eq.
    inversion H3 as [|p4 r4 c4 s4 Hq4 Hc4 H4|]; subst;
      cbn [Re.qt Re.cls] in *; simplify_eq.
    inversion H4 as [| |p5 r5 lo5 tld s5 Hq5 Hta Ht H5]; subst;
      cbn [Re.qt Re.cls] in *; simplify_eq.
    inversion H5; subst.
    apply Ascii.eqb_eq in Hc2 as <-. apply Ascii.eqb_eq in Hc4 as <-.
    exists local, labels, tld. rewrite app_nil_r.
    split; [done|]. split; [by apply length_nonempty|]. split; [done|].
    split; [by apply length_nonempty|]. done.
Qed.

(** The count that a greedy repetition settles on is the largest one after
    which the rest of the pattern matches. *)
Lemma backtrack_max k s lo j n :
  Re.backtrack k s lo j = Some n ->
  exists j' m, (lo <= j' <= j)%nat /\ k (Str.drop j' s) = Some m /\ n = (j' + m)%nat /\
               forall j'', (j' < j'' <= j)%nat -> k (Str.drop j'' s) = None.
Proof.
  induction j as [|j IH]; cbn [Re.backtrack].
  - destruct (Nat.ltb_spec 0 lo); [done|].
    destruct (k (Str.drop 0 s)) as [m|] eqn:Hk; [|done].
    intros [= <-]. exists 0%nat, m. split; [lia|]. split; [done|]. split; [done|]. lia.
  - destruct (Nat.ltb_spec (S j) lo); [done|].
    destruct (k (Str.drop (S j) s)) as [m|] eqn:Hk.
    + intros [= <-]. exists (S j), m. split; [lia|]. split; [done|]. split; [done|]. lia.
    + intros H'. destruct (IH H') as (j' & m & Hj' & Hm & -> & Hmax).
      exists j', m. split; [lia|]. split; [done|]. split; [done|].
      intros j'' Hj''. destruct (decide (j'' = S j)) as [->|]; [done|]. apply Hmax. lia.
Qed.

Lemma span_exact p w x :
  all_in p w = true -> (forall c r, x = String c r -> p c = false) ->
  Re.span p (w +:+ x) = String.length w.
Proof.
  intros Hw Hx. induction w as [|c w IH].
  - destruct x as [|c r]; [done|]. simpl. by rewrite (Hx c r).
  - rewrite app_cons. simpl in *. destruct (p c); [|done]. by rewrite IH.
Qed.

Lemma drop_inside p w x d :
  all_in p w = true -> (d < String.length w)%nat ->
  exists c r, Str.drop d (w +:+ x) = String c r /\ p c = true.
Proof.
  revert d. induction w as [|c w IH]; intros d Hw Hd; [simpl in Hd; lia|].
  rewrite app_cons. simpl in Hw. apply andb_prop in Hw as [Hc Hw].
  destruct d as [|d]; [by exists c, (w +:+ x)|]. simpl. apply IH; [done|]. simpl in Hd. lia.
Qed.

Lemma drop_app_ge w x d :
  (String.length w <= d)%nat -> Str.drop d (w +:+ x) = Str.drop (d - String.length w) x.
Proof.
  intros Hd. rewrite <- (drop_app_length w x) at 2. rewrite drop_drop. f_equal. lia.
Qed.

Lemma match_here_rep c lo r s :
  Re.match_here (Re.Piece c (Re.AtLeast lo) :: r) s =
    Re.backtrack (Re.match_here r) s lo (Re.span c s).
Proof. reflexivity. Qed.

Lemma match_here_once c r a s :
  Re.match_here (Re.Piece c Re.Once :: r) (String a s) =
    if c a then S <$> Re.match_here r s else None.
Proof. reflexivity. Qed.

(** The last two pieces of the pattern: a dot and the longest run of
    letters, two at least. *)
Lemma match_here_tld x :
  Re.match_here [Re.Piece (Ascii.eqb ".") Re.Once; Re.Piece Re.alpha (Re.AtLeast 2)] x =
    match x with
    | String c y =>
        if Ascii.eqb "." c
        then if (Re.span Re.alpha y <? 2)%nat then None else Some (S (Re.span Re.alpha y + 0))
        else None
    | "" => None
    end.
Proof.
  destruct x as [|c y]; [done|]. cbn [Re.match_here Re.qt Re.cls].
  destruct (Ascii.eqb "." c); [|done].
  destruct (Re.span Re.alpha y) as [|j]; cbn [Re.backtrack]; [done|].
  by destruct (Nat.ltb_spec (S j) 2).
Qed.

(** At a given position the matcher finds the longest e-mail address that
    starts there. *)
Lemma match_here_email_longest s n m post :
  Re.match_here EMAIL_REGEX s = Some n -> s = m +:+ post -> is_email m ->
  (String.length m <= n)%nat.
Proof.
  intros Hn -> (local & labels & tld & -> & Hl & Hla & Hd & Hda & Ht & Hta).
  rewrite !length_app. change (String.length "@") with 1%nat.
  change (String.length ".") with 1%nat.
  rewrite !app_assoc in Hn. change ("@" +:+ ?x) with (String "@" x) in Hn.
  change ("." +:+ ?x) with (String "." x) in Hn.
  set (s2 := labels +:+ String "." (tld +:+ post)) in *.
  unfold EMAIL_REGEX in Hn. rewrite match_here_rep in Hn.
  apply backtrack_max in Hn as (j1 & n1 & Hj1 & Hk1 & -> & _).
  rewrite (span_exact _ local (String "@" s2)) in Hj1;
    [|done|by intros c r [= <- _]].
  assert (j1 = String.length local) as ->.
  { destruct (decide (j1 = String.length local)) as [|Hne]; [done|].
    destruct (drop_inside Re.local_char local (String "@" s2) j1) as (c & r & Hdrop & Hc);
      [done|lia|].
    rewrite Hdrop, match_here_once in Hk1.
    destruct (Ascii.eqb_spec "@" c) as [<-|]; done. }
  rewrite drop_app_length, match_here_once, Ascii.eqb_refl, match_here_rep in Hk1.
  destruct (Re.backtrack _ s2 1 _) as [n2|] eqn:Hn2; [|done].
  injection Hk1 as <-.
  apply backtrack_max in Hn2 as (j2 & n3 & Hj2 & Hk3 & -> & Hmax).
  rewrite match_here_tld in Hk3.
  pose proof (span_app Re.domain_char labels (String "." (tld +:+ post)) Hda) as Hspan.
  fold s2 in Hspan.
  pose proof (span_app Re.alpha tld post Hta) as Htld.
  assert (String.length labels <= j2)%nat as Hle.
  { destruct (Nat.le_gt_cases (String.length labels) j2) as [|Hlt]; [done|].
    specialize (Hmax (String.length labels) ltac:(lia)).
    unfold s2 in Hmax. rewrite drop_app_length, match_here_tld in Hmax.
    cbn [Ascii.eqb Bool.eqb] in Hmax.
    by destruct (Nat.ltb_spec (Re.span Re.alpha (tld +:+ post)) 2); [lia|]. }
  destruct (Str.drop j2 s2) as [|c y] eqn:Hdrop; [done|].
  destruct (Ascii.eqb_spec "." c) as [<-|]; [|done].
  destruct (Nat.ltb_spec (Re.span Re.alpha y) 2); [done|]. injection Hk3 as <-.
  destruct (decide (j2 = String.length labels)) as [->|Hne].
  - unfold s2 in Hdrop. rewrite drop_app_length in Hdrop. injection Hdrop as <-. lia.
  - destruct (Nat.le_gt_cases (j2 - String.length labels - 1) (String.length tld - 1))
      as [Hin|Hout]; [|lia].
    unfold s2 in Hdrop. rewrite drop_app_ge in Hdrop by done.
    replace (j2 - String.length labels)%nat with (S (j2 - String.length labels - 1)) in Hdrop
      by lia.
    simpl in Hdrop.
    destruct (drop_inside Re.alpha tld post (j2 - String.length labels - 1))
      as (c & r & Hdrop' & Hc); [done|lia|].
    rewrite Hdrop' in Hdrop. by injection Hdrop as -> _.
Qed.

End ReFacts.

(** ** Email Discovery *)

Lemma first_email_search html :
  first_email (Some html) =
    match Re.search EMAIL_REGEX html with
    | Some (i, n) => Str.take n (Str.drop i html)
    | None => ""
    end.
Proof.
  unfold first_email, Re.search. cbn [default from_option id].
  pose proof (ReFacts.findall_head EMAIL_REGEX html 0) as H.
  destruct (Re.findall EMAIL_REGEX html) as [|m ms];
    destruct (Re.search_from EMAIL_REGEX 0 html) as [[i n]|]; simplify_eq/=; try done.
  by rewrite Nat.sub_0_r.
Qed.

(** The first e-mail of a markup is its leftmost substring that matches the
    pattern, the longest one that starts there, and the markup has no such
    substring when there is none. *)
Lemma first_email_leftmost html :
  (first_email (Some html) = "" /\
   forall pre m post, html = pre +:+ m +:+ post -> ~ is_email m) \/
  (exists pre post,
     html = pre +:+ first_email (Some html) +:+ post /\
     is_email (first_email (Some html)) /\
     (forall pre' m' post',
        html = pre' +:+ m' +:+ post' -> is_email m' ->
        (String.length pre <= String.length pre')%nat) /\
     (forall m' post',
        first_email (Some html) +:+ post = m' +:+ post' -> is_email m' ->
        (String.length m' <= String.length (first_email (Some html)))%nat)).
Proof.
  rewrite first_email_search. unfold Re.search.
  destruct (Re.search_from EMAIL_REGEX 0 html) as [[i n]|] eqn:Hs.
  - right. apply ReFacts.search_from_some in Hs as (_ & Hn & Hnone).
    rewrite Nat.sub_0_r in Hn, Hnone.
    exists (Str.take i html), (Str.drop n (Str.drop i html)). split; [|split; [|split]].
    + by rewrite !StrFacts.take_drop.
    + apply ReFacts.is_email_Matches. by apply ReFacts.match_here_sound.
    + intros pre' m' post' Hhtml Hm'.
      destruct (Nat.lt_ge_cases (String.length pre') i) as [Hlt|Hge].
      * specialize (Hnone _ Hlt). rewrite Hhtml, StrFacts.drop_app_length in Hnone.
        apply ReFacts.is_email_Matches in Hm'.
        destruct (ReFacts.match_here_complete _ _ Hm' post') as [k Hk]. congruence.
      * etrans; [|exact Hge]. clear. revert html.
        induction i as [|i IH]; intros [|c html]; simpl; try lia.
        specialize (IH html). lia.
    + intros m' post' Heq Hm'. rewrite StrFacts.take_drop in Heq.
      pose proof (ReFacts.match_here_sound _ _ _ Hn) as [Hlen _].
      rewrite StrFacts.length_take by done.
      by apply (ReFacts.match_here_email_longest _ _ _ _ Hn Heq).
  - left. split; [done|]. intros pre m post Hhtml Hm.
    pose proof (ReFacts.search_from_none _ _ _ Hs (String.length pre)) as Hnone.
    rewrite Hhtml, StrFacts.drop_app_length in Hnone.
    apply ReFacts.is_email_Matches in Hm.
    destruct (ReFacts.match_here_complete _ _ Hm post) as [k Hk]. congruence.
Qed.

Section EmailDiscoveryFacts.

Context {World Browser BrowserContext Page Locator : Type}.
Variable pw : Playwright World Browser BrowserContext Page Locator.

(** [scrape_email_from_website], case by case on the opening of the page,
    the body of the [try] and the closing of the page. *)
Lemma scrape_email_cases context url st :
  scrape_email_from_website pw context url st =
    match context_new_page pw context (world st) with
    | (Raise e, w1) => (Raise e, set_world st w1)
    | (Ok page, w1) =>
        match read_email pw page url (set_world st w1) with
        | (r, st2) =>
            match page_close pw page (world st2) with
            | (Ok _, w3) =>
                (Ok (match r with Ok text => text | Raise _ => "" end), set_world st2 w3)
            | (Raise e, w3) => (Raise e, set_world st2 w3)
            end
        end
    end.
Proof.
  unfold scrape_email_from_website, bind at 1, call at 1.
  destruct (context_new_page pw context (world st)) as [[page|e] w1]; [|done].
  unfold try_finally, try_except, call, ret.
  destruct (read_email pw page url (set_world st w1)) as [[text|e] st2];
    by destruct (page_close pw page _) as [[[]|e'] w3].
Qed.

(** The body of the [try] when every step succeeds, a time-out of the wait
    for the load state counting as success. *)
Lemma read_email_success page url st w2 w3 w4 html w5 :
  page_set_default_timeout pw page 15000 (world st) = (Ok tt, w2) ->
  page_goto pw page url 20000 w2 = (Ok tt, w3) ->
  (page_wait_for_load_state pw page "domcontentloaded" 10000 w3 = (Ok tt, w4) \/
   exists msg, page_wait_for_load_state pw page "domcontentloaded" 10000 w3
               = (Raise (PWTimeoutError msg), w4)) ->
  page_content pw page (sleep_uniform pw 1500 2500 w4) = (Ok html, w5) ->
  read_email pw page url st = (Ok (first_email html), set_world st w5).
Proof.
  intros H2 H3 H4 H5. unfold read_email, bind, try_except, call, sleep, ret.
  rewrite H2. cbn [world set_world]. rewrite H3. cbn [world set_world].
  destruct H4 as [H4|[msg H4]]; rewrite H4; cbn [world set_world is_PWTimeoutError];
    rewrite H5; done.
Qed.

End EmailDiscoveryFacts.

Lemma search_from_app r i pre x :
  (forall d, (d < String.length pre)%nat -> Re.match_here r (Str.drop d (pre +:+ x)) = None) ->
  Re.search_from r i (pre +:+ x) = Re.search_from r (String.length pre + i) x.
Proof.
  revert i. induction pre as [|c pre IH]; intros i Hnone; [done|].
  rewrite StrFacts.app_cons. cbn [Re.search_from].
  pose proof (Hnone 0%nat ltac:(simpl; lia)) as H0. rewrite StrFacts.drop_0 in H0.
  rewrite StrFacts.app_cons in H0. rewrite H0, IH.
  - simpl. f_equal. lia.
  - intros d Hd. apply (Hnone (S d)). simpl. lia.
Qed.

Lemma search_contact_sentence i post :
  Re.search_from EMAIL_REGEX i (contact_sentence +:+ post) = Some (14 + i, 14)%nat.
Proof. vm_compute. reflexivity. Qed.

(** A markup that contains the sentence, with no e-mail address starting
    before it. *)
Lemma first_email_contact_sentence pre post :
  (forall pre' m post',
     pre +:+ contact_sentence +:+ post = pre' +:+ m +:+ post' -> is_email m ->
     (String.length pre <= String.length pre')%nat) ->
  first_email (Some (pre +:+ contact_sentence +:+ post)) = "sales@acme.com".
Proof.
  intros Hfirst. rewrite first_email_search. unfold Re.search.
  rewrite search_from_app.
  - rewrite search_contact_sentence.
    replace (14 + (String.length pre + 0))%nat with (String.length pre + 14)%nat by lia.
    rewrite <- StrFacts.drop_drop, StrFacts.drop_app_length. vm_compute. reflexivity.
  - intros d Hd.
    destruct (Re.match_here EMAIL_REGEX (Str.drop d (pre +:+ contact_sentence +:+ post)))
      as [n|] eqn:Hm; [|done].
    apply ReFacts.match_here_sound in Hm as [_ Hm]. apply ReFacts.is_email_Matches in Hm.
    specialize (Hfirst (Str.take d (pre +:+ contact_sentence +:+ post))
                  (Str.take n (Str.drop d (pre +:+ contact_sentence +:+ post)))
                  (Str.drop n (Str.drop d (pre +:+ contact_sentence +:+ post)))).
    rewrite !StrFacts.take_drop in Hfirst. specialize (Hfirst eq_refl Hm).
    rewrite StrFacts.length_take in Hfirst; [lia|].
    rewrite StrFacts.length_app. lia.
Qed.

(** C7, as stated, fails: when the page for the website cannot be opened,
    Email Discovery raises instead of returning the empty string; and a
    markup that contains the sentence after another address yields that
    other address. *)
Lemma unopened_page_raises :
  scrape_email_from_website Sim.playwright tt "https://www.acme.com" (Sim.start no_pages)
    = (Raise (PWError "Target page, context or browser has been closed"),
       Sim.start no_pages) /\
  first_email (Some ("Write to info@first.org. " +:+ contact_sentence)) = "info@first.org".
Proof. split; vm_compute; reflexivity. Qed.

Section EmailDiscoveryProperties.

Context {World Browser BrowserContext Page Locator : Type}.
Variable pw : Playwright World Browser BrowserContext Page Locator.

(** C7, amended: for every page markup, the e-mail that Email Discovery
    takes from it is the leftmost substring that matches the fixed pattern
    (the longest one that starts there), and the empty string when no
    substring matches; a markup that contains
    "Contact us at sales@acme.com or support@acme.com", with no address
    starting before that sentence, yields "sales@acme.com". Once the page
    is open, and when it closes, Email Discovery returns that e-mail when
    every step succeeds and the empty string when a step before the markup
    is scanned fails; a failure to open the page is raised to the caller. *)
Theorem email_discovery_first_match :
  (forall html,
     (first_email (Some html) = "" /\
      forall pre m post, html = pre +:+ m +:+ post -> ~ is_email m) \/
     (exists pre post,
        html = pre +:+ first_email (Some html) +:+ post /\
        is_email (first_email (Some html)) /\
        (forall pre' m' post',
           html = pre' +:+ m' +:+ post' -> is_email m' ->
           (String.length pre <= String.length pre')%nat) /\
        (forall m' post',
           first_email (Some html) +:+ post = m' +:+ post' -> is_email m' ->
           (String.length m' <= String.length (first_email (Some html)))%nat))) /\
  first_email None = "" /\
  (forall pre post,
     (forall pre' m post',
        pre +:+ contact_sentence +:+ post = pre' +:+ m +:+ post' -> is_email m ->
        (String.length pre <= String.length pre')%nat) ->
     first_email (Some (pre +:+ contact_sentence +:+ post)) = "sales@acme.com") /\
  (forall context url st page w1 w2 w3 w4 html w5 w6,
     context_new_page pw context (world st) = (Ok page, w1) ->
     page_set_default_timeout pw page 15000 w1 = (Ok tt, w2) ->
     page_goto pw page url 20000 w2 = (Ok tt, w3) ->
     (page_wait_for_load_state pw page "domcontentloaded" 10000 w3 = (Ok tt, w4) \/
      exists msg, page_wait_for_load_state pw page "domcontentloaded" 10000 w3
                  = (Raise (PWTimeoutError msg), w4)) ->
     page_content pw page (sleep_uniform pw 1500 2500 w4) = (Ok html, w5) ->
     page_close pw page w5 = (Ok tt, w6) ->
     scrape_email_from_website pw context url st = (Ok (first_email html), set_world st w6)) /\
  (forall context url st page w1 e st2 w3,
     context_new_page pw context (world st) = (Ok page, w1) ->
     read_email pw page url (set_world st w1) = (Raise e, st2) ->
     page_close pw page (world st2) = (Ok tt, w3) ->
     scrape_email_from_website pw context url st = (Ok "", set_world st2 w3)) /\
  (forall context url st e w1,
     context_new_page pw context (world st) = (Raise e, w1) ->
     scrape_email_from_website pw context url st = (Raise e, set_world st w1)).
Proof.
  split; [exact first_email_leftmost|]. split; [reflexivity|].
  split; [exact first_email_contact_sentence|]. split; [|split].
  - intros context url st page w1 w2 w3 w4 html w5 w6 H1 H2 H3 H4 H5 H6.
    rewrite scrape_email_cases, H1.
    rewrite (read_email_success pw page url (set_world st w1) w2 w3 w4 html w5 H2 H3 H4 H5).
    cbn [world set_world]. by rewrite H6.
  - intros context url st page w1 e st2 w3 H1 H2 H3.
    by rewrite scrape_email_cases, H1, H2, H3.
  - intros context url st e w1 H1. by rewrite scrape_email_cases, H1.
Qed.

End EmailDiscoveryProperties.

Lemma email_discovery_first_match_witness :
  first_email (Some contact_sentence) = "sales@acme.com" /\
  scrape_email_from_website Sim.playwright tt "https://www.acme.com" (Sim.start acme_page)
    = (Ok "sales@acme.com", Sim.start acme_page) /\
  scrape_email_from_website Sim.playwright tt "https://www.acme.com"
    (Sim.start unreachable_site) = (Ok "", Sim.start unreachable_site) /\
  scrape_email_from_website Sim.playwright tt "https://www.acme.com" (Sim.start no_pages)
    = (Raise (PWError "Target page, context or browser has been closed"),
       Sim.start no_pages).
Proof.
  destruct (email_discovery_first_match Sim.playwright) as (_ & _ & H3 & H4 & H5 & H6).
  split; [|split; [|split]]; [| | |exact (H6 tt _ (Sim.start no_pages) _ _ eq_refl)].
  - apply (H3 "" ""). intros pre' m post' _ _. simpl. lia.
  - exact (H4 tt "https://www.acme.com" (Sim.start acme_page) 1%nat acme_page acme_page
             acme_page acme_page (Some contact_sentence) acme_page acme_page
             eq_refl eq_refl eq_refl (or_introl eq_refl) eq_refl eq_refl).
  - exact (H5 tt "https://www.acme.com" (Sim.start unreachable_site) 1%nat unreachable_site
             (PWTimeoutError "Timeout 60000ms exceeded.") (Sim.start unreachable_site)
             unreachable_site eq_refl eq_refl eq_refl).
Defined.

(** * Further properties of the code *)

(** ** The Identity Key is an injective encoding *)

Lemma tagged_key_field tag value : tagged tag value = tagged tag (Some (key_field value)).
Proof. by destruct value as [[|c s]|]. Qed.

Lemma hash_fields_key_fields self :
  hash_fields self =
    key_field (name self)
      :: tagged "domain:" (Some (key_field (domain self)))
      ++ tagged "website:" (Some (key_field (website self)))
      ++ tagged "phone:" (Some (key_field (phone_number self))).
Proof.
  unfold hash_fields.
  by rewrite (tagged_key_field _ (domain self)), (tagged_key_field _ (website self)),
    (tagged_key_field _ (phone_number self)).
Qed.

(** X1: the tuple that [Business.__hash__] hashes determines the four
    identity fields and is determined by them, a missing field and an empty
    one counting alike: two records have the same tuple exactly when they
    agree on name, domain, website and phone number. The tags keep the
    optional entries apart, so no two different identities share a tuple. *)
Theorem identity_key_injective (b1 b2 : Business) :
  hash_fields b1 = hash_fields b2 <->
  key_field (name b1) = key_field (name b2) /\
  key_field (domain b1) = key_field (domain b2) /\
  key_field (website b1) = key_field (website b2) /\
  key_field (phone_number b1) = key_field (phone_number b2).
Proof.
  rewrite !hash_fields_key_fields. split.
  - generalize (key_field (name b1)) (key_field (name b2)).
    generalize (key_field (domain b1)) (key_field (domain b2)).
    generalize (key_field (website b1)) (key_field (website b2)).
    generalize (key_field (phone_number b1)) (key_field (phone_number b2)).
    intros [|? p1] [|? p2] [|? w1] [|? w2] [|? d1] [|? d2] n1 n2;
      cbv [tagged app String.append]; intros H; simplify_eq; done.
  - by intros (-> & -> & -> & ->).
Qed.

(** ** What a run of the Deduplicator keeps *)

Section DeduplicatorRuns.

Variable py_hash : list string -> Z.

Abbreviation hash_of := (Business_hash py_hash).
Abbreviation add := (add_business py_hash).

Lemma add_all_cons self b bs :
  add_all py_hash self (b :: bs) = add_all py_hash (add self b) bs.
Proof. reflexivity. Qed.

(** What a run of [add_business] calls appends: the records whose hash is
    neither in the set nor the hash of an earlier record of the run. *)
Lemma add_all_appends self bs :
  exists kept,
    business_list (add_all py_hash self bs) = business_list self ++ kept /\
    kept `sublist_of` bs /\
    forall b, b ∈ kept <->
      exists i, bs !! i = Some b /\ (hash_of b ∉ _seen_businesses self) /\
        forall j b', (j < i)%nat -> bs !! j = Some b' -> hash_of b' <> hash_of b.
Proof.
  revert self. induction bs as [|b0 bs IH]; intros self.
  - exists []. split; [by rewrite app_nil_r|]. split; [done|].
    intros b. split; [by intros ?%elem_of_nil|]. by intros (i & Hi & _).
  - rewrite add_all_cons.
    destruct (decide (hash_of b0 ∈ _seen_businesses self)) as [Hin|Hin].
    + rewrite add_business_seen by done.
      destruct (IH self) as (kept & Hlist & Hsub & Hkept).
      exists kept. split; [done|]. split; [by apply sublist_cons|].
      intros b. rewrite Hkept. split.
      * intros (i & Hi & Hb & Hfirst). exists (S i). split; [done|]. split; [done|].
        intros [|j] b' Hj Hb'; simplify_eq/=; [congruence|]. apply (Hfirst j); [lia|done].
      * intros ([|i] & Hi & Hb & Hfirst); simplify_eq/=; [done|].
        exists i. split; [done|]. split; [done|].
        intros j b' Hj Hb'. apply (Hfirst (S j)); [lia|done].
    + rewrite add_business_fresh by done.
      destruct (IH (mkBusinessList (business_list self ++ [b0])
                      (_seen_businesses self ∪ {[hash_of b0]})))
        as (kept & Hlist & Hsub & Hkept).
      exists (b0 :: kept). split; [by rewrite Hlist; simpl; rewrite <- app_assoc|].
      split; [by apply sublist_skip|].
      intros b. rewrite elem_of_cons, Hkept. simpl. split.
      * intros [->|(i & Hi & Hb & Hfirst)].
        -- exists 0%nat. split; [done|]. split; [done|]. intros j b' Hj. lia.
        -- exists (S i). split; [done|]. split; [set_solver|].
           intros [|j] b' Hj Hb'; simplify_eq/=; [set_solver|]. apply (Hfirst j); [lia|done].
      * intros ([|i] & Hi & Hb & Hfirst); simplify_eq/=; [by left|]. right.
        exists i. split; [done|]. split.
        -- pose proof (Hfirst 0%nat b0 ltac:(lia) eq_refl). set_solver.
        -- intros j b' Hj Hb'. apply (Hfirst (S j)); [lia|done].
Qed.

(** After a run the set holds the hash of every record of the run. *)
Lemma add_all_seen self bs b :
  hash_of b ∈ _seen_businesses self \/ b ∈ bs ->
  hash_of b ∈ _seen_businesses (add_all py_hash self bs).
Proof.
  revert self. induction bs as [|b0 bs IH]; intros self.
  - intros [|?%elem_of_nil]; done.
  - rewrite add_all_cons. intros [H|[->|H]%elem_of_cons]; apply IH; auto.
    + left. by apply add_business_seen_mono.
    + left. apply add_business_marks.
Qed.

Lemma add_all_known self bs :
  (forall b, b ∈ bs -> hash_of b ∈ _seen_businesses self) -> add_all py_hash self bs = self.
Proof.
  induction bs as [|b0 bs IH]; intros H; [done|].
  rewrite add_all_cons, add_business_seen by (apply H; left).
  apply IH. intros b Hb. apply H. by right.
Qed.

Lemma add_all_fresh self bs :
  NoDup (hash_of <$> bs) ->
  (forall b, b ∈ bs -> hash_of b ∉ _seen_businesses self) ->
  business_list (add_all py_hash self bs) = business_list self ++ bs.
Proof.
  revert self. induction bs as [|b0 bs IH]; intros self Hnodup Hfresh.
  - by rewrite app_nil_r.
  - rewrite add_all_cons, add_business_fresh by (apply Hfresh; left).
    rewrite fmap_cons in Hnodup. apply NoDup_cons in Hnodup as [Hb0 Hnodup].
    rewrite IH; [by simpl; rewrite <- app_assoc|done|].
    intros b Hb. simpl. apply not_elem_of_union. split; [apply Hfresh; by right|].
    intros Heq%elem_of_singleton. apply Hb0. rewrite <- Heq. by apply list_elem_of_fmap_2.
Qed.

(** X2: a run of [add_business] calls from the empty list keeps the records
    of the run in their order (the result is a subsequence of the run), and
    it keeps a record exactly when no earlier record of the run has its
    hash: of the records with one hash the first is kept. Every record of
    the run is represented by a kept record with its hash, and a run without
    a repeated hash is kept whole. *)
Theorem add_all_keeps_first_occurrences (bs : list Business) :
  let kept := business_list (add_all py_hash BusinessList_new bs) in
  kept `sublist_of` bs /\
  (forall b, b ∈ kept <->
     exists i, bs !! i = Some b /\
       forall j b', (j < i)%nat -> bs !! j = Some b' -> hash_of b' <> hash_of b) /\
  (forall b, b ∈ bs -> exists b', b' ∈ kept /\ hash_of b' = hash_of b) /\
  (NoDup (hash_of <$> bs) -> kept = bs).
Proof.
  cbv zeta. split; [|split; [|split]].
  - destruct (add_all_appends BusinessList_new bs) as (kept & -> & Hsub & _). done.
  - destruct (add_all_appends BusinessList_new bs) as (kept & -> & _ & Hkept).
    intros b. cbn [business_list BusinessList_new app]. rewrite Hkept. split.
    + intros (i & Hi & _ & Hfirst). eauto.
    + intros (i & Hi & Hfirst). exists i. split; [done|]. split; [set_solver|done].
  - intros b Hb.
    pose proof (add_all_seen BusinessList_new bs b (or_intror Hb)) as Hseen.
    apply (consistent_add_all py_hash BusinessList_new bs (consistent_new py_hash)) in Hseen.
    apply list_elem_of_fmap in Hseen as (b' & Heq & Hb'). eauto.
  - intros Hnodup. rewrite add_all_fresh; [done|done|]. set_solver.
Qed.

(** X3: adding the records of a run a second time changes nothing, neither
    the list nor the set, whatever the list held before the run; and a run
    never makes the list longer than by the number of its records. *)
Theorem readding_changes_nothing (self : BusinessList) (bs : list Business) :
  add_all py_hash (add_all py_hash self bs) bs = add_all py_hash self bs /\
  (length (business_list (add_all py_hash self bs))
     <= length (business_list self) + length bs)%nat.
Proof.
  split.
  - apply add_all_known. intros b Hb. apply add_all_seen. by right.
  - destruct (add_all_appends self bs) as (kept & -> & Hsub & _).
    rewrite length_app. apply sublist_length in Hsub. lia.
Qed.

End DeduplicatorRuns.

Lemma add_all_keeps_first_occurrences_witness :
  business_list (add_all fnv_hash BusinessList_new [acme_first; acme_uk]) = [acme_first; acme_uk].
Proof.
  apply (proj2 (proj2 (proj2 (add_all_keeps_first_occurrences fnv_hash [acme_first; acme_uk])))).
  vm_compute. repeat constructor; set_solver.
Defined.

(** ** The name of the output file *)

Module SafeNameFacts.
Import StrFacts.

Lemma all_in_app p s t : all_in p (s +:+ t) = all_in p s && all_in p t.
Proof. induction s as [|c s IH]; [done|]. rewrite app_cons. simpl. by rewrite IH, andb_assoc. Qed.

Lemma all_in_impl (p q : ascii -> bool) s :
  (forall c, p c = true -> q c = true) -> all_in p s = true -> all_in q s = true.
Proof.
  intros Hpq. induction s as [|c s IH]; [done|]. simpl.
  intros [Hc Hs]%andb_prop. by rewrite (Hpq c Hc), IH.
Qed.

Lemma all_in_ext (p q : ascii -> bool) s : (forall c, p c = q c) -> all_in p s = all_in q s.
Proof. intros Hpq. induction s as [|c s IH]; [done|]. simpl. by rewrite Hpq, IH. Qed.

Lemma lstrip_underscore_cons c s :
  lstrip_underscore (String c s) = if Ascii.eqb c "_" then lstrip_underscore s else String c s.
Proof. by destruct c as [[] [] [] [] [] [] [] []]. Qed.

Lemma sub_nonword_all_in in_run s : all_in word_or_dash (sub_nonword in_run s) = true.
Proof.
  revert in_run. induction s as [|c s IH]; intros in_run; [done|]. simpl.
  destruct (word_or_dash c) eqn:Hc; simpl; [by rewrite Hc, IH|].
  destruct in_run; [apply IH|]. simpl. apply IH.
Qed.

Lemma sub_nonword_id in_run s : all_in word_or_dash s = true -> sub_nonword in_run s = s.
Proof.
  revert in_run. induction s as [|c s IH]; intros in_run; [done|]. simpl.
  destruct (word_or_dash c); [|done]. intros H. by rewrite IH.
Qed.

(** [strip("_")], end by end: what is removed is underscores, and what is
    left neither starts nor ends with one. *)
Lemma lstrip_underscore_split s :
  exists l, s = l +:+ lstrip_underscore s /\ all_in (Ascii.eqb "_") l = true /\
            forall t, lstrip_underscore s <> String "_" t.
Proof.
  induction s as [|c s (l & Hs & Hl & Hhead)].
  { exists "". done. }
  rewrite lstrip_underscore_cons. destruct (Ascii.eqb_spec c "_") as [->|Hc].
  - exists (String "_" l). rewrite app_cons, <- Hs. done.
  - exists "". split; [done|]. split; [done|]. intros t [= ->]. done.
Qed.

Lemma rstrip_underscore_split s :
  exists r, s = rstrip_underscore s +:+ r /\ all_in (Ascii.eqb "_") r = true /\
            (forall t, rstrip_underscore s <> t +:+ "_") /\
            (forall c t, rstrip_underscore s = String c t -> exists t', s = String c t').
Proof.
  induction s as [|c s (r & Hs & Hr & Hlast & _)].
  - exists "". split; [done|]. split; [done|]. split; [by intros [|a t]|done].
  - cbn [rstrip_underscore]. destruct (rstrip_underscore s) as [|c' s'] eqn:Hrs.
    + change ("" +:+ r) with r in Hs. subst r.
      destruct (Ascii.eqb_spec c "_") as [->|Hc].
      * exists (String "_" s). split; [done|]. split; [done|]. split; [by intros [|a t]|done].
      * exists s. split; [done|]. split; [done|]. split.
        -- intros [|a t]; rewrite ?app_cons; [by intros [= ->]|].
           intros [= _ Ht]. by destruct t.
        -- intros c0 t [= <- <-]. eauto.
    + exists r. split; [by rewrite app_cons, <- Hs|]. split; [done|]. split.
      * intros [|a t]; rewrite ?app_cons; [done|]. intros [= _ Ht]. by apply (Hlast t).
      * intros c0 t [= <- <-]. eauto.
Qed.

Lemma rstrip_underscore_id s : (forall t, s <> t +:+ "_") -> rstrip_underscore s = s.
Proof.
  induction s as [|c s IH]; intros Hlast; [done|]. cbn [rstrip_underscore].
  rewrite IH.
  - destruct s as [|c' s']; [|done].
    destruct (Ascii.eqb_spec c "_") as [->|]; [|done]. by destruct (Hlast "").
  - intros t ->. by apply (Hlast (String c t)).
Qed.

Lemma not_alnum_or_dash c : negb (alnum_or_dash c) = negb (word_or_dash c) || Ascii.eqb "_" c.
Proof. by destruct c as [[] [] [] [] [] [] [] []]. Qed.

(** The replacement leaves underscores only exactly when the text has no
    letter, digit or dash. *)
Lemma sub_nonword_underscores in_run s :
  all_in (Ascii.eqb "_") (sub_nonword in_run s) = all_in (fun c => negb (alnum_or_dash c)) s.
Proof.
  rewrite (all_in_ext _ _ s not_alnum_or_dash).
  revert in_run. induction s as [|c s IH]; intros in_run; [done|]. simpl.
  destruct (word_or_dash c) eqn:Hc; simpl; [by rewrite IH|].
  destruct in_run; [apply IH|]. simpl. apply IH.
Qed.

(** A text of word characters and dashes that neither starts nor ends with
    an underscore is its own file name. *)
Lemma safe_name_of_id s :
  all_in word_or_dash s = true ->
  (forall t, s <> String "_" t) -> (forall t, s <> t +:+ "_") ->
  safe_name_of s = s.
Proof.
  intros Hs Hhead Hlast. unfold safe_name_of. rewrite sub_nonword_id by done.
  destruct s as [|c s]; [done|]. rewrite lstrip_underscore_cons.
  destruct (Ascii.eqb_spec c "_") as [->|]; [by destruct (Hhead s)|].
  by apply rstrip_underscore_id.
Qed.

Lemma safe_name_of_shape query :
  all_in word_or_dash (safe_name_of query) = true /\
  (forall t, safe_name_of query <> String "_" t) /\
  (forall t, safe_name_of query <> t +:+ "_") /\
  (safe_name_of query = "" <-> all_in (fun c => negb (alnum_or_dash c)) query = true).
Proof.
  unfold safe_name_of.
  destruct (lstrip_underscore_split (sub_nonword false query)) as (l & Hl & Hlu & Hhead).
  destruct (rstrip_underscore_split (lstrip_underscore (sub_nonword false query)))
    as (r & Hr & Hru & Hlast & Hkeep).
  pose proof (sub_nonword_all_in false query) as Hall.
  split; [|split; [|split]].
  - rewrite Hl, Hr, !all_in_app in Hall.
    by apply andb_prop in Hall as [_ [Hall _]%andb_prop].
  - intros t Ht. destruct (Hkeep _ _ Ht) as [t' Ht']. by apply (Hhead t').
  - exact Hlast.
  - rewrite <- (sub_nonword_underscores false). split.
    + intros Hempty. rewrite Hempty in Hr. change ("" +:+ r) with r in Hr.
      rewrite Hl, Hr, all_in_app, Hlu, Hru. done.
    + intros Hund. rewrite Hl, Hr, !all_in_app in Hund.
      apply andb_prop in Hund as [_ [Hund _]%andb_prop].
      destruct (rstrip_underscore _) as [|c t] eqn:Hrs; [done|].
      cbn [all_in] in Hund. apply andb_prop in Hund as [<-%Ascii.eqb_eq _].
      destruct (Hkeep _ _ eq_refl) as [t' Ht']. by destruct (Hhead t').
Qed.

End SafeNameFacts.

(** X4: the name that the output file gets from the query (ASCII text)
    consists of letters, digits, underscores and dashes only, so it holds no
    path separator and no dot; it neither starts nor ends with an underscore;
    it is empty exactly when the query has no letter, digit or dash; and a
    name that is made this way is left as it is when it is made into a name
    again. *)
Theorem safe_name_is_a_file_name (query : string) :
  all_in word_or_dash (safe_name_of query) = true /\
  word_or_dash "/" = false /\ word_or_dash "." = false /\
  (forall t, safe_name_of query <> String "_" t) /\
  (forall t, safe_name_of query <> t +:+ "_") /\
  (safe_name_of query = "" <-> all_in (fun c => negb (alnum_or_dash c)) query = true) /\
  safe_name_of (safe_name_of query) = safe_name_of query.
Proof.
  destruct (SafeNameFacts.safe_name_of_shape query) as (Hall & Hhead & Hlast & Hempty).
  split; [done|]. do 2 (split; [reflexivity|]). split; [done|]. split; [done|].
  split; [done|]. by apply SafeNameFacts.safe_name_of_id.
Qed.

(** ** The fields of a parsed query *)

Module QueryFacts.
Import StrFacts.

Lemma trimmed_strip s : trimmed (Str.strip s).
Proof. destruct (strip_spec s) as (l & r & _ & _ & _ & Hhead & Hlast). by split. Qed.

Lemma trimmed_nil : trimmed "".
Proof. split; [done|]. by intros [|a t] c. Qed.

Lemma startswith_app p s : Str.startswith p (p +:+ s) = true.
Proof. induction p as [|a p IH]; [done|]. rewrite app_cons. simpl. by rewrite Ascii.eqb_refl. Qed.

(** [find] answers the first position at which the text goes on with
    [sep]. *)
Lemma find_some sep s i :
  Str.find sep s = Some i ->
  Str.startswith sep (Str.drop i s) = true /\
  forall d, (d < i)%nat -> Str.startswith sep (Str.drop d s) = false.
Proof.
  revert i. induction s as [|c s IH]; intros i; cbn [Str.find].
  - destruct (Str.startswith sep "") eqn:Hp; [|done]. intros [= <-]. split; [done|]. lia.
  - destruct (Str.startswith sep (String c s)) eqn:Hp.
    + intros [= <-]. split; [done|]. lia.
    + destruct (Str.find sep s) as [i'|]; [|done]. intros [= <-].
      destruct (IH i' eq_refl) as [Hat Hbefore]. split; [done|].
      intros [|d] Hd; [done|]. apply Hbefore. lia.
Qed.

Lemma find_none sep s d : Str.find sep s = None -> Str.startswith sep (Str.drop d s) = false.
Proof.
  revert d. induction s as [|c s IH]; intros d; cbn [Str.find].
  - destruct (Str.startswith sep "") eqn:Hp; [done|]. intros _. by rewrite drop_nil.
  - destruct (Str.startswith sep (String c s)) eqn:Hp; [done|].
    destruct (Str.find sep s) as [i'|] eqn:Hf; [done|]. intros _.
    destruct d as [|d]; [done|]. by apply IH.
Qed.

(** [find] answers [None] exactly for a text in which [sep] does not occur. *)
Lemma find_none_iff sep s :
  Str.find sep s = None <-> forall pre post, s <> pre +:+ sep +:+ post.
Proof.
  split.
  - intros Hf pre post ->. pose proof (find_none sep _ (String.length pre) Hf) as H.
    by rewrite drop_app_length, startswith_app in H.
  - intros Hfree. destruct (Str.find sep s) as [i|] eqn:Hf; [|done].
    apply find_some in Hf as [Hat _]. apply startswith_inv in Hat.
    destruct (Hfree (Str.take i s) (Str.drop (String.length sep) (Str.drop i s))).
    by rewrite <- Hat, take_drop.
Qed.

Lemma length_take_le n s : (String.length (Str.take n s) <= n)%nat.
Proof. revert s. induction n as [|n IH]; intros [|c s]; simpl; try lia. specialize (IH s). lia. Qed.

(** No occurrence of [sep] lies before the first one. *)
Lemma find_take sep s i : sep <> "" -> Str.find sep s = Some i -> Str.find sep (Str.take i s) = None.
Proof.
  intros Hsep Hf. apply find_none_iff. intros pre post Heq.
  apply find_some in Hf as [_ Hbefore].
  assert (String.length pre < i)%nat as Hlt.
  { pose proof (length_take_le i s) as Hle. rewrite Heq, !length_app in Hle.
    destruct sep; [done|]. simpl in Hle. lia. }
  specialize (Hbefore _ Hlt). rewrite <- (take_drop i s), Heq, !app_assoc in Hbefore.
  by rewrite drop_app_length, startswith_app in Hbefore.
Qed.

(** Every part that [split] returns is free of the separator. *)
Lemma split_parts_free sep s :
  sep <> "" -> Forall (fun part => Str.find sep part = None) (Str.split sep s).
Proof.
  intros Hsep. remember (String.length s) as n eqn:Hn. revert s Hn.
  induction n as [n IH] using lt_wf_ind. intros s ->.
  rewrite split_find by done. destruct (Str.find sep s) as [i|] eqn:Hf.
  - constructor; [by apply find_take|].
    apply (IH (String.length (Str.drop (i + String.length sep) s))); [|done].
    apply find_some in Hf as [Hat _]. apply startswith_inv in Hat.
    apply (f_equal String.length) in Hat. rewrite length_app, !ReFacts.length_drop in Hat.
    rewrite ReFacts.length_drop. destruct sep; [done|]. simpl in *. lia.
  - by constructor.
Qed.

Lemma split_nonempty sep s : Str.split sep s <> [].
Proof.
  unfold Str.split. generalize 0%nat. induction s as [|c s IH]; intros k; [done|]. simpl.
  destruct k; [|apply IH]. destruct (Str.startswith sep (String c s)); [done|].
  by destruct (Str.split_go sep 0 s).
Qed.

(** A text inside a text that is free of [sep] is free of it. *)
Lemma find_none_inside sep l m r :
  Str.find sep (l +:+ m +:+ r) = None -> Str.find sep m = None.
Proof.
  rewrite !find_none_iff. intros Hfree pre post ->. apply (Hfree (l +:+ pre) (post +:+ r)).
  by rewrite !app_assoc.
Qed.

Lemma find_none_strip sep s : Str.find sep s = None -> Str.find sep (Str.strip s) = None.
Proof.
  intros Hf. destruct (strip_spec s) as (l & r & Hs & _). rewrite Hs in Hf.
  by apply find_none_inside in Hf.
Qed.

(** A text that starts with a character that is no white space keeps it
    when it is trimmed. *)
Lemma strip_head c t : Str.isspace c = false -> exists t', Str.strip (String c t) = String c t'.
Proof.
  intros Hc. unfold Str.strip. cbn [Str.lstrip]. rewrite Hc.
  destruct (rstrip_spec (String c t)) as (r & _ & _ & _ & Hkeep). by apply (Hkeep c t).
Qed.

End QueryFacts.

Lemma parse_query_fields_trimmed (query : string) :
  trimmed (parse_query query).1 /\ trimmed (parse_query query).2.
Proof.
  unfold parse_query. pose proof (QueryFacts.split_nonempty " in " query) as Hne.
  destruct (Str.split " in " query) as [|p0 [|p1 parts]]; [done| |]; cbn [fmap list_fmap fst snd].
  - split; [apply QueryFacts.trimmed_strip|apply QueryFacts.trimmed_nil].
  - split; apply QueryFacts.trimmed_strip.
Qed.

(** X5: for every query, the category and the location that the Query
    Parser returns have no white space at either end, and neither of them
    contains the separator " in ": every occurrence of the separator has been
    used to cut the query. *)
Theorem parse_query_fields_clean (query : string) :
  trimmed (parse_query query).1 /\ trimmed (parse_query query).2 /\
  (forall pre post, (parse_query query).1 <> pre +:+ " in " +:+ post) /\
  (forall pre post, (parse_query query).2 <> pre +:+ " in " +:+ post).
Proof.
  destruct (parse_query_fields_trimmed query) as [Hcat Hloc].
  split; [done|]. split; [done|].
  rewrite <- !QueryFacts.find_none_iff. unfold parse_query.
  pose proof (QueryFacts.split_parts_free " in " query ltac:(done)) as Hfree.
  pose proof (QueryFacts.split_nonempty " in " query) as Hne.
  destruct (Str.split " in " query) as [|p0 [|p1 parts]]; [done| |]; cbn [fmap list_fmap fst snd].
  - apply Forall_cons in Hfree as [H0 _]. split; [by apply QueryFacts.find_none_strip|done].
  - apply Forall_cons in Hfree as [H0 [H1 _]%Forall_cons].
    split; by apply QueryFacts.find_none_strip.
Qed.

(** The category of a query that is not blank, once the query is trimmed, is
    not empty. *)
Lemma parse_query_category_nonempty (query : string) :
  Str.strip query <> "" -> (parse_query (Str.strip query)).1 <> "".
Proof.
  intros Hne. destruct (Str.strip query) as [|c t] eqn:Hs; [done|].
  assert (Str.isspace c = false) as Hc.
  { destruct (StrFacts.strip_spec query) as (l & r & _ & _ & _ & Hhead & _).
    apply (Hhead c t). done. }
  unfold parse_query. rewrite (StrFacts.split_find " in " (String c t)) by done.
  destruct (Str.find " in " (String c t)) as [i|] eqn:Hf; cbn [fmap list_fmap fst].
  - destruct i as [|i].
    + apply QueryFacts.find_some in Hf as [Hat _]. rewrite StrFacts.drop_0 in Hat.
      cbn [Str.startswith] in Hat. destruct (Ascii.eqb_spec " " c) as [<-|]; done.
    + cbn [Str.take]. destruct (QueryFacts.strip_head c (Str.take i t) Hc) as [t' ->]. done.
  - destruct (QueryFacts.strip_head c t Hc) as [t' ->]. done.
Qed.

(** ** An address between delimiters *)

Module DelimitedFacts.
Import StrFacts SafeNameFacts.

Lemma local_char_not_at c : Re.local_char c = true -> not_at c = true.
Proof. unfold not_at. by destruct (Ascii.eqb_spec "@" c) as [<-|]. Qed.

Lemma alpha_domain_char c : Re.alpha c = true -> Re.domain_char c = true.
Proof. unfold Re.domain_char. by intros ->. Qed.

(** Two texts cut at their first [@] have the same parts. *)
Lemma first_at a b x y :
  all_in not_at a = true -> all_in not_at b = true ->
  a +:+ String "@" x = b +:+ String "@" y -> a = b /\ x = y.
Proof.
  revert b. induction a as [|c a IH]; intros [|c' b] Ha Hb; rewrite ?app_cons.
  - by intros [= ->].
  - intros [= <- _]. done.
  - intros [= -> _]. done.
  - intros [= <- Heq]. simpl in Ha, Hb.
    apply andb_prop in Ha as [_ Ha]. apply andb_prop in Hb as [_ Hb].
    destruct (IH b Ha Hb Heq) as [-> ->]. done.
Qed.

(** Of two prefixes of one text, the longer one continues the shorter one. *)
Lemma longer_prefix a x b y :
  a +:+ x = b +:+ y -> (String.length b < String.length a)%nat ->
  exists c r, a = b +:+ String c r /\ y = String c (r +:+ x).
Proof.
  revert a. induction b as [|c' b IH]; intros [|c a] Heq Hlen; simpl in Hlen; try lia.
  - exists c, a. split; [done|]. symmetry. exact Heq.
  - rewrite !app_cons in Heq. injection Heq as <- Heq.
    destruct (IH a Heq ltac:(lia)) as (c0 & r & -> & ->). by exists c0, r.
Qed.

Lemma last_char s : s <> "" -> exists t c, s = t +:+ String c "".
Proof.
  induction s as [|c s IH]; [done|]. intros _. destruct s as [|c' s'].
  - by exists "", c.
  - destruct IH as (t & c0 & ->); [done|]. by exists (String c t), c0.
Qed.

Lemma take_app_length s t : Str.take (String.length s) (s +:+ t) = s.
Proof. induction s as [|c s IH]; [apply take_0|]. rewrite app_cons. simpl. by rewrite IH. Qed.

Lemma search_from_here r i s n : Re.match_here r s = Some n -> Re.search_from r i s = Some (i, n).
Proof. intros H. destruct s; cbn [Re.search_from]; by rewrite H. Qed.

(** A match that starts in [u], in front of an address, takes the rest of
    [u] for the start of its local part, and it ends where the address ends
    when a character follows that is none of a domain. *)
Lemma match_before_address u m post n :
  all_in not_at u = true -> is_email m ->
  Re.match_here EMAIL_REGEX (u +:+ m +:+ post) = Some n ->
  all_in Re.local_char u = true /\
  ((forall c r, post = String c r -> Re.domain_char c = false) ->
   (n <= String.length (u +:+ m))%nat).
Proof.
  intros Hu (local & labels & tld & -> & Hl & Hla & Hd & Hda & Ht & Hta) Hn.
  apply ReFacts.match_here_sound in Hn as [Hlen Hm].
  apply ReFacts.is_email_Matches in Hm
    as (local' & labels' & tld' & He & Hl' & Hla' & Hd' & Hda' & Ht' & Hta').
  pose proof (take_drop n (u +:+ (local +:+ "@" +:+ labels +:+ "." +:+ tld) +:+ post)) as Hcut.
  rewrite He in Hcut. set (rest := Str.drop n _) in Hcut. clearbody rest.
  rewrite !app_assoc in Hcut.
  change ("@" +:+ ?x) with (String "@" x) in Hcut.
  rewrite <- (app_assoc u local) in Hcut.
  apply first_at in Hcut as [Hlocal Hrest].
  - split.
    + rewrite Hlocal, all_in_app in Hla'. by apply andb_prop in Hla' as [? _].
    + intros Hpost.
      apply (f_equal String.length) in He. rewrite length_take in He by done.
      rewrite He, !length_app, Hlocal, !length_app.
      change (String.length "@") with 1%nat. change (String.length ".") with 1%nat.
      destruct (Nat.le_gt_cases (String.length (labels' +:+ "." +:+ tld'))
                  (String.length (labels +:+ "." +:+ tld))) as [Hle|Hgt].
      { rewrite !length_app in Hle. change (String.length ".") with 1%nat in Hle. lia. }
      assert ((labels' +:+ "." +:+ tld') +:+ rest = (labels +:+ "." +:+ tld) +:+ post)
        as Hrest' by (by rewrite !app_assoc).
      apply longer_prefix in Hrest' as (c & r & Hlong & Hpost'); [|done].
      assert (all_in Re.domain_char (labels' +:+ "." +:+ tld') = true) as Hdom.
      { rewrite !all_in_app, Hda'. simpl.
        by rewrite (all_in_impl _ _ _ alpha_domain_char Hta'). }
      rewrite Hlong, all_in_app in Hdom. cbn [all_in] in Hdom.
      rewrite (Hpost c _ Hpost') in Hdom. by rewrite andb_false_r in Hdom.
  - by apply (all_in_impl Re.local_char); [exact local_char_not_at|].
  - rewrite all_in_app, Hu. by apply (all_in_impl Re.local_char); [exact local_char_not_at|].
Qed.

End DelimitedFacts.

(** X6: an address that stands in the markup between delimiters is what
    Email Discovery takes from it. When the text before the address holds no
    [@] and does not end with a character of a local part, and the text after
    it does not start with a character of a domain, the first e-mail of the
    markup is exactly that address; in particular a markup that is an address
    yields the address. *)
Theorem first_email_of_delimited_address (pre m post : string) :
  is_email m ->
  all_in not_at pre = true ->
  (forall t c, pre = t +:+ String c "" -> Re.local_char c = false) ->
  (forall c r, post = String c r -> Re.domain_char c = false) ->
  first_email (Some (pre +:+ m +:+ post)) = m.
Proof.
  intros Hm Hpre Hlast Hpost. rewrite first_email_search. unfold Re.search.
  assert (Re.match_here EMAIL_REGEX (m +:+ post) = Some (String.length m)) as Hhere.
  { pose proof Hm as HM. apply ReFacts.is_email_Matches in HM.
    destruct (ReFacts.match_here_complete _ _ HM post) as [n Hn].
    pose proof (ReFacts.match_here_email_longest _ _ _ _ Hn eq_refl Hm) as Hge.
    destruct (DelimitedFacts.match_before_address "" m post n eq_refl Hm Hn) as [_ Hle].
    specialize (Hle Hpost). change ("" +:+ m) with m in Hle. f_equal. rewrite Hn. f_equal. lia. }
  rewrite search_from_app.
  - rewrite (DelimitedFacts.search_from_here _ _ _ _ Hhere), Nat.add_0_r.
    by rewrite StrFacts.drop_app_length, DelimitedFacts.take_app_length.
  - intros d Hd.
    destruct (Re.match_here EMAIL_REGEX (Str.drop d (pre +:+ m +:+ post))) as [n|] eqn:Hn;
      [|done].
    rewrite <- (StrFacts.take_drop d pre) in Hn, Hpre, Hlast.
    rewrite StrFacts.app_assoc in Hn.
    replace d with (String.length (Str.take d pre)) in Hn at 1
      by (apply StrFacts.length_take; lia).
    rewrite StrFacts.drop_app_length in Hn.
    rewrite SafeNameFacts.all_in_app in Hpre. apply andb_prop in Hpre as [_ Hu].
    destruct (DelimitedFacts.match_before_address _ m post n Hu Hm Hn) as [Hlocal _].
    destruct (DelimitedFacts.last_char (Str.drop d pre)) as (t & c & Hdrop).
    { apply ReFacts.length_nonempty. rewrite ReFacts.length_drop. lia. }
    rewrite Hdrop, SafeNameFacts.all_in_app in Hlocal.
    apply andb_prop in Hlocal as [_ Hc]. simpl in Hc. rewrite andb_true_r in Hc.
    rewrite Hdrop, <- StrFacts.app_assoc in Hlast. by rewrite (Hlast _ c eq_refl) in Hc.
Qed.

Lemma app_last_inj t c t' c' : t +:+ String c "" = t' +:+ String c' "" -> c = c'.
Proof.
  revert t'. induction t as [|a t IH]; intros [|a' t']; rewrite ?StrFacts.app_cons.
  - by intros [= ->].
  - intros [= _ H]. by destruct t'.
  - intros [= _ H]. by destruct t.
  - intros [= _ H]. by apply (IH t').
Qed.

Lemma first_email_of_delimited_address_witness :
  first_email (Some ("Mail: " +:+ "info@example.org" +:+ ", thanks")) = "info@example.org".
Proof.
  apply first_email_of_delimited_address.
  - exists "info", "example", "org".
    split; [reflexivity|]. split; [discriminate|]. split; [reflexivity|].
    split; [discriminate|]. split; [reflexivity|]. split; [simpl; lia|reflexivity].
  - reflexivity.
  - intros t c H. change "Mail: " with ("Mail:" +:+ String " " "") in H.
    apply app_last_inj in H as <-. reflexivity.
  - intros c r [= <- _]. reflexivity.
Defined.

(** ** The scroll loop in general *)

Section ScrollLoopFacts.

Context {World Browser BrowserContext Page Locator : Type}.
Variable pw : Playwright World Browser BrowserContext Page Locator.

Lemma scroll_loop_raise page total remaining done prev st e st1 :
  scroll_and_count pw page st = (Raise e, st1) ->
  scroll_loop pw page total (S remaining) done prev st = (Raise e, st1).
Proof. intros H. cbn [scroll_loop]. by rewrite (bind_raise _ _ _ _ _ H). Qed.

Lemma last_cons_default (prev c : nat) counts :
  default prev (last (c :: counts)) = default c (last counts).
Proof. rewrite last_cons. by destruct (last counts). Qed.

(** Iterations that scroll on use up as many rounds of the loop. *)
Lemma scroll_loop_scrolls_on page total remaining done prev st counts st1 :
  scrolls_on pw page total prev st counts st1 ->
  scroll_loop pw page total (length counts + remaining) done prev st =
  scroll_loop pw page total remaining (done + length counts) (default prev (last counts)) st1.
Proof.
  intros Hrun. revert done.
  induction Hrun as [prev st|prev st c st1 counts st' Hcount Hlt Hne _ IH]; intros done.
  - simpl. by rewrite Nat.add_0_r.
  - cbn [length Nat.add]. rewrite (scroll_loop_step _ _ _ _ _ _ _ _ _ Hcount).
    destruct (Z.leb_spec total (Z.of_nat c)); [lia|].
    destruct (Nat.eqb_spec c prev); [done|].
    rewrite IH, last_cons_default. f_equal. lia.
Qed.

(** Every run of the loop: some iterations that scroll on, and then the cap
    or an iteration that stops the loop or raises. *)
Lemma scroll_loop_outcomes page total remaining done prev st :
  exists counts st1,
    scrolls_on pw page total prev st counts st1 /\
    ((length counts = remaining /\
      scroll_loop pw page total remaining done prev st
        = (Ok (CapReached, done + remaining)%nat, st1)) \/
     ((length counts < remaining)%nat /\
      match scroll_and_count pw page st1 with
      | (Raise e, st2) =>
          scroll_loop pw page total remaining done prev st = (Raise e, st2)
      | (Ok count_now, st2) =>
          (total <= Z.of_nat count_now /\
           scroll_loop pw page total remaining done prev st
             = (Ok (ReachedTotal, S (done + length counts)), st2)) \/
          (Z.of_nat count_now < total /\ count_now = default prev (last counts) /\
           scroll_loop pw page total remaining done prev st
             = (Ok (Stalled, S (done + length counts)), st2))
      end)).
Proof.
  revert done prev st. induction remaining as [|remaining IH]; intros done prev st.
  - exists [], st. split; [constructor|]. left. split; [done|]. simpl. by rewrite Nat.add_0_r.
  - destruct (scroll_and_count pw page st) as [[c|e] st1] eqn:Hcount.
    + destruct (Z.leb_spec total (Z.of_nat c)) as [Hge|Hlt].
      { exists [], st. split; [constructor|]. right. split; [simpl; lia|].
        rewrite Hcount. left. split; [done|].
        rewrite (scroll_loop_step _ _ _ _ _ _ _ _ _ Hcount).
        destruct (Z.leb_spec total (Z.of_nat c)); [|lia]. simpl. by rewrite Nat.add_0_r. }
      destruct (Nat.eqb_spec c prev) as [Heq|Hne].
      { exists [], st. split; [constructor|]. right. split; [simpl; lia|].
        rewrite Hcount. right. split; [done|]. split; [done|].
        rewrite (scroll_loop_step _ _ _ _ _ _ _ _ _ Hcount).
        destruct (Z.leb_spec total (Z.of_nat c)); [lia|].
        destruct (Nat.eqb_spec c prev); [|done]. simpl. by rewrite Nat.add_0_r. }
      assert (scroll_loop pw page total (S remaining) done prev st
              = scroll_loop pw page total remaining (S done) c st1) as Hstep.
      { rewrite (scroll_loop_step _ _ _ _ _ _ _ _ _ Hcount).
        destruct (Z.leb_spec total (Z.of_nat c)); [lia|].
        by destruct (Nat.eqb_spec c prev). }
      destruct (IH (S done) c st1) as (counts & st' & Hrun & Hend).
      exists (c :: counts), st'. split; [by econstructor|].
      rewrite Hstep, last_cons_default. cbn [length].
      replace (done + S remaining)%nat with (S done + remaining)%nat by lia.
      replace (done + S (length counts))%nat with (S done + length counts)%nat by lia.
      destruct Hend as [[Hlen Hcap]|[Hlen Hstop]]; [left|right].
      * split; [by rewrite Hlen|done].
      * split; [lia|done].
    + exists [], st. split; [constructor|]. right. split; [simpl; lia|].
      rewrite Hcount. by apply scroll_loop_raise.
Qed.

(** X7: the scroll loop ends at the first iteration whose count reaches the
    requested total or equals the count of the iteration before it (0 before
    the first). After iterations that all scroll on, fewer than 50 of them,
    the next iteration ends the loop as [ReachedTotal] when its count is at
    least the total and as [Stalled] when it is below the total and unchanged,
    and an exception of that iteration is raised by the loop; 50 iterations
    that scroll on end the loop at the cap. *)
Theorem scroll_loop_ends_at_first_stop
    (page : Page) (total : Z) (st st1 : State World) (counts : list nat) :
  scrolls_on pw page total 0 st counts st1 ->
  ((length counts < max_scroll_loops)%nat ->
   (forall count_now st2,
      scroll_and_count pw page st1 = (Ok count_now, st2) ->
      (total <= Z.of_nat count_now ->
       scroll_loop pw page total max_scroll_loops 0 0 st
         = (Ok (ReachedTotal, S (length counts)), st2)) /\
      (Z.of_nat count_now < total -> count_now = default 0%nat (last counts) ->
       scroll_loop pw page total max_scroll_loops 0 0 st
         = (Ok (Stalled, S (length counts)), st2))) /\
   (forall e st2,
      scroll_and_count pw page st1 = (Raise e, st2) ->
      scroll_loop pw page total max_scroll_loops 0 0 st = (Raise e, st2))) /\
  (length counts = max_scroll_loops ->
   scroll_loop pw page total max_scroll_loops 0 0 st
     = (Ok (CapReached, max_scroll_loops), st1)).
Proof.
  intros Hrun. split.
  - intros Hlen.
    replace max_scroll_loops
      with (length counts + S (max_scroll_loops - length counts - 1))%nat by lia.
    rewrite (scroll_loop_scrolls_on _ _ _ _ _ _ _ _ Hrun). cbn [Nat.add]. split.
    + intros c st2 Hcount. rewrite (scroll_loop_step _ _ _ _ _ _ _ _ _ Hcount). split.
      * intros Hge. by destruct (Z.leb_spec total (Z.of_nat c)); [|lia].
      * intros Hlt ->. destruct (Z.leb_spec total (Z.of_nat (default 0%nat (last counts))));
          [lia|]. by rewrite Nat.eqb_refl.
    + intros e st2 Hcount. by apply scroll_loop_raise.
  - intros Hlen. rewrite <- Hlen at 1.
    replace (length counts) with (length counts + 0)%nat at 1 by lia.
    rewrite (scroll_loop_scrolls_on _ _ _ _ _ _ _ _ Hrun). cbn [scroll_loop Nat.add].
    by rewrite Hlen.
Qed.

(** X8: whenever the scroll loop returns, it has made at least one and at
    most 50 iterations; it reports the cap only after 50 iterations; and for
    a requested total that is not positive it stops after its first
    iteration, the total being reached by any count. *)
Theorem scroll_loop_iterations_bounded
    (page : Page) (total : Z) (st st' : State World) (how : loop_exit) (n : nat) :
  scroll_loop pw page total max_scroll_loops 0 0 st = (Ok (how, n), st') ->
  (1 <= n <= max_scroll_loops)%nat /\
  (how = CapReached -> n = max_scroll_loops) /\
  (total <= 0 -> how = ReachedTotal /\ n = 1%nat).
Proof.
  intros Hloop.
  destruct (scroll_loop_outcomes page total max_scroll_loops 0 0 st)
    as (counts & st1 & Hrun & [[Hlen Hcap]|[Hlen Hstop]]).
  - rewrite Hcap in Hloop. injection Hloop as <- <- <-.
    split; [unfold max_scroll_loops; lia|]. split; [done|].
    intros Htotal. destruct counts as [|c counts]; [done|]. inversion Hrun. lia.
  - destruct (scroll_and_count pw page st1) as [[c|e] st2]; [|congruence].
    destruct Hstop as [[Hge Hreached]|(Hlt & Hprev & Hstalled)].
    + rewrite Hreached in Hloop. injection Hloop as <- <- <-.
      split; [simpl; lia|]. split; [done|]. intros Htotal. split; [done|].
      destruct counts as [|c0 counts]; [done|]. inversion Hrun. lia.
    + rewrite Hstalled in Hloop. injection Hloop as <- <- <-.
      split; [simpl; lia|]. split; [done|]. lia.
Qed.

End ScrollLoopFacts.

(** ** The records of a run *)

Ltac bind_as H a st Ha := apply bind_ok_inv in H; destruct H as (a & st & Ha & H).

Lemma first_email_shape html : first_email html = "" \/ is_email (first_email html).
Proof.
  destruct html as [html|]; [|by left].
  destruct (first_email_leftmost html) as [[Hnone _]|(pre & post & _ & Hfound & _)]; auto.
Qed.

Lemma length_slice_to {A} (total : Z) (lst : list A) :
  (length (slice_to total lst) <= length lst)%nat /\
  (0 <= total -> (length (slice_to total lst) <= Z.to_nat total)%nat).
Proof.
  unfold slice_to. destruct (Z.leb_spec 0 total); rewrite length_take; lia.
Qed.

Section WorldFacts.

Context {World : Type}.

Lemma on_world_ret {A} (a : A) : on_world (ret a : M World A).
Proof. done. Qed.

Lemma on_world_raise {A} e : on_world (raise e : M World A).
Proof. done. Qed.

Lemma on_world_call {A} (op : prim A) : on_world (call op : M World A).
Proof. intros st st' Hw. unfold call. rewrite Hw. by destruct (op (world st')). Qed.

Lemma on_world_bind {A B} (m : M World A) (k : A -> M World B) :
  on_world m -> (forall a, on_world (k a)) -> on_world (bind m k).
Proof.
  intros Hm Hk st st' Hw. unfold bind. destruct (Hm st st' Hw) as [Hr Hw1].
  destruct (m st) as [r st1], (m st') as [r' st1']. simpl in Hr, Hw1. subst r'.
  destruct r as [a|e]; [by apply Hk|done].
Qed.

Lemma on_world_try_except {A} (m : M World A) (h : exn -> M World A) :
  on_world m -> (forall e, on_world (h e)) -> on_world (try_except m h).
Proof.
  intros Hm Hh st st' Hw. unfold try_except. destruct (Hm st st' Hw) as [Hr Hw1].
  destruct (m st) as [r st1], (m st') as [r' st1']. simpl in Hr, Hw1. subst r'.
  destruct r as [a|e]; [done|by apply Hh].
Qed.

Lemma on_world_try_finally {A} (m : M World A) (c : M World unit) :
  on_world m -> on_world c -> on_world (try_finally m c).
Proof.
  intros Hm Hc st st' Hw. unfold try_finally. destruct (Hm st st' Hw) as [Hr Hw1].
  destruct (m st) as [r st1], (m st') as [r' st1']. simpl in Hr, Hw1. subst r'.
  destruct (Hc st1 st1' Hw1) as [Hr2 Hw2].
  destruct (c st1) as [r2 st2], (c st1') as [r2' st2']. simpl in Hr2, Hw2. subst r2'.
  by destruct r2 as [[]|e].
Qed.

End WorldFacts.

(** Goals [on_world m] are solved along the structure of [m]. *)
Create HintDb by_world.
#[export] Hint Resolve on_world_ret on_world_raise on_world_call : by_world.

Ltac by_world :=
  repeat first
    [ progress cbv zeta
    | apply on_world_bind; [|intros ?]
    | apply on_world_try_except; [|intros ?]
    | apply on_world_try_finally
    | match goal with
      | |- on_world (match ?x with _ => _ end) => destruct x
      end
    | solve [auto with by_world] ].

Section RowFacts.

Context {World Browser BrowserContext Page Locator : Type}.
Variable pw : Playwright World Browser BrowserContext Page Locator.
Variable py_hash : list string -> Z.
Variable today : string.

Lemma try_finally_ok_inv {A} (m : M World A) (c : M World unit) st a st' :
  try_finally m c st = (Ok a, st') ->
  exists st1, m st = (Ok a, st1) /\ c st1 = (Ok tt, st').
Proof.
  unfold try_finally. destruct (m st) as [r st1].
  destruct (c st1) as [[[]|e] st2] eqn:Hc; intros [= -> ->]. eauto.
Qed.

Lemma safe_text_trimmed page sl st text st' :
  _safe_text pw page sl st = (Ok text, st') -> trimmed text.
Proof.
  rewrite safe_text_cases.
  destruct (locator_count pw _ (world st)) as [[[|n]|e] w1];
    [intros [= <- _]; apply QueryFacts.trimmed_nil| |intros [= <- _]; apply QueryFacts.trimmed_nil].
  destruct (locator_inner_text pw _ w1) as [[text0|e] w2]; intros [= <- _];
    [apply QueryFacts.trimmed_strip|apply QueryFacts.trimmed_nil].
Qed.

Lemma read_email_result page url st text st' :
  read_email pw page url st = (Ok text, st') -> text = "" \/ is_email text.
Proof.
  intros H. unfold read_email in H.
  bind_as H u1 s1 H1. bind_as H u2 s2 H2. bind_as H u3 s3 H3. bind_as H u4 s4 H4.
  bind_as H html s5 H5. injection H as <- _. apply first_email_shape.
Qed.

(** What Email Discovery returns is an address or the empty string. *)
Lemma scrape_email_result context url st text st' :
  scrape_email_from_website pw context url st = (Ok text, st') -> text = "" \/ is_email text.
Proof.
  rewrite scrape_email_cases.
  destruct (context_new_page pw context (world st)) as [[page|e] w1]; [|done].
  destruct (read_email pw page url (set_world st w1)) as [[found|e] st2] eqn:Hread;
    destruct (page_close pw page (world st2)) as [[[]|e'] w3]; intros [= <- _]; auto.
  by apply read_email_result in Hread.
Qed.

Lemma str_or_empty a : str_or a "" = a.
Proof. by destruct a. Qed.


Lemma extract_business_row page context cat loc listing st b st' :
  extract_business pw page context cat loc listing st = (Ok b, st') ->
  extracted_row cat loc b.
Proof.
  intros H. unfold extract_business in H.
  bind_as H u1 s1 Hclick. bind_as H u2 s2 Hsleep.
  bind_as H primary s3 Hprimary. bind_as H name_txt s4 Hname.
  bind_as H address_txt s5 Haddress. bind_as H website_text s6 Hwebsite.
  bind_as H phone_txt s7 Hphone. bind_as H email_txt s8 Hemail.
  injection H as <- _.
  exists name_txt, address_txt, website_text, phone_txt, email_txt.
  split; [by destruct website_text|]. split; [|split; [|split; [|split; [|split]]]].
  - destruct primary as [|c primary].
    + bind_as Hname fallback s9 Hfallback. destruct fallback as [|c fallback].
      * by apply safe_text_trimmed in Hname.
      * injection Hname as <- _. by apply safe_text_trimmed in Hfallback.
    + injection Hname as <- _. by apply safe_text_trimmed in Hprimary.
  - by apply safe_text_trimmed in Haddress.
  - by apply safe_text_trimmed in Hwebsite.
  - by apply safe_text_trimmed in Hphone.
  - destruct website_text as [|c website_text]; [injection Hemail as <- _; by left|].
    destruct (website_of_text (String c website_text)); [injection Hemail as <- _; by left|].
    bind_as Hemail found s9 Hfound. injection Hemail as <- _. rewrite str_or_empty.
    by apply scrape_email_result in Hfound.
  - intros ->. by injection Hemail as <- _.
Qed.

Lemma bind_raise_inv {A B} (m : M World A) (k : A -> M World B) st e st' :
  bind m k st = (Raise e, st') ->
  m st = (Raise e, st') \/ exists a st1, m st = (Ok a, st1) /\ k a st1 = (Raise e, st').
Proof.
  unfold bind. destruct (m st) as [[a|e0] st1]; intros H; [right; by exists a, st1|].
  injection H as -> ->. by left.
Qed.

Lemma safe_text_no_raise page sl st e st' : _safe_text pw page sl st <> (Raise e, st').
Proof.
  rewrite safe_text_cases.
  destruct (locator_count pw _ (world st)) as [[[|n]|e0] w1]; try done.
  by destruct (locator_inner_text pw _ w1) as [[text|e1] w2].
Qed.

(** Email Discovery raises only what opening or closing the page of the
    website raises. *)
Lemma scrape_email_raise context url st e st' :
  scrape_email_from_website pw context url st = (Raise e, st') ->
  (exists w w', context_new_page pw context w = (Raise e, w')) \/
  (exists site_page w w', page_close pw site_page w = (Raise e, w')).
Proof.
  rewrite scrape_email_cases.
  destruct (context_new_page pw context (world st)) as [[site_page|e0] w1] eqn:Hopen.
  - destruct (read_email pw site_page url (set_world st w1)) as [r st2].
    destruct (page_close pw site_page (world st2)) as [[[]|e1] w3] eqn:Hclose; [done|].
    intros [= <- _]. right. eauto.
  - intros [= <- _]. left. eauto.
Qed.

(** What makes the extraction of a listing raise: the click on the listing,
    or the opening or closing of the page of its website. *)
Lemma extract_business_raise page context cat loc listing st e st' :
  extract_business pw page context cat loc listing st = (Raise e, st') ->
  (exists w, locator_click pw listing (world st) = (Raise e, w)) \/
  (exists w w', context_new_page pw context w = (Raise e, w')) \/
  (exists site_page w w', page_close pw site_page w = (Raise e, w')).
Proof.
  intros H. unfold extract_business in H.
  apply bind_raise_inv in H as [H|(u1 & s1 & _ & H)].
  { left. unfold call in H. destruct (locator_click pw listing (world st)) as [r w] eqn:Hclick.
    injection H as -> _. eauto. }
  right.
  apply bind_raise_inv in H as [H|(u2 & s2 & _ & H)]; [done|].
  apply bind_raise_inv in H as [H|(primary & s3 & _ & H)]; [by apply safe_text_no_raise in H|].
  apply bind_raise_inv in H as [H|(name_txt & s4 & _ & H)].
  { destruct primary as [|c primary]; [|done].
    apply bind_raise_inv in H as [H|(fallback & s5 & _ & H)];
      [by apply safe_text_no_raise in H|].
    destruct fallback as [|c fallback]; [by apply safe_text_no_raise in H|done]. }
  apply bind_raise_inv in H as [H|(address_txt & s5 & _ & H)];
    [by apply safe_text_no_raise in H|].
  apply bind_raise_inv in H as [H|(website_text & s6 & _ & H)];
    [by apply safe_text_no_raise in H|].
  apply bind_raise_inv in H as [H|(phone_txt & s7 & _ & H)];
    [by apply safe_text_no_raise in H|].
  apply bind_raise_inv in H as [H|(email_txt & s8 & _ & H)]; [|done].
  destruct website_text as [|c website_text]; [done|].
  destruct (website_of_text (String c website_text)) as [|c' url]; [done|].
  apply bind_raise_inv in H as [H|(found & s9 & _ & H)]; [|done].
  by apply scrape_email_raise in H.
Qed.

(** The listing loop, listing by listing: it is a run of the Deduplicator
    over the records of the listings that could be extracted, every other
    listing gives an error line with its index, the records it appends have
    the shape of an extracted record, and it starts no file. *)
Lemma process_listings_run page context cat loc idx listings bl st :
  exists extracted st' rows errors,
    process_listings pw py_hash page context cat loc idx listings bl st
      = (Ok (add_all py_hash bl extracted), st') /\
    Forall (extracted_row cat loc) extracted /\
    (length extracted + length errors = length listings)%nat /\
    business_list (add_all py_hash bl extracted) = business_list bl ++ rows /\
    stdout st' = stdout st ++ errors /\
    files st' = files st /\
    (length rows + length errors <= length listings)%nat /\
    Forall (extracted_row cat loc) rows /\
    Forall (fun line => exists k e, line = error_line k e /\
                                    (idx <= k < idx + length listings)%nat) errors.
Proof.
  revert idx bl st. induction listings as [|listing listings IH]; intros idx bl st.
  - exists [], st, [], []. rewrite !app_nil_r. done.
  - rewrite process_listings_cons, process_listing_cases.
    pose proof (silent_extract_business pw page context cat loc listing st) as [Hout Hfiles].
    destruct (extract_business pw page context cat loc listing st) as [[b|e] st1] eqn:Hb;
      simpl in Hout, Hfiles.
    + apply extract_business_row in Hb.
      destruct (IH (S idx) (add_business py_hash bl b)
                  (set_world st1 (sleep_uniform pw 600 1200 (world st1))))
        as (extracted & st' & rows & errors & -> & Hext & Hall & Hrows & Herrors & Hf & Hlen
            & Hshape & Hlines).
      cbn [stdout files set_world] in Herrors, Hf.
      assert (exists first, business_list (add_business py_hash bl b) = business_list bl ++ first
                            /\ (length first <= 1)%nat /\ Forall (extracted_row cat loc) first)
        as (first & Hfirst & Hone & Hfshape).
      { unfold add_business. case_decide.
        - exists []. rewrite app_nil_r. split; [done|]. split; [simpl; lia|constructor].
        - exists [b]. split; [done|]. split; [simpl; lia|]. by constructor. }
      exists (b :: extracted), st', (first ++ rows), errors. split; [done|].
      split; [by constructor|]. split; [simpl; lia|].
      split.
      { change (add_all py_hash bl (b :: extracted))
          with (add_all py_hash (add_business py_hash bl b) extracted).
        by rewrite Hrows, Hfirst, <- app_assoc. }
      split; [congruence|]. split; [congruence|]. split; [rewrite length_app; simpl; lia|].
      split; [by apply Forall_app|].
      eapply Forall_impl; [exact Hlines|]. intros line (k & e & -> & Hk).
      exists k, e. split; [done|]. simpl. lia.
    + destruct (IH (S idx) bl
                  (mkState (world st1) (stdout st1 ++ [error_line idx e]) (files st1)))
        as (extracted & st' & rows & errors & -> & Hext & Hall & Hrows & Herrors & Hf & Hlen
            & Hshape & Hlines).
      cbn [stdout files] in Herrors, Hf.
      exists extracted, st', rows, (error_line idx e :: errors). split; [done|].
      split; [done|]. split; [simpl; lia|]. split; [done|].
      split; [by rewrite Herrors, Hout, <- app_assoc|]. split; [congruence|].
      split; [simpl; lia|]. split; [done|]. constructor.
      * exists idx, e. split; [done|]. simpl. lia.
      * eapply Forall_impl; [exact Hlines|]. intros line (k & e' & -> & Hk).
        exists k, e'. split; [done|]. simpl. lia.
Qed.

(** The listing loop in terms of the outcomes of its listings. *)
Lemma process_listings_outcomes page context cat loc idx listings bl st :
  exists outcomes st',
    extractions pw page context cat loc idx st listings outcomes st' /\
    process_listings pw py_hash page context cat loc idx listings bl st
      = (Ok (add_all py_hash bl (records_of outcomes)), st') /\
    stdout st' = stdout st ++ lines_of outcomes /\
    files st' = files st /\
    outcomes.*1 = seq idx (length listings) /\
    Forall (extracted_row cat loc) (records_of outcomes) /\
    (length (records_of outcomes) + length (lines_of outcomes) = length listings)%nat.
Proof.
  revert idx bl st. induction listings as [|listing listings IH]; intros idx bl st.
  - exists [], st. split; [constructor|]. rewrite app_nil_r. done.
  - rewrite process_listings_cons, process_listing_cases.
    pose proof (silent_extract_business pw page context cat loc listing st) as [Hout Hfiles].
    destruct (extract_business pw page context cat loc listing st) as [[b|e] st1] eqn:Hb;
      simpl in Hout, Hfiles.
    + destruct (IH (S idx) (add_business py_hash bl b)
                  (set_world st1 (sleep_uniform pw 600 1200 (world st1))))
        as (outcomes & st' & Hrun & -> & Hlines & Hf & Hidx & Hshape & Hlen).
      cbn [stdout files set_world] in Hlines, Hf.
      exists ((idx, Ok b) :: outcomes), st'.
      split; [exact (extractions_cons pw _ _ _ _ _ _ _ _ _
                      (set_world st1 (sleep_uniform pw 600 1200 (world st1))) _ _ _
                      Hb eq_refl Hrun)|].
      split; [done|]. split; [by rewrite Hlines, Hout|]. split; [congruence|].
      split; [by rewrite fmap_cons, Hidx|].
      split; [constructor; [by apply extract_business_row in Hb|done]|].
      change (S (length (records_of outcomes) + length (lines_of outcomes)) = S (length listings)).
      lia.
    + destruct (IH (S idx) bl
                  (mkState (world st1) (stdout st1 ++ [error_line idx e]) (files st1)))
        as (outcomes & st' & Hrun & -> & Hlines & Hf & Hidx & Hshape & Hlen).
      cbn [stdout files] in Hlines, Hf.
      exists ((idx, Raise e) :: outcomes), st'.
      split; [exact (extractions_cons pw _ _ _ _ _ _ _ _ _
                      (mkState (world st1) (stdout st1 ++ [error_line idx e]) (files st1)) _ _ _
                      Hb eq_refl Hrun)|].
      split; [done|]. split; [by rewrite Hlines, Hout, <- app_assoc|]. split; [congruence|].
      split; [by rewrite fmap_cons, Hidx|]. split; [done|].
      change ((length (records_of outcomes) + S (length (lines_of outcomes)))%nat
              = S (length listings)).
      lia.
Qed.

Lemma on_world_sleep lo hi : on_world (sleep pw lo hi).
Proof. intros st st' Hw. unfold sleep. simpl. by rewrite Hw. Qed.

Lemma on_world_safe_text page sl : on_world (_safe_text pw page sl).
Proof. unfold _safe_text. by_world. Qed.

Lemma on_world_scrape_email context url :
  on_world (scrape_email_from_website pw context url).
Proof. unfold scrape_email_from_website, read_email. by_world; apply on_world_sleep. Qed.

Lemma on_world_extract_business page context cat loc listing :
  on_world (extract_business pw page context cat loc listing).
Proof.
  unfold extract_business.
  by_world;
    first [apply on_world_sleep | apply on_world_safe_text | apply on_world_scrape_email].
Qed.

(** The outcomes of the listings are determined by the listings and the
    world in which the first one is reached. *)
Lemma extractions_unique page context cat loc idx listings :
  forall st1 st2 outcomes1 outcomes2 st1' st2',
    world st1 = world st2 ->
    extractions pw page context cat loc idx st1 listings outcomes1 st1' ->
    extractions pw page context cat loc idx st2 listings outcomes2 st2' ->
    outcomes1 = outcomes2 /\ world st1' = world st2'.
Proof.
  revert idx. induction listings as [|listing listings IH];
    intros idx st1 st2 o1 o2 st1' st2' Hw H1 H2.
  - inversion H1; inversion H2; subst. done.
  - inversion H1 as [|? ? ? r1 sa1 sb1 ? os1 ? Hx1 Hw1 Hr1]; subst.
    inversion H2 as [|? ? ? r2 sa2 sb2 ? os2 ? Hx2 Hw2 Hr2]; subst.
    destruct (on_world_extract_business page context cat loc listing st1 st2 Hw) as [Hr Hwx].
    rewrite Hx1, Hx2 in Hr, Hwx. simpl in Hr, Hwx. subst r2.
    destruct (IH (S idx) sb1 sb2 os1 os2 st1' st2') as [-> Hend]; try done.
    rewrite Hw1, Hw2. destruct r1; by rewrite Hwx.
Qed.

End RowFacts.

(** ** A run that returns a file *)

Section RunFacts.

Context {World Browser BrowserContext Page Locator : Type}.
Variable pw : Playwright World Browser BrowserContext Page Locator.
Variable py_hash : list string -> Z.
Variable today : string.

Lemma silent_run {A} (m : M World A) st r st1 :
  silent m -> m st = (r, st1) -> stdout st1 = stdout st /\ files st1 = files st.
Proof. intros Hm Hrun. specialize (Hm st). by rewrite Hrun in Hm. Qed.

(** The export, for either file type: the path it returns, and the file it
    starts, with the rows of the business list. *)
Lemma save_run filetype bl filename st w :
  (if String.eqb (Str.lower filetype) "csv" then to_csv pw else to_excel pw)
    (save_at today +:+ "/" +:+ filename +:+ extension_of filetype)
    (business_list bl) (world st) = (Ok tt, w) ->
  (if String.eqb (Str.lower filetype) "csv"
   then save_to_csv pw today bl filename
   else save_to_excel pw today bl filename) st
  = (Ok (save_at today +:+ "/" +:+ filename +:+ extension_of filetype),
     mkState w (stdout st)
       (files st ++ [(save_at today +:+ "/" +:+ filename +:+ extension_of filetype,
                      business_list bl)])).
Proof.
  unfold extension_of. destruct (String.eqb (Str.lower filetype) "csv"); intros Hw.
  - unfold save_to_csv, bind, started_file, call, ret. cbn [world]. by rewrite Hw.
  - unfold save_to_excel, bind, started_file, call, ret. cbn [world].
    revert Hw. destruct (business_list bl); intros Hw; cbn [world]; by rewrite Hw.
Qed.


Lemma save_ok_inv filetype bl filename st path st1 :
  (if String.eqb (Str.lower filetype) "csv"
   then save_to_csv pw today bl filename
   else save_to_excel pw today bl filename) st = (Ok path, st1) ->
  path = save_at today +:+ "/" +:+ filename +:+ extension_of filetype /\
  files st1 = files st ++ [(path, business_list bl)] /\
  stdout st1 = stdout st.
Proof.
  unfold extension_of. destruct (String.eqb (Str.lower filetype) "csv"); intros H.
  - unfold save_to_csv in H. bind_as H u1 s1 Hstart. bind_as H u2 s2 Hwrite.
    injection H as <- <-. injection Hstart as _ <-.
    destruct (silent_run _ _ _ _ (silent_call _) Hwrite) as [-> ->]. done.
  - unfold save_to_excel in H. bind_as H u1 s1 Hstart. bind_as H u2 s2 Hwrite.
    injection H as <- <-. injection Hstart as _ <-.
    assert (stdout s2 = stdout (mkState (world st) (stdout st)
                                  (files st ++ [(save_at today +:+ "/" +:+ filename +:+ ".xlsx",
                                                 business_list bl)])) /\
            files s2 = files (mkState (world st) (stdout st)
                                (files st ++ [(save_at today +:+ "/" +:+ filename +:+ ".xlsx",
                                               business_list bl)]))) as [-> ->]; [|done].
    destruct (business_list bl); exact (silent_run _ _ _ _ (silent_call _) Hwrite).
Qed.

(** What a run that returns has done, step by step. *)
Lemma scrape_ok_inv query total headless filetype st path st' :
  scrape_businesses_core pw py_hash today query total headless filetype st = (Ok path, st') ->
  exists rows errors,
    path = save_at today +:+ "/" +:+ safe_name_of query +:+ extension_of filetype /\
    files st' = files st ++ [(path, rows)] /\
    stdout st' = stdout st ++ errors /\
    Forall (extracted_row (parse_query query).1 (parse_query query).2) rows /\
    Forall (fun line => exists k e, line = error_line k e /\ (1 <= k)%nat /\
                                    (0 <= total -> (k <= Z.to_nat total)%nat)) errors /\
    (0 <= total -> (length rows + length errors <= Z.to_nat total)%nat).
Proof.
  intros H. unfold scrape_businesses_core in H. cbv zeta in H.
  bind_as H u1 st_in Henter.
  apply try_finally_ok_inv in H as (st_closed & H & Hexit).
  bind_as H opened st_open Hopen. destruct opened as [[browser context] page].
  unfold collect_and_export in H.
  bind_as H how st_loop Hloop. bind_as H anchors st_all Hall.
  destruct anchors as [|anchor anchors].
  { bind_as H u2 s2 Hclose. discriminate H. }
  bind_as H bl st_rows Hrows. bind_as H file_path st_file Hsave.
  bind_as H u3 st_c Hclose. injection H as <- <-.
  destruct (silent_run _ _ _ _ (silent_call _) Henter) as [Ho1 Hf1].
  destruct (silent_run _ _ _ _ (silent_open_and_search pw query headless) Hopen) as [Ho2 Hf2].
  destruct (silent_run _ _ _ _ (silent_scroll_loop pw page total _ _ _) Hloop) as [Ho3 Hf3].
  destruct (silent_run _ _ _ _ (silent_call _) Hall) as [Ho4 Hf4].
  destruct (silent_run _ _ _ _ (silent_call _) Hclose) as [Ho6 Hf6].
  destruct (silent_run _ _ _ _ (silent_call _) Hexit) as [Ho7 Hf7].
  apply save_ok_inv in Hsave as (-> & Hf5 & Ho5).
  destruct (process_listings_run pw py_hash page context (parse_query query).1
              (parse_query query).2 1
              (slice_to total ((fun a => locator_locator pw a "xpath=..") <$> anchor :: anchors))
              BusinessList_new st_all)
    as (extracted & st_rows' & rows & errors & Hrun & _ & _ & Hlist & Hout & Hfiles & Hlen
        & Hshape & Hlines).
  rewrite Hrows in Hrun. injection Hrun as -> <-. cbn [business_list BusinessList_new app] in Hlist.
  exists rows, errors. rewrite Hlist in Hf5. split; [done|].
  split; [congruence|]. split; [congruence|]. split; [done|]. split.
  - eapply Forall_impl; [exact Hlines|]. intros line (k & e & -> & Hk).
    exists k, e. split; [done|]. split; [lia|]. intros Htotal.
    pose proof (proj2 (length_slice_to total
                         ((fun a => locator_locator pw a "xpath=..") <$> anchor :: anchors))
                  Htotal). lia.
  - intros Htotal. etrans; [exact Hlen|]. by apply length_slice_to.
Qed.


End RunFacts.

Section ZeroCountProperties.

Context {World Browser BrowserContext Page Locator : Type}.
Variable pw : Playwright World Browser BrowserContext Page Locator.
Variable py_hash : list string -> Z.
Variable today : string.


End ZeroCountProperties.



Section RunProperties.

Context {World Browser BrowserContext Page Locator : Type}.
Variable pw : Playwright World Browser BrowserContext Page Locator.
Variable py_hash : list string -> Z.
Variable today : string.


(** X10: a listing is lost only when the click on it raises, or when
    opening or closing the page of its website raises. Nothing else makes the
    extraction of a listing raise: no failure to read a field, to load the
    website or to scan its markup. In that case the listing loop prints the
    error line of the listing and leaves the business list as it was. *)
Theorem listing_lost_only_by_click_or_site_page
    (page : Page) (context : BrowserContext) (cat loc : string) (idx : nat)
    (listing : Locator) (bl : BusinessList) (st st' : State World) (e : exn) :
  extract_business pw page context cat loc listing st = (Raise e, st') ->
  ((exists w, locator_click pw listing (world st) = (Raise e, w)) \/
   (exists w w', context_new_page pw context w = (Raise e, w')) \/
   (exists site_page w w', page_close pw site_page w = (Raise e, w'))) /\
  process_listing pw py_hash page context cat loc idx listing bl st
    = (Ok bl, mkState (world st') (stdout st ++ [error_line idx e]) (files st)).
Proof.
  intros H. split; [by apply (extract_business_raise pw page context cat loc listing st e st')|].
  rewrite process_listing_cases, H.
  destruct (silent_run _ _ _ _ (silent_extract_business pw page context cat loc listing) H)
    as [-> ->]. done.
Qed.

(** X11: the listing loop of a run, started on the empty business list with
    index 1, returns for every list of listings and every behaviour of the
    browser, and it accounts for every listing once, by its position and in
    order. With the outcome of the listing at position k, counted from 1,
    being what the extraction of that listing returns or raises in the world
    that the loop has reached (the listings and the world at the start leave
    one list of outcomes only), the business list that the loop returns is the
    run of the Deduplicator over the records of the listings that were
    extracted, in the order of the listings, and what the loop prints is the
    lines "[k] Error: " followed by the text of the exception, one for every
    listing whose extraction raised, in the order of the listings; nothing
    else is printed and no file is started. Every listing gives a record or
    a line, the rows of the returned list are records of extracted listings
    in their order, and rows and lines together are never more than the
    listings. *)
Theorem listing_loop_accounting
    (page : Page) (context : BrowserContext) (cat loc : string) (listings : list Locator)
    (st : State World) :
  exists outcomes st',
    extractions pw page context cat loc 1 st listings outcomes st' /\
    (forall outcomes2 st2,
       extractions pw page context cat loc 1 st listings outcomes2 st2 ->
       outcomes2 = outcomes) /\
    outcomes.*1 = seq 1 (length listings) /\
    process_listings pw py_hash page context cat loc 1 listings BusinessList_new st
      = (Ok (add_all py_hash BusinessList_new (records_of outcomes)), st') /\
    stdout st' = stdout st ++ lines_of outcomes /\
    files st' = files st /\
    Forall (extracted_row cat loc) (records_of outcomes) /\
    (length (records_of outcomes) + length (lines_of outcomes) = length listings)%nat /\
    business_list (add_all py_hash BusinessList_new (records_of outcomes))
      `sublist_of` records_of outcomes /\
    (length (business_list (add_all py_hash BusinessList_new (records_of outcomes)))
       + length (lines_of outcomes) <= length listings)%nat.
Proof.
  destruct (process_listings_outcomes pw py_hash page context cat loc 1 listings
              BusinessList_new st)
    as (outcomes & st' & Hrun & Hloop & Hlines & Hfiles & Hidx & Hshape & Hlen).
  destruct (add_all_appends py_hash BusinessList_new (records_of outcomes))
    as (kept & Hkept & Hsub & _).
  simpl in Hkept. exists outcomes, st'. split; [done|]. split.
  { intros outcomes2 st2 Hrun2.
    by destruct (extractions_unique pw page context cat loc 1 listings st st outcomes2 outcomes
                   st2 st' eq_refl Hrun2 Hrun). }
  do 6 (split; [done|]). rewrite Hkept.
  split; [done|]. apply sublist_length in Hsub. lia.
Qed.

(** X12: whenever the pipeline returns a path, it is the path
    [GMaps_Data/<today>/<safe name>.csv] when the file type is "csv" in any
    letter case and [.xlsx] for every other file type; exactly one output
    file was started during the run, at that path; the run printed only
    error lines of listings; every row of the file is an extracted record
    with the category and location parsed from the query; and for a
    requested total that is not negative, rows and error lines together are
    at most the total. *)
Theorem returned_path_is_the_output_file
    (query : string) (total : Z) (headless : bool) (filetype : string)
    (st st' : State World) (path : string) :
  scrape_businesses_core pw py_hash today query total headless filetype st = (Ok path, st') ->
  exists rows errors,
    path = save_at today +:+ "/" +:+ safe_name_of query +:+ extension_of filetype /\
    files st' = files st ++ [(path, rows)] /\
    stdout st' = stdout st ++ errors /\
    Forall (extracted_row (parse_query query).1 (parse_query query).2) rows /\
    Forall (fun line => exists k e, line = error_line k e /\ (1 <= k)%nat /\
                                    (0 <= total -> (k <= Z.to_nat total)%nat)) errors /\
    (0 <= total -> (length rows + length errors <= Z.to_nat total)%nat).
Proof. apply scrape_ok_inv. Qed.

(** X13: a run whose snapshot shows an anchor goes through the listing loop
    whatever the listings do, and it returns the path of the output file
    when the writer, the closing of the browser and the end of the browser
    session succeed; the file holds the business list that the loop built
    from the parents of the first [total] anchors, and it is the one file
    that the run has started. *)
Theorem run_exports_one_file
    (query : string) (total : Z) (headless : bool) (filetype : string)
    (st st_in st_open st_loop : State World)
    (browser : Browser) (context : BrowserContext) (page : Page) (how : loop_exit * nat)
    (anchor : Locator) (anchors : list Locator) (w_all : World) :
  call (sync_playwright_enter pw) st = (Ok tt, st_in) ->
  open_and_search pw query headless st_in = (Ok (browser, context, page), st_open) ->
  scroll_loop pw page total max_scroll_loops 0 0 st_open = (Ok how, st_loop) ->
  locator_all pw (page_locator pw page anchor_xpath) (world st_loop)
    = (Ok (anchor :: anchors), w_all) ->
  let path := save_at today +:+ "/" +:+ safe_name_of query +:+ extension_of filetype in
  exists bl st_rows,
    process_listings pw py_hash page context (parse_query query).1 (parse_query query).2 1
      (slice_to total ((fun a => locator_locator pw a "xpath=..") <$> anchor :: anchors))
      BusinessList_new (set_world st_loop w_all) = (Ok bl, st_rows) /\
    files st_rows = files st /\
    forall w_file w_closed w_exit,
      (if String.eqb (Str.lower filetype) "csv" then to_csv pw else to_excel pw)
        path (business_list bl) (world st_rows) = (Ok tt, w_file) ->
      browser_close pw browser w_file = (Ok tt, w_closed) ->
      sync_playwright_exit pw w_closed = (Ok tt, w_exit) ->
      scrape_businesses_core pw py_hash today query total headless filetype st
        = (Ok path, mkState w_exit (stdout st_rows) (files st ++ [(path, business_list bl)])).
Proof.
  intros Henter Hopen Hloop Hall path.
  destruct (silent_run _ _ _ _ (silent_call _) Henter) as [_ Hf1].
  destruct (silent_run _ _ _ _ (silent_open_and_search pw query headless) Hopen) as [_ Hf2].
  destruct (silent_run _ _ _ _ (silent_scroll_loop pw page total _ _ _) Hloop) as [_ Hf3].
  destruct (process_listings_run pw py_hash page context (parse_query query).1
              (parse_query query).2 1
              (slice_to total ((fun a => locator_locator pw a "xpath=..") <$> anchor :: anchors))
              BusinessList_new (set_world st_loop w_all))
    as (extracted & st_rows & rows & errors & Hrun & _ & _ & _ & _ & Hfiles & _).
  exists (add_all py_hash BusinessList_new extracted), st_rows.
  split; [exact Hrun|]. cbn [files set_world] in Hfiles.
  generalize dependent (add_all py_hash BusinessList_new extracted). intros bl Hrun.
  assert (files st_rows = files st) as Hsame by congruence. split; [exact Hsame|].
  intros w_file w_closed w_exit Hwrite Hclose Hexit.
  unfold scrape_businesses_core. cbv zeta. rewrite (bind_ok _ _ _ _ _ Henter).
  unfold try_finally. rewrite (bind_ok _ _ _ _ _ Hopen).
  unfold collect_and_export. rewrite (bind_ok _ _ _ _ _ Hloop).
  unfold bind at 1. unfold call at 1. rewrite Hall.
  rewrite (bind_ok _ _ _ _ _ Hrun).
  rewrite (bind_ok _ _ _ _ _ (save_run pw today filetype bl (safe_name_of query) st_rows
                                 w_file Hwrite)).
  unfold bind, call, ret. cbn [world set_world stdout files].
  rewrite Hclose. cbn [world set_world stdout files]. rewrite Hexit.
  unfold set_world, path. cbn [stdout files]. by rewrite Hsame.
Qed.

(** X14: the browser is opened and the search is submitted in a fixed
    order: launch, context with locale en-GB, page, time-out, the map site,
    the query typed into the search box as given, Enter; when these succeed,
    the session is open whatever the hover that nudges the results pane
    does: an exception of the hover is swallowed. *)
Theorem hover_failure_is_ignored
    (query : string) (headless : bool) (st : State World)
    (browser : Browser) (context : BrowserContext) (page : Page)
    (w1 w2 w3 w4 w5 w6 w7 w8 : World) (hovered : result unit) :
  chromium_launch pw headless (world st) = (Ok browser, w1) ->
  browser_new_context pw browser "en-GB" w1 = (Ok context, w2) ->
  context_new_page pw context w2 = (Ok page, w3) ->
  page_set_default_timeout pw page 45000 w3 = (Ok tt, w4) ->
  page_goto pw page "https://www.google.com/maps" 60000 w4 = (Ok tt, w5) ->
  locator_fill pw (page_locator pw page searchbox_xpath) query w5 = (Ok tt, w6) ->
  keyboard_press pw page "Enter" (sleep_uniform pw 800 1200 w6) = (Ok tt, w7) ->
  page_hover pw page anchor_xpath (sleep_uniform pw 4000 4000 w7) = (hovered, w8) ->
  open_and_search pw query headless st = (Ok (browser, context, page), set_world st w8).
Proof.
  intros H1 H2 H3 H4 H5 H6 H7 H8.
  unfold open_and_search, bind, try_except, call, sleep, ret.
  rewrite H1. cbn [world set_world]. rewrite H2. cbn [world set_world].
  rewrite H3. cbn [world set_world]. rewrite H4. cbn [world set_world].
  rewrite H5. cbn [world set_world]. rewrite H6. cbn [world set_world].
  rewrite H7. cbn [world set_world]. rewrite H8. cbn [world set_world stdout files].
  by destruct hovered as [[]|e].
Qed.

(** X15: the front end rejects a request before anything is started. A
    query that is empty or blank raises the error that asks for a query, and
    a number of results below 10 or above 200 raises the error that names the
    range, the query being checked first; in both cases the state is left as
    it was: no browser is launched, nothing is printed and no file is
    started. Every other request is handed to the pipeline with the query
    trimmed. *)
Theorem run_scraper_rejects_bad_requests
    (query : string) (num_results : Z) (filetype : string) (headless : bool)
    (st : State World) :
  (Str.strip query = "" ->
   run_scraper pw py_hash today query num_results filetype headless st
     = (Raise (OtherException missing_query_msg), st)) /\
  (Str.strip query <> "" -> num_results < 10 \/ 200 < num_results ->
   run_scraper pw py_hash today query num_results filetype headless st
     = (Raise (OtherException results_range_msg), st)) /\
  (Str.strip query <> "" -> 10 <= num_results <= 200 ->
   run_scraper pw py_hash today query num_results filetype headless st
     = scrape_businesses_core pw py_hash today (Str.strip query) num_results headless
         filetype st).
Proof.
  unfold run_scraper. split; [|split].
  - intros ->. by rewrite orb_true_r.
  - intros Hq Hn. destruct (String.eqb_spec query "") as [->|_]; [done|].
    destruct (String.eqb_spec (Str.strip query) ""); [done|]. cbn [orb].
    destruct (Z.ltb_spec num_results 10); [done|].
    destruct (Z.ltb_spec 200 num_results); [done|]. lia.
  - intros Hq Hn. destruct (String.eqb_spec query "") as [->|_]; [done|].
    destruct (String.eqb_spec (Str.strip query) ""); [done|]. cbn [orb].
    destruct (Z.ltb_spec num_results 10); [lia|].
    destruct (Z.ltb_spec 200 num_results); [lia|]. done.
Qed.

(** X16: whenever a request made through the front end returns a path, the
    query was not blank and the number of results was between 10 and 200;
    the path is the one of the trimmed query; one output file was started,
    with at most as many rows as results were asked for, so never more than
    200; and every row has a category that is not empty and has no white
    space at its ends. *)
Theorem front_end_run
    (query : string) (num_results : Z) (filetype : string) (headless : bool)
    (st st' : State World) (path : string) :
  run_scraper pw py_hash today query num_results filetype headless st = (Ok path, st') ->
  Str.strip query <> "" /\
  10 <= num_results <= 200 /\
  exists rows errors,
    path = save_at today +:+ "/" +:+ safe_name_of (Str.strip query) +:+ extension_of filetype /\
    files st' = files st ++ [(path, rows)] /\
    stdout st' = stdout st ++ errors /\
    (length rows + length errors <= Z.to_nat num_results)%nat /\
    (Z.to_nat num_results <= 200)%nat /\
    Forall (fun b => exists cat, category b = Some cat /\ cat <> "" /\ trimmed cat) rows.
Proof.
  unfold run_scraper. intros H.
  destruct (String.eqb_spec query "") as [->|_]; [done|].
  destruct (String.eqb_spec (Str.strip query) "") as [|Hq]; [done|]. cbn [orb] in H.
  destruct (Z.ltb_spec num_results 10); [done|].
  destruct (Z.ltb_spec 200 num_results); [done|]. cbn [orb] in H.
  split; [done|]. split; [lia|].
  apply scrape_ok_inv in H as (rows & errors & Hpath & Hfiles & Hout & Hshape & _ & Hlen).
  exists rows, errors. do 3 (split; [done|]). split; [apply Hlen; lia|]. split; [lia|].
  eapply Forall_impl; [exact Hshape|].
  intros b (name_txt & address_txt & website_text & phone_txt & email_txt & -> & _).
  exists (parse_query (Str.strip query)).1. split; [done|].
  split; [by apply parse_query_category_nonempty|].
  apply (parse_query_fields_trimmed (Str.strip query)).
Qed.


End RunProperties.

(** ** What a run does to the output, whatever its outcome *)

Section EffectFacts.

Context {World Browser BrowserContext Page Locator : Type}.
Variable pw : Playwright World Browser BrowserContext Page Locator.
Variable py_hash : list string -> Z.
Variable today : string.

Lemma prints_errors_silent {A} (m : M World A) : silent m -> prints_errors m.
Proof. intros H st. exists []. destruct (H st) as [-> _]. by rewrite app_nil_r. Qed.

Lemma prints_errors_bind {A B} (m : M World A) (k : A -> M World B) :
  prints_errors m -> (forall a, prints_errors (k a)) -> prints_errors (bind m k).
Proof.
  intros Hm Hk st. unfold bind. destruct (Hm st) as (errors & Hout & Hlines).
  destruct (m st) as [[a|e] st1]; simpl in Hout; [|by exists errors].
  destruct (Hk a st1) as (errors' & Hout' & Hlines').
  exists (errors ++ errors'). split; [by rewrite Hout', Hout, <- app_assoc|by apply Forall_app].
Qed.

Lemma prints_errors_try_finally {A} (m : M World A) (c : M World unit) :
  prints_errors m -> silent c -> prints_errors (try_finally m c).
Proof.
  intros Hm Hc st. unfold try_finally. destruct (Hm st) as (errors & Hout & Hlines).
  destruct (m st) as [r st1]. simpl in Hout. destruct (Hc st1) as [Hout' _].
  exists errors. split; [|done]. destruct (c st1) as [[[]|e] st2]; simpl in *; congruence.
Qed.

Lemma starts_at_most_fileless {A} path (m : M World A) : fileless m -> starts_at_most path m.
Proof. intros H st. left. apply H. Qed.

Lemma starts_at_most_bind_l {A B} path (m : M World A) (k : A -> M World B) :
  fileless m -> (forall a, starts_at_most path (k a)) -> starts_at_most path (bind m k).
Proof.
  intros Hm Hk st. unfold bind. specialize (Hm st).
  destruct (m st) as [[a|e] st1]; simpl in Hm; [|by left]. rewrite <- Hm. apply Hk.
Qed.

Lemma starts_at_most_bind_r {A B} path (m : M World A) (k : A -> M World B) :
  starts_at_most path m -> (forall a, fileless (k a)) -> starts_at_most path (bind m k).
Proof.
  intros Hm Hk st. unfold bind. specialize (Hm st).
  destruct (m st) as [[a|e] st1]; simpl in Hm; [|done]. by rewrite (Hk a st1).
Qed.

Lemma starts_at_most_try_finally {A} path (m : M World A) (c : M World unit) :
  starts_at_most path m -> fileless c -> starts_at_most path (try_finally m c).
Proof.
  intros Hm Hc st. unfold try_finally. specialize (Hm st).
  destruct (m st) as [r st1]. simpl in Hm. specialize (Hc st1).
  destruct (c st1) as [[[]|e] st2]; simpl in *; by rewrite Hc.
Qed.

Lemma silent_save filetype bl filename :
  forall st, stdout ((if String.eqb (Str.lower filetype) "csv"
                      then save_to_csv pw today bl filename
                      else save_to_excel pw today bl filename) st).2 = stdout st.
Proof.
  intros st. destruct (String.eqb (Str.lower filetype) "csv").
  - unfold save_to_csv, bind, started_file, call, ret. cbn [world].
    match goal with
    | |- context [to_csv pw ?f ?r ?w] => by destruct (to_csv pw f r w) as [[[]|e] w']
    end.
  - unfold save_to_excel, bind, started_file, call, ret. cbn [world].
    destruct (business_list bl);
      match goal with
      | |- context [to_excel pw ?f ?r ?w] => by destruct (to_excel pw f r w) as [[[]|e] w']
      end.
Qed.

Lemma starts_at_most_save filetype bl filename :
  starts_at_most (save_at today +:+ "/" +:+ filename +:+ extension_of filetype)
    (if String.eqb (Str.lower filetype) "csv"
     then save_to_csv pw today bl filename
     else save_to_excel pw today bl filename).
Proof.
  intros st. right. exists (business_list bl).
  unfold extension_of. destruct (String.eqb (Str.lower filetype) "csv").
  - unfold save_to_csv, bind, started_file, call, ret. cbn [world].
    match goal with
    | |- context [to_csv pw ?f ?r ?w] => by destruct (to_csv pw f r w) as [[[]|e] w']
    end.
  - unfold save_to_excel, bind, started_file, call, ret. cbn [world].
    destruct (business_list bl);
      match goal with
      | |- context [to_excel pw ?f ?r ?w] => by destruct (to_excel pw f r w) as [[[]|e] w']
      end.
Qed.

Lemma prints_errors_process_listings page context cat loc idx listings bl :
  prints_errors (process_listings pw py_hash page context cat loc idx listings bl).
Proof.
  intros st.
  destruct (process_listings_run pw py_hash page context cat loc idx listings bl st)
    as (extracted & st' & rows & errors & -> & _ & _ & _ & Hout & _ & _ & _ & Hlines).
  exists errors. split; [done|].
  eapply Forall_impl; [exact Hlines|]. intros line (k & e & -> & _). by exists k, e.
Qed.

(** X18: whatever a run of the pipeline does, whether it returns or raises,
    all that it prints is error lines of listings, and it leaves the output
    files as they were or starts exactly one file, at the path that the
    query, the date and the file type give: it never starts a second file,
    and never a file under another name. *)
Theorem run_output_whatever_the_outcome
    (query : string) (total : Z) (headless : bool) (filetype : string) (st : State World) :
  let run := scrape_businesses_core pw py_hash today query total headless filetype st in
  let path := save_at today +:+ "/" +:+ safe_name_of query +:+ extension_of filetype in
  (exists errors, stdout run.2 = stdout st ++ errors /\ Forall is_error_line errors) /\
  (files run.2 = files st \/ exists rows, files run.2 = files st ++ [(path, rows)]).
Proof.
  cbv zeta. split.
  - revert st. change (prints_errors
      (scrape_businesses_core pw py_hash today query total headless filetype)).
    unfold scrape_businesses_core. cbv zeta.
    apply prints_errors_bind; [apply prints_errors_silent, silent_call|]. intros _.
    apply prints_errors_try_finally; [|apply silent_call].
    apply prints_errors_bind; [apply prints_errors_silent, silent_open_and_search|].
    intros [[browser context] page]. unfold collect_and_export.
    apply prints_errors_bind; [apply prints_errors_silent, silent_scroll_loop|]. intros _.
    apply prints_errors_bind; [apply prints_errors_silent, silent_call|]. intros [|anchor anchors].
    { apply prints_errors_silent, silent_bind; [apply silent_call|]. intros _. apply silent_raise. }
    apply prints_errors_bind; [apply prints_errors_process_listings|]. intros bl.
    apply prints_errors_bind.
    + intros st. exists []. rewrite silent_save, app_nil_r. done.
    + intros file_path. apply prints_errors_silent, silent_bind; [apply silent_call|].
      intros _. apply silent_ret.
  - revert st. change (starts_at_most
      (save_at today +:+ "/" +:+ safe_name_of query +:+ extension_of filetype)
      (scrape_businesses_core pw py_hash today query total headless filetype)).
    unfold scrape_businesses_core. cbv zeta.
    apply starts_at_most_bind_l; [apply silent_fileless, silent_call|]. intros _.
    apply starts_at_most_try_finally; [|apply silent_fileless, silent_call].
    apply starts_at_most_bind_l; [apply silent_fileless, silent_open_and_search|].
    intros [[browser context] page]. unfold collect_and_export.
    apply starts_at_most_bind_l; [apply silent_fileless, silent_scroll_loop|]. intros _.
    apply starts_at_most_bind_l; [apply silent_fileless, silent_call|]. intros [|anchor anchors].
    { apply starts_at_most_fileless, silent_fileless, silent_bind; [apply silent_call|].
      intros _. apply silent_raise. }
    apply starts_at_most_bind_l; [apply fileless_process_listings|]. intros bl.
    apply starts_at_most_bind_r; [apply starts_at_most_save|].
    intros file_path. apply silent_fileless, silent_bind; [apply silent_call|].
    intros _. apply silent_ret.
Qed.

End EffectFacts.

(** ** The properties on the simulated browser *)

(** On the page whose counter keeps growing, every iteration scrolls on. *)
Lemma growing_page_scrolls_on (k a prev : nat) (rest : list nat) :
  (prev < a)%nat -> Z.of_nat (a + k) <= 1000 ->
  scrolls_on Sim.playwright 0%nat 1000 prev
    (Sim.start (Sim.set_counts growing_page (seq a k ++ rest))) (seq a k)
    (Sim.start (Sim.set_counts growing_page rest)).
Proof.
  revert a prev. induction k as [|k IH]; intros a prev Hprev Hbound.
  - apply scrolls_on_nil.
  - apply (scrolls_on_cons _ _ _ _ _ a
             (Sim.start (Sim.set_counts growing_page (seq (S a) k ++ rest))));
      [reflexivity|lia|lia|]. apply IH; lia.
Qed.

Lemma scroll_loop_ends_at_first_stop_witness :
  scroll_loop Sim.playwright 0%nat 25 max_scroll_loops 0 0 (Sim.start stalling_page)
    = (Ok (Stalled, 4%nat), Sim.start (Sim.set_counts stalling_page [])) /\
  scroll_loop Sim.playwright 0%nat 15 max_scroll_loops 0 0 (Sim.start stalling_page)
    = (Ok (ReachedTotal, 3%nat), Sim.start (Sim.set_counts stalling_page [20%nat])) /\
  scroll_loop Sim.playwright 0%nat 1000 max_scroll_loops 0 0 (Sim.start growing_page)
    = (Ok (CapReached, max_scroll_loops), Sim.start (Sim.set_counts growing_page (seq 51 10))).
Proof.
  split; [|split].
  - assert (scrolls_on Sim.playwright 0%nat 25 0 (Sim.start stalling_page) [5; 12; 20]%nat
              (Sim.start (Sim.set_counts stalling_page [20%nat]))) as Hrun.
    { do 3 (eapply scrolls_on_cons; [reflexivity|lia|lia|]). apply scrolls_on_nil. }
    apply (proj2 (proj1 (proj1 (scroll_loop_ends_at_first_stop Sim.playwright 0%nat 25 _ _ _
                                  Hrun)
                           ltac:(unfold max_scroll_loops; simpl; lia))
                    20%nat (Sim.start (Sim.set_counts stalling_page [])) eq_refl));
      [lia|reflexivity].
  - assert (scrolls_on Sim.playwright 0%nat 15 0 (Sim.start stalling_page) [5; 12]%nat
              (Sim.start (Sim.set_counts stalling_page [20; 20]%nat))) as Hrun.
    { do 2 (eapply scrolls_on_cons; [reflexivity|lia|lia|]). apply scrolls_on_nil. }
    apply (proj1 (proj1 (proj1 (scroll_loop_ends_at_first_stop Sim.playwright 0%nat 15 _ _ _
                                  Hrun)
                           ltac:(unfold max_scroll_loops; simpl; lia))
                    20%nat (Sim.start (Sim.set_counts stalling_page [20%nat])) eq_refl)).
    lia.
  - apply (proj2 (scroll_loop_ends_at_first_stop Sim.playwright 0%nat 1000 _ _ _
                    (growing_page_scrolls_on 50 1 0 (seq 51 10) ltac:(lia) ltac:(lia)))).
    reflexivity.
Defined.

Lemma scroll_loop_iterations_bounded_witness :
  (1 <= 4 <= max_scroll_loops)%nat /\
  (Stalled = CapReached -> 4%nat = max_scroll_loops) /\
  (25 <= 0 -> Stalled = ReachedTotal /\ 4%nat = 1%nat).
Proof.
  exact (scroll_loop_iterations_bounded Sim.playwright 0%nat 25 (Sim.start stalling_page)
           (Sim.start (Sim.set_counts stalling_page [])) Stalled 4%nat eq_refl).
Defined.


Lemma returned_path_is_the_output_file_witness :
  exists rows errors,
    "GMaps_Data/2026-11-03/shops_in_york.csv"
      = save_at "2026-11-03" +:+ "/" +:+ safe_name_of "shops in york" +:+ extension_of "CSV" /\
    files mixed_run.2 = [] ++ [("GMaps_Data/2026-11-03/shops_in_york.csv", rows)] /\
    stdout mixed_run.2 = [] ++ errors /\
    Forall (extracted_row (parse_query "shops in york").1 (parse_query "shops in york").2) rows /\
    Forall (fun line => exists k e, line = error_line k e /\ (1 <= k)%nat /\
                                    (0 <= 10 -> (k <= Z.to_nat 10)%nat)) errors /\
    (0 <= 10 -> (length rows + length errors <= Z.to_nat 10)%nat).
Proof.
  apply (returned_path_is_the_output_file Sim.playwright fnv_hash "2026-11-03" "shops in york"
           10 true "CSV" (Sim.start mixed_page) mixed_run.2
           "GMaps_Data/2026-11-03/shops_in_york.csv").
  vm_compute. reflexivity.
Defined.

Lemma run_exports_one_file_witness :
  mixed_run.1 = Ok "GMaps_Data/2026-11-03/shops_in_york.csv" /\
  exists rows,
    files mixed_run.2 = [("GMaps_Data/2026-11-03/shops_in_york.csv", rows)] /\
    (name <$> rows) = [Some "Shop 1"; Some "Shop 3"].
Proof.
  destruct (run_exports_one_file Sim.playwright fnv_hash "2026-11-03" "shops in york" 10 true
              "CSV" (Sim.start mixed_page) (Sim.start mixed_page) (Sim.start mixed_page)
              (Sim.start mixed_page) tt tt 0%nat (Stalled, 2%nat)
              (Sim.Anchor 1) [Sim.Anchor 2; Sim.Anchor 3] mixed_page
              eq_refl eq_refl eq_refl eq_refl)
    as (bl & st_rows & Hrows & _ & Hrun).
  vm_compute in Hrows. injection Hrows as <- <-.
  specialize (Hrun _ _ _ eq_refl eq_refl eq_refl).
  unfold mixed_run. rewrite Hrun. split; [reflexivity|].
  eexists. split; reflexivity.
Defined.

Lemma listing_lost_only_by_click_or_site_page_witness :
  process_listing Sim.playwright fnv_hash 0%nat tt "shops" "york" 2
    (Sim.Sub (Sim.Anchor 2) "xpath=..") BusinessList_new (Sim.start mixed_page)
  = (Ok BusinessList_new,
     mkState mixed_page [error_line 2 (PWError "element is not attached to the DOM")] []).
Proof.
  exact (proj2 (listing_lost_only_by_click_or_site_page Sim.playwright fnv_hash 0%nat tt
                  "shops" "york" 2 (Sim.Sub (Sim.Anchor 2) "xpath=..") BusinessList_new
                  (Sim.start mixed_page) (Sim.start mixed_page)
                  (PWError "element is not attached to the DOM") eq_refl)).
Defined.

Lemma hover_failure_is_ignored_witness :
  open_and_search no_hover_playwright "shops in york" true (Sim.start mixed_page)
    = (Ok (tt, tt, 0%nat), Sim.start mixed_page) /\
  open_and_search Sim.playwright "shops in york" true (Sim.start mixed_page)
    = (Ok (tt, tt, 0%nat), Sim.start mixed_page).
Proof.
  split.
  - exact (hover_failure_is_ignored no_hover_playwright "shops in york" true
             (Sim.start mixed_page) tt tt 0%nat mixed_page mixed_page mixed_page mixed_page
             mixed_page mixed_page mixed_page mixed_page
             (Raise (PWTimeoutError "Timeout 45000ms exceeded."))
             eq_refl eq_refl eq_refl eq_refl eq_refl eq_refl eq_refl eq_refl).
  - exact (hover_failure_is_ignored Sim.playwright "shops in york" true
             (Sim.start mixed_page) tt tt 0%nat mixed_page mixed_page mixed_page mixed_page
             mixed_page mixed_page mixed_page mixed_page (Ok tt)
             eq_refl eq_refl eq_refl eq_refl eq_refl eq_refl eq_refl eq_refl).
Defined.

Lemma run_scraper_rejects_bad_requests_witness :
  run_scraper Sim.playwright fnv_hash "2026-11-03" "   " 50 "CSV" true (Sim.start mixed_page)
    = (Raise (OtherException missing_query_msg), Sim.start mixed_page) /\
  run_scraper Sim.playwright fnv_hash "2026-11-03" "shops in york" 5 "CSV" true
    (Sim.start mixed_page)
    = (Raise (OtherException results_range_msg), Sim.start mixed_page) /\
  run_scraper Sim.playwright fnv_hash "2026-11-03" "shops in york" 210 "CSV" true
    (Sim.start mixed_page)
    = (Raise (OtherException results_range_msg), Sim.start mixed_page) /\
  mixed_request = mixed_run.
Proof.
  split; [|split; [|split]].
  - exact (proj1 (run_scraper_rejects_bad_requests Sim.playwright fnv_hash "2026-11-03"
                    "   " 50 "CSV" true (Sim.start mixed_page)) eq_refl).
  - apply (proj1 (proj2 (run_scraper_rejects_bad_requests Sim.playwright fnv_hash "2026-11-03"
                           "shops in york" 5 "CSV" true (Sim.start mixed_page))));
      [by vm_compute|lia].
  - apply (proj1 (proj2 (run_scraper_rejects_bad_requests Sim.playwright fnv_hash "2026-11-03"
                           "shops in york" 210 "CSV" true (Sim.start mixed_page))));
      [by vm_compute|lia].
  - apply (proj2 (proj2 (run_scraper_rejects_bad_requests Sim.playwright fnv_hash "2026-11-03"
                           "  shops in york " 10 "CSV" true (Sim.start mixed_page))));
      [by vm_compute|lia].
Defined.

Lemma front_end_run_witness :
  Str.strip "  shops in york " <> "" /\
  10 <= 10 <= 200 /\
  exists rows errors,
    "GMaps_Data/2026-11-03/shops_in_york.csv"
      = save_at "2026-11-03" +:+ "/" +:+ safe_name_of (Str.strip "  shops in york ")
          +:+ extension_of "CSV" /\
    files mixed_request.2 = [] ++ [("GMaps_Data/2026-11-03/shops_in_york.csv", rows)] /\
    stdout mixed_request.2 = [] ++ errors /\
    (length rows + length errors <= Z.to_nat 10)%nat /\
    (Z.to_nat 10 <= 200)%nat /\
    Forall (fun b => exists cat, category b = Some cat /\ cat <> "" /\ trimmed cat) rows.
Proof.
  apply (front_end_run Sim.playwright fnv_hash "2026-11-03" "  shops in york " 10 "CSV" true
           (Sim.start mixed_page) mixed_request.2 "GMaps_Data/2026-11-03/shops_in_york.csv").
  vm_compute. reflexivity.
Defined.

